(** * fileLogger.c: rotating file log sink (lib/glibUtils)

    A shallow embedding of [FileLoggerGetPath], [FileLoggerOpen],
    [FileLoggerLog], [FileLoggerDestroy] and [GlibUtils_CreateFileLogger],
    over an explicit model
    of the file system calls the C code makes, and a step function for
    several threads in [FileLoggerLog]; followed by the properties of the
    path expansion, the open/rotation policy, the size accounting and the
    race to open the file. *)

From Stdlib Require Import ZArith Ascii String DecimalString DecimalPos DecimalZ.
From stdpp Require Import base option list gmap strings.

Local Open Scope Z_scope.

(** ** C integer types

    [gint] is a 32-bit signed integer, [guint] a 32-bit unsigned one and
    [guint64] a 64-bit unsigned one.  Values are kept in [Z]; each conversion
    or wrapping operation of the C code is written out with these functions. *)

Definition to_gint (z : Z) : Z := (z + 2 ^ 31) mod 2 ^ 32 - 2 ^ 31.
Definition to_guint (z : Z) : Z := z mod 2 ^ 32.
Definition to_guint64 (z : Z) : Z := z mod 2 ^ 64.

(** ** Outcome of a modelled call

    [OutOfFuel]: the substitution loop of [FileLoggerGetPath] did not finish
    within the given number of iterations.  [Undefined]: the C code reads
    outside the pointer array (undefined behaviour). *)

Inductive result (A : Type) : Type :=
  | Ok (a : A)
  | OutOfFuel
  | Undefined.
Arguments Ok {A} a.
Arguments OutOfFuel {A}.
Arguments Undefined {A}.

Definition bind_result {A B : Type} (k : A -> result B) (r : result A) : result B :=
  match r with
  | Ok a => k a
  | OutOfFuel => OutOfFuel
  | Undefined => Undefined
  end.

#[global] Instance result_ret : MRet result := @Ok.
#[global] Instance result_bind : MBind result := @bind_result.

(** ** C strings

    A C string is the list of its characters before the terminating NUL. *)

Abbreviation cstring := (list ascii).

Definition cstr (s : string) : cstring := list_ascii_of_string s.

Fixpoint is_prefix (p s : cstring) : bool :=
  match p, s with
  | [], _ => true
  | _ :: _, [] => false
  | a :: p', b :: s' => if Ascii.eqb a b then is_prefix p' s' else false
  end.

(** [strstr hay needle]: offset in [hay] of the first occurrence of
    [needle], [None] for a NULL result. *)
Fixpoint strstr (hay needle : cstring) : option nat :=
  if is_prefix needle hay then Some 0%nat
  else match hay with
       | [] => None
       | _ :: rest => S <$> strstr rest needle
       end.

(** [strrchr s c]: offset in [s] of the last occurrence of [c]. *)
Fixpoint strrchr (s : cstring) (c : ascii) : option nat :=
  match s with
  | [] => None
  | a :: rest =>
      match strrchr rest c with
      | Some i => Some (S i)
      | None => if Ascii.eqb a c then Some 0%nat else None
      end
  end.

(** printf's [%d] and [%u]. *)
Definition fmt_d (z : Z) : cstring := cstr (NilZero.string_of_int (Z.to_int z)).
Definition fmt_u (z : Z) : cstring := cstr (NilZero.string_of_uint (N.to_uint (Z.to_N z))).

(** [g_snprintf(buf, n, ...)] keeps at most [n - 1] characters. *)
Definition g_snprintf (n : nat) (s : cstring) : cstring := take (n - 1) s.

(** ** FileLoggerGetPath *)

(** What the expansion reads from the process: [g_get_user_name()] and
    [getpid()]. *)
Record process_env := {
  user_name : cstring;
  pid : Z;
  win32 : bool  (* the code is compiled with [_WIN32] defined *)
}.

Definition VAR_USER : cstring := cstr "${USER}".
Definition VAR_PID : cstring := cstr "${PID}".
Definition VAR_IDX : cstring := cstr "${IDX}".

(** The [while ((start = strstr(last, vars[i])) != NULL)] loop for one
    variable.  [last] is the offset of the pointer [last] in [logpath];
    [d] is [start - last]. *)
Fixpoint subst_var (fuel : nat) (i : nat) (name value : cstring)
    (logpath : cstring) (last : nat) (hasIndex : bool) : result (cstring * bool) :=
  match strstr (drop last logpath) name with
  | None => Ok (logpath, hasIndex)
  | Some d =>
      match fuel with
      | O => OutOfFuel
      | S fuel' =>
          let start := (last + d)%nat in
          let end_ := (start + length name)%nat in
          let offset := (d + length value)%nat in
          let tmp := take start logpath ++ value ++ drop end_ logpath in
          subst_var fuel' i name value tmp offset
            (if Nat.eqb i 4 then true else hasIndex)
      end
  end.

(** The [for (i = 0; i < G_N_ELEMENTS(vars); i += 2)] loop. *)
Fixpoint expand_vars (fuel : nat) (vars : list (cstring * cstring)) (i : nat)
    (logpath : cstring) (hasIndex : bool) : result (cstring * bool) :=
  match vars with
  | [] => Ok (logpath, hasIndex)
  | (name, value) :: rest =>
      '(logpath', hasIndex') ← subst_var fuel i name value logpath 0 hasIndex;
      expand_vars fuel rest (i + 2) logpath' hasIndex'
  end.

(** The index suffix added when the template had no [${IDX}]. *)
Definition add_index (logpath : cstring) (index : Z) : cstring :=
  let sep := strrchr logpath "." in
  let pathsep :=
    match strrchr logpath "/" with
    | Some j => Some j
    | None => strrchr logpath "\"
    end in
  match sep with
  | Some i =>
      if match pathsep with Some j => Nat.ltb j i | None => true end
      then take i logpath ++ cstr "." ++ fmt_d index ++ cstr "." ++ drop (S i) logpath
      else logpath ++ cstr "." ++ fmt_d index
  | None => logpath ++ cstr "." ++ fmt_d index
  end.

Definition FileLoggerGetPath (fuel : nat) (env : process_env) (path : cstring)
    (index : Z) : result cstring :=
  let indexStr := g_snprintf 11 (fmt_d index) in
  let vars :=
    [ (VAR_USER, user_name env);
      (VAR_PID, fmt_u (to_guint (pid env)));
      (VAR_IDX, indexStr) ] in
  '(logpath, hasIndex) ← expand_vars fuel vars 0 path false;
  if negb (index =? 0) && negb hasIndex
  then Ok (add_index logpath index)
  else Ok logpath.

(** ** The file system and the calls made on it

    A path holds a regular file or a directory.  The operating system may
    refuse a call (permissions, missing parent directory, no space, no
    descriptor left): the [*_denied] fields say where.  [trace] records the
    calls in the order they were made. *)

Inductive node : Type :=
  | RegularFile (content : cstring)
  | Directory (st_size : Z).

Inductive GFileTest : Type :=
  | G_FILE_TEST_EXISTS
  | G_FILE_TEST_IS_REGULAR
  | G_FILE_TEST_IS_DIR.

Inductive open_mode : Type :=
  | mode_a
  | mode_w.

Inductive syscall : Type :=
  | call_file_test (p : cstring) (t : GFileTest)
  | call_stat (p : cstring)
  | call_unlink (p : cstring)
  | call_rename (src dest : cstring)
  | call_fopen (p : cstring) (m : open_mode)
  | call_fputs (h : cstring) (message : cstring)
  | call_fflush (h : cstring)
  | call_fclose (h : cstring).

Record world := {
  fs : gmap cstring node;
  stat_denied : cstring -> bool;
  unlink_denied : cstring -> bool;
  rename_denied : cstring -> cstring -> bool;
  fopen_denied : cstring -> bool;
  trace : list syscall
}.

Definition with_fs (w : world) (m : gmap cstring node) : world :=
  {| fs := m; stat_denied := stat_denied w; unlink_denied := unlink_denied w;
     rename_denied := rename_denied w; fopen_denied := fopen_denied w;
     trace := trace w |}.

Definition record_call (w : world) (c : syscall) : world :=
  {| fs := fs w; stat_denied := stat_denied w; unlink_denied := unlink_denied w;
     rename_denied := rename_denied w; fopen_denied := fopen_denied w;
     trace := trace w ++ [c] |}.

Definition node_size (n : node) : Z :=
  match n with
  | RegularFile content => Z.of_nat (length content)
  | Directory sz => sz
  end.

Definition g_file_test (w : world) (p : cstring) (t : GFileTest) : bool * world :=
  let r :=
    match t, fs w !! p with
    | G_FILE_TEST_EXISTS, Some _ => true
    | G_FILE_TEST_IS_REGULAR, Some (RegularFile _) => true
    | G_FILE_TEST_IS_DIR, Some (Directory _) => true
    | _, _ => false
    end in
  (r, record_call w (call_file_test p t)).

(** [g_stat]: [Some st_size] when the call returns 0. *)
Definition g_stat (w : world) (p : cstring) : option Z * world :=
  let r :=
    match fs w !! p with
    | Some n => if stat_denied w p then None else Some (node_size n)
    | None => None
    end in
  (r, record_call w (call_stat p)).

(** [g_unlink]: [true] when the call returns 0. *)
Definition g_unlink (w : world) (p : cstring) : bool * world :=
  let w' := record_call w (call_unlink p) in
  match fs w !! p with
  | Some (RegularFile _) =>
      if unlink_denied w p then (false, w')
      else (true, with_fs w' (delete p (fs w)))
  | _ => (false, w')
  end.

(** [g_rename]: a regular file replaces a regular file or takes a free
    name; renaming a path to itself does nothing. *)
Definition g_rename (w : world) (src dest : cstring) : bool * world :=
  let w' := record_call w (call_rename src dest) in
  match fs w !! src with
  | None => (false, w')
  | Some n =>
      if rename_denied w src dest then (false, w')
      else if bool_decide (src = dest) then (true, w')
      else
        match n, fs w !! dest with
        | _, None
        | RegularFile _, Some (RegularFile _) =>
            (true, with_fs w' (<[dest := n]> (delete src (fs w))))
        | _, _ => (false, w')
        end
  end.

(** [g_fopen]: the handle is the path the stream was opened at. *)
Definition g_fopen (w : world) (p : cstring) (m : open_mode) : option cstring * world :=
  let w' := record_call w (call_fopen p m) in
  if fopen_denied w p then (None, w')
  else
    match fs w !! p, m with
    | Some (Directory _), _ => (None, w')
    | Some (RegularFile _), mode_a => (Some p, w')
    | _, _ => (Some p, with_fs w' (<[p := RegularFile []]> (fs w)))
    end.

(** [fputs]: [ok] is whether the call returns a non-negative value. *)
Definition fputs (w : world) (message : cstring) (h : cstring) (ok : bool) : world :=
  let w' := record_call w (call_fputs h message) in
  if ok then
    match fs w !! h with
    | Some (RegularFile content) =>
        with_fs w' (<[h := RegularFile (content ++ message)]> (fs w))
    | _ => w'
    end
  else w'.

Definition fflush (w : world) (h : cstring) : world := record_call w (call_fflush h).
Definition fclose (w : world) (h : cstring) : world := record_call w (call_fclose h).

(** ** The logger *)

Record FileLogger := {
  file : option cstring;
  path : cstring;
  logSize : Z;     (* gint *)
  maxSize : Z;     (* guint64 *)
  maxFiles : Z;    (* guint *)
  append : bool;
  error : bool
}.

Definition set_file (d : FileLogger) (f : option cstring) : FileLogger :=
  {| file := f; path := path d; logSize := logSize d; maxSize := maxSize d;
     maxFiles := maxFiles d; append := append d; error := error d |}.
Definition set_logSize (d : FileLogger) (n : Z) : FileLogger :=
  {| file := file d; path := path d; logSize := n; maxSize := maxSize d;
     maxFiles := maxFiles d; append := append d; error := error d |}.
Definition set_append (d : FileLogger) (b : bool) : FileLogger :=
  {| file := file d; path := path d; logSize := logSize d; maxSize := maxSize d;
     maxFiles := maxFiles d; append := b; error := error d |}.
Definition set_error (d : FileLogger) (b : bool) : FileLogger :=
  {| file := file d; path := path d; logSize := logSize d; maxSize := maxSize d;
     maxFiles := maxFiles d; append := append d; error := b |}.

(** [logSize >= maxSize]: a [gint] against a [guint64], so the [gint] is
    converted to [guint64] first. *)
Definition size_reached (d : FileLogger) : bool :=
  maxSize d <=? to_guint64 (logSize d).

(** ** FileLoggerOpen *)

(** [for (id = 0; id < data->maxFiles; id++)], with [n] the number of
    iterations left ([maxFiles - id]). *)
Fixpoint find_last_log (fuel : nat) (env : process_env) (data : FileLogger)
    (n : nat) (id : Z) (logfiles : list cstring) (w : world)
    : result (list cstring * world) :=
  match n with
  | O => Ok (logfiles, w)
  | S n' =>
      log ← FileLoggerGetPath fuel env (path data) (to_gint id);
      let logfiles := logfiles ++ [log] in
      let '(regular, w) := g_file_test w log G_FILE_TEST_IS_REGULAR in
      if regular
      then find_last_log fuel env data n' (id + 1) logfiles w
      else Ok (logfiles, w)
  end.

(** The body of the renaming loop for one pair. *)
Definition rename_one (w : world) (src dest : cstring) : world :=
  let '(isdir, w) := g_file_test w dest G_FILE_TEST_IS_DIR in
  if isdir then (g_unlink w src).2
  else
    let '(exists_, w) := g_file_test w dest G_FILE_TEST_EXISTS in
    if negb exists_ then (g_rename w src dest).2
    else
      let '(unlinked, w) := g_unlink w dest in
      if unlinked then (g_rename w src dest).2
      else (g_unlink w src).2.

(** [for (id = logfiles->len - 1; id > 0; id--)]. *)
Fixpoint rename_logs (id : nat) (logfiles : list cstring) (w : world) : result world :=
  match id with
  | O => Ok w
  | S id' =>
      match logfiles !! id, logfiles !! id' with
      | Some dest, Some src => rename_logs id' logfiles (rename_one w src dest)
      | _, _ => Undefined
      end
  end.

Definition FileLoggerOpen (fuel : nat) (env : process_env) (data : FileLogger)
    (w : world) : result (option cstring * FileLogger * world) :=
  path0 ← FileLoggerGetPath fuel env (path data) 0;
  let '(exists_, w) := g_file_test w path0 G_FILE_TEST_EXISTS in
  '(data, w) ←
    (if exists_ then
       let '(fstats, w) := g_stat w path0 in
       let data :=
         match fstats with
         | Some st_size => set_logSize data (to_gint st_size)
         | None => data
         end in
       if negb (append data) || size_reached data then
         '(logfiles, w) ←
           find_last_log fuel env data (Z.to_nat (maxFiles data)) 0 [] w;
         (* with an empty array, [id = logfiles->len - 1] wraps around and
            [g_ptr_array_index] reads outside the array *)
         w ← (if Nat.eqb (length logfiles) 0 then Undefined
              else rename_logs (length logfiles - 1) logfiles w);
         Ok (set_append (set_logSize data 0) false, w)
       else Ok (data, w)
     else Ok (data, w));
  let '(logfile, w) :=
    g_fopen w path0 (if append data then mode_a else mode_w) in
  Ok (logfile, data, w).

(** ** FileLoggerLog

    The calls of one thread; the reader/writer lock has no effect on them.
    [fputs_ok] is the outcome of the [fputs] call, if it is reached. *)

Definition FileLoggerLog (fuel : nat) (env : process_env) (message : cstring)
    (fputs_ok : bool) (logger : FileLogger) (w : world)
    : result (FileLogger * world) :=
  if error logger then Ok (logger, w)
  else
    '(logger, w) ←
      (match file logger with
       | None =>
           '(f, logger, w) ← FileLoggerOpen fuel env logger w;
           let logger := set_file logger f in
           match f with
           | None => Ok (set_error logger true, w)
           | Some _ => Ok (logger, w)
           end
       | Some _ => Ok (logger, w)
       end);
    match file logger with
    | None => Ok (logger, w)   (* goto exit *)
    | Some h =>
        let w := fputs w message h fputs_ok in
        if fputs_ok then
          if 0 <? maxSize logger then
            let logger :=
              set_logSize logger
                (to_gint (logSize logger + to_gint (Z.of_nat (length message)))) in
            let logger :=
              if win32 env then set_logSize logger (to_gint (logSize logger + 1))
              else logger in
            if size_reached logger then
              (* the check is made again under the writer lock *)
              if size_reached logger then
                let w := fclose w h in
                let logger := set_append logger false in
                '(f, logger, w) ← FileLoggerOpen fuel env logger w;
                Ok (set_file logger f, w)
              else Ok (logger, w)
            else Ok (logger, fflush w h)
          else Ok (logger, fflush w h)
        else Ok (logger, w)
    end.

(** ** FileLoggerDestroy

    The stream is closed if there is one; the memory that is freed is not
    part of the model. *)
Definition FileLoggerDestroy (logger : FileLogger) (w : world) : world :=
  match file logger with
  | Some h => fclose w h
  | None => w
  end.

(** ** GlibUtils_CreateFileLogger *)

(** glib's conversion from UTF-8 to the encoding of file names; that encoding
    is taken to be UTF-8, where the conversion copies its input. *)
Definition g_filename_from_utf8 (s : cstring) : option cstring := Some s.

(** [maxSize] and [maxFiles] are [guint]: the products and the sum are
    computed in 32 bits before [maxSize] is widened to [guint64]. *)
Definition GlibUtils_CreateFileLogger (path_ : cstring) (append_ : bool)
    (maxSize_ maxFiles_ : Z) : option FileLogger :=
  match g_filename_from_utf8 path_ with
  | None => None
  | Some p =>
      Some {| file := None;
              path := p;
              logSize := 0;
              maxSize := to_guint (to_guint (maxSize_ * 1024) * 1024);
              maxFiles := to_guint (maxFiles_ + 1);
              append := append_;
              error := false |}
  end.

(** Run [FileLoggerLog] on a list of messages, each with the outcome of its
    [fputs]. *)
Fixpoint log_all (fuel : nat) (env : process_env) (msgs : list (cstring * bool))
    (logger : FileLogger) (w : world) : result (FileLogger * world) :=
  match msgs with
  | [] => Ok (logger, w)
  | (message, ok) :: rest =>
      '(logger, w) ← FileLoggerLog fuel env message ok logger w;
      log_all fuel env rest logger w
  end.

(** ** Several threads in FileLoggerLog

    Each thread runs [FileLoggerLog]; a program point is named after the
    line of fileLogger.c it is about to execute.  A step of a thread is one
    lock operation, or one read or write of the logger, or one call.  The
    statements that run with the writer lock held and call [FileLoggerOpen]
    (line 271, lines 294 to 296) are one step each.

    The lock lets a reader in when no writer holds it, and a writer in when
    nobody holds it.  [sh_opens] and [sh_rotations] record what the calls of
    [FileLoggerOpen] at line 271 and at line 296 returned; they are not
    read by a step. *)

Inductive pc : Type :=
  | L257 | L259 | L263 | L268 | L269 | L270 | L271 | L273 | L274 | L275 | L276
  | L282 | L283 | L284 | L287 | L289 | L291 | L292 | L293 | L294 | L298 | L299
  | L301 | L304 | L309
  | returned.

Record thread := {
  th_pc : pc;
  th_message : cstring;
  th_fputs_ok : bool
}.

Record shared := {
  sh_logger : FileLogger;
  sh_world : world;
  sh_readers : nat;
  sh_writer : bool;
  sh_opens : list (option cstring);
  sh_rotations : list (option cstring)
}.

Definition with_lock (s : shared) (r : nat) (wr : bool) : shared :=
  {| sh_logger := sh_logger s; sh_world := sh_world s; sh_readers := r;
     sh_writer := wr; sh_opens := sh_opens s; sh_rotations := sh_rotations s |}.
Definition with_logger (s : shared) (l : FileLogger) : shared :=
  {| sh_logger := l; sh_world := sh_world s; sh_readers := sh_readers s;
     sh_writer := sh_writer s; sh_opens := sh_opens s;
     sh_rotations := sh_rotations s |}.
Definition with_world (s : shared) (w : world) : shared :=
  {| sh_logger := sh_logger s; sh_world := w; sh_readers := sh_readers s;
     sh_writer := sh_writer s; sh_opens := sh_opens s;
     sh_rotations := sh_rotations s |}.
Definition with_open (s : shared) (l : FileLogger) (w : world) (f : option cstring)
    : shared :=
  {| sh_logger := l; sh_world := w; sh_readers := sh_readers s;
     sh_writer := sh_writer s; sh_opens := sh_opens s ++ [f];
     sh_rotations := sh_rotations s |}.
Definition with_rotation (s : shared) (l : FileLogger) (w : world)
    (f : option cstring) : shared :=
  {| sh_logger := l; sh_world := w; sh_readers := sh_readers s;
     sh_writer := sh_writer s; sh_opens := sh_opens s;
     sh_rotations := sh_rotations s ++ [f] |}.

Definition reader_lock (s : shared) (next : pc) : option (result (pc * shared)) :=
  if sh_writer s then None
  else Some (Ok (next, with_lock s (S (sh_readers s)) false)).
Definition reader_unlock (s : shared) (next : pc) : option (result (pc * shared)) :=
  Some (Ok (next, with_lock s (pred (sh_readers s)) (sh_writer s))).
Definition writer_lock (s : shared) (next : pc) : option (result (pc * shared)) :=
  if sh_writer s || negb (Nat.eqb (sh_readers s) 0) then None
  else Some (Ok (next, with_lock s (sh_readers s) true)).
Definition writer_unlock (s : shared) (next : pc) : option (result (pc * shared)) :=
  Some (Ok (next, with_lock s (sh_readers s) false)).

(** One step of a thread: [None] when it waits for the lock or has
    returned. *)
Definition thread_step (fuel : nat) (env : process_env) (t : thread) (s : shared)
    : option (result (pc * shared)) :=
  let logger := sh_logger s in
  match th_pc t with
  | L257 => reader_lock s L259
  | L259 => Some (Ok (if error logger then L309 else L263, s))
  | L263 => Some (Ok (match file logger with None => L268 | Some _ => L282 end, s))
  | L268 => reader_unlock s L269
  | L269 => writer_lock s L270
  | L270 => Some (Ok (match file logger with None => L271 | Some _ => L273 end, s))
  | L271 =>
      Some ('(f, logger', w') ← FileLoggerOpen fuel env logger (sh_world s);
            Ok (L273, with_open s (set_file logger' f) w' f))
  | L273 => writer_unlock s L274
  | L274 => reader_lock s L275
  | L275 => Some (Ok (match file logger with None => L276 | Some _ => L282 end, s))
  | L276 => Some (Ok (L309, with_logger s (set_error logger true)))
  | L282 =>
      match file logger with
      | Some h =>
          Some (Ok (if th_fputs_ok t then L283 else L309,
                    with_world s (fputs (sh_world s) (th_message t) h (th_fputs_ok t))))
      | None => Some Undefined
      end
  | L283 => Some (Ok (if 0 <? maxSize logger then L284 else L304, s))
  | L284 =>
      Some (Ok (if win32 env then L287 else L289,
                with_logger s
                  (set_logSize logger
                     (to_gint (logSize logger
                               + to_gint (Z.of_nat (length (th_message t))))))))
  | L287 =>
      Some (Ok (L289,
                with_logger s (set_logSize logger (to_gint (logSize logger + 1)))))
  | L289 => Some (Ok (if size_reached logger then L291 else L301, s))
  | L291 => reader_unlock s L292
  | L292 => writer_lock s L293
  | L293 => Some (Ok (if size_reached logger then L294 else L298, s))
  | L294 =>
      match file logger with
      | Some h =>
          Some ('(f, logger', w') ←
                  FileLoggerOpen fuel env (set_append logger false)
                    (fclose (sh_world s) h);
                Ok (L298, with_rotation s (set_file logger' f) w' f))
      | None => Some Undefined
      end
  | L298 => writer_unlock s L299
  | L299 => reader_lock s L309
  | L301 | L304 =>
      match file logger with
      | Some h => Some (Ok (L309, with_world s (fflush (sh_world s) h)))
      | None => Some Undefined
      end
  | L309 => reader_unlock s returned
  | returned => None
  end.

Definition at_pc (t : thread) (p : pc) : thread :=
  {| th_pc := p; th_message := th_message t; th_fputs_ok := th_fputs_ok t |}.

(** Thread [i] makes a step if it can; otherwise nothing changes. *)
Definition step (fuel : nat) (env : process_env) (i : nat)
    (c : list thread * shared) : result (list thread * shared) :=
  match c.1 !! i with
  | None => Ok c
  | Some t =>
      match thread_step fuel env t c.2 with
      | None => Ok c
      | Some r => '(p, s') ← r; Ok (<[i := at_pc t p]> c.1, s')
      end
  end.

(** The threads scheduled in the order of [schedule]. *)
Fixpoint run (fuel : nat) (env : process_env) (schedule : list nat)
    (c : list thread * shared) : result (list thread * shared) :=
  match schedule with
  | [] => Ok c
  | i :: rest => c' ← step fuel env i c; run fuel env rest c'
  end.

(** The calls of [FileLoggerLog] start on a logger. *)
Definition start (msgs : list (cstring * bool)) (logger : FileLogger) (w : world)
    : list thread * shared :=
  (map (fun m => {| th_pc := L257; th_message := m.1; th_fputs_ok := m.2 |}) msgs,
   {| sh_logger := logger; sh_world := w; sh_readers := 0; sh_writer := false;
      sh_opens := []; sh_rotations := [] |}).

(** The program points at which a thread holds the writer lock. *)
Definition holds_writer (p : pc) : bool :=
  match p with
  | L270 | L271 | L273 | L293 | L294 | L298 => true
  | _ => false
  end.

(** The program points a thread can be at before any call of
    [FileLoggerOpen]. *)
Definition before_open (p : pc) : bool :=
  match p with
  | L257 | L259 | L263 | L268 | L269 | L270 | L271 => true
  | _ => false
  end.

(** The program points at which a thread holds the reader lock. *)
Definition holds_reader (p : pc) : bool :=
  match p with
  | L259 | L263 | L268 | L275 | L276 | L282 | L283 | L284 | L287 | L289 | L291
  | L301 | L304 | L309 => true
  | _ => false
  end.

(** The number of threads at a program point of a given kind. *)
Definition count_pc (f : pc -> bool) (ts : list thread) : nat :=
  length (filter (fun t => f (th_pc t) = true) ts).

(** The lock counts its holders, and a writer excludes the readers. *)
Definition lock_inv (ts : list thread) (s : shared) : Prop :=
  sh_readers s = count_pc holds_reader ts /\
  (if sh_writer s then 1%nat else 0%nat) = count_pc holds_writer ts /\
  (sh_writer s = true -> sh_readers s = 0%nat).

(** At most one thread holds the writer lock, and the lock knows. *)
Definition writer_inv (ts : list thread) (s : shared) : Prop :=
  (sh_writer s = false /\
   forall j t, ts !! j = Some t -> holds_writer (th_pc t) = false)
  \/
  (sh_writer s = true /\
   exists i t, ts !! i = Some t /\ holds_writer (th_pc t) = true /\
     forall j t', ts !! j = Some t' -> holds_writer (th_pc t') = true -> j = i).

(** What holds in every state the threads reach from an unopened logger:
    a thread about to call [FileLoggerOpen] at line 271 has found no file,
    and nobody has changed that; until a rotation at line 296, the file is
    open exactly when the last call at line 271 returned it, all calls
    before having returned NULL; and before the first call every thread is
    still in front of it. *)
Definition open_inv (ts : list thread) (s : shared) : Prop :=
  writer_inv ts s /\
  (forall j t, ts !! j = Some t -> th_pc t = L271 -> file (sh_logger s) = None) /\
  (sh_rotations s = [] ->
   match file (sh_logger s) with
   | None => Forall (fun f => f = None) (sh_opens s)
   | Some h => exists failed, sh_opens s = failed ++ [Some h]
                              /\ Forall (fun f => f = None) failed
   end) /\
  (sh_opens s = [] ->
   sh_rotations s = [] /\ file (sh_logger s) = None /\
   error (sh_logger s) = false /\
   forall j t, ts !! j = Some t -> before_open (th_pc t) = true).

(** The program points between the test of [logger->file] under the
    writer lock and the setting of the error flag. *)
Definition past_open (p : pc) : bool :=
  match p with
  | L273 | L274 | L275 | L276 => true
  | _ => false
  end.

Definition sets_error (p : pc) : bool :=
  match p with
  | L276 => true
  | _ => false
  end.

(** [FileLoggerOpen] has been called; a call of it has returned NULL. *)
Definition open_called (s : shared) : Prop :=
  sh_opens s <> [] \/ sh_rotations s <> [].
Definition open_failed (s : shared) : Prop :=
  None ∈ sh_opens s \/ None ∈ sh_rotations s.

(** What holds in every state the threads reach from an unopened logger
    without error: there is a stream only after a call of [FileLoggerOpen];
    there is none after such a call only if one has returned NULL; a thread
    past the test under the writer lock has seen a call; and the error flag
    is set, or about to be set, only after a call has returned NULL. *)
Definition error_inv (ts : list thread) (s : shared) : Prop :=
  (file (sh_logger s) <> None -> open_called s) /\
  (file (sh_logger s) = None -> open_called s -> open_failed s) /\
  ((0 < count_pc past_open ts)%nat -> open_called s) /\
  ((0 < count_pc sets_error ts)%nat -> open_failed s) /\
  (error (sh_logger s) = true -> open_failed s).





(** The program points reached only with [maxSize > 0]; the one of the
    rotation; and the ones behind [fputs] at which the thread still holds the
    reader lock it wrote under. *)
Definition counted (p : pc) : bool :=
  match p with
  | L284 | L287 | L289 | L291 | L292 | L293 | L294 => true
  | _ => false
  end.

Definition at_rotation (p : pc) : bool :=
  match p with
  | L294 => true
  | _ => false
  end.

Definition writing (p : pc) : bool :=
  match p with
  | L283 | L284 | L287 | L289 | L291 | L301 | L304 => true
  | _ => false
  end.

(** The calls [FileLoggerOpen] makes. *)
Definition is_open_call (c : syscall) : bool :=
  match c with
  | call_fputs _ _ | call_fflush _ | call_fclose _ => false
  | _ => true
  end.

(** The calls [FileLoggerLog] itself makes on the open stream. *)
Definition is_write_call (c : syscall) : bool :=
  match c with
  | call_fputs _ _ | call_fflush _ => true
  | _ => false
  end.

(** Reading the calls from the first to the last: [q] says that nothing has
    been written since a stream was closed or [FileLoggerOpen] made a call
    (or since the start). *)
Definition quiet_step (q : bool) (c : syscall) : bool :=
  match c with
  | call_fputs _ _ => false
  | call_fflush _ => q
  | _ => true
  end.

Definition quiet_end (q : bool) (calls : list syscall) : bool :=
  foldl quiet_step q calls.

(** No stream is closed while [q] holds: each [fclose] call follows an
    [fputs] call, with only [fputs] and [fflush] calls in between. *)
Fixpoint spaced (q : bool) (calls : list syscall) : bool :=
  match calls with
  | [] => true
  | c :: rest =>
      (match c with call_fclose _ => negb q | _ => true end)
      && spaced (quiet_step q c) rest
  end.

(** The number of [fclose] calls. *)
Fixpoint closes (calls : list syscall) : nat :=
  match calls with
  | [] => 0
  | call_fclose _ :: rest => S (closes rest)
  | _ :: rest => closes rest
  end.

(** The calls of [FileLoggerOpen] that returned a stream, and the ones that
    returned NULL. *)
Fixpoint successes (l : list (option cstring)) : nat :=
  match l with
  | [] => 0
  | Some _ :: rest => S (successes rest)
  | None :: rest => successes rest
  end.

Fixpoint failures (l : list (option cstring)) : nat :=
  match l with
  | [] => 0
  | Some _ :: rest => failures rest
  | None :: rest => S (failures rest)
  end.

(** What holds of the stream in every state the threads reach: a thread
    behind the test of line 283 has found [maxSize > 0]; the stream is the
    one of the active file, which exists; and a call at line 271 returns a
    stream at most once, and once more after each rotation that did not. *)
Definition stream_inv (fuel : nat) (env : process_env) (ts : list thread)
    (s : shared) : Prop :=
  ((0 < count_pc counted ts)%nat -> 0 < maxSize (sh_logger s)) /\
  (forall h, file (sh_logger s) = Some h ->
     FileLoggerGetPath fuel env (path (sh_logger s)) 0 = Ok h
     /\ fs (sh_world s) !! h <> None) /\
  (successes (sh_opens s)
   <= failures (sh_rotations s)
      + match file (sh_logger s) with Some _ => 1 | None => 0 end)%nat.

(** A thread about to rotate has found the size at the threshold, and it
    still is. *)
Definition rotation_inv (ts : list thread) (s : shared) : Prop :=
  (0 < count_pc at_rotation ts)%nat -> size_reached (sh_logger s) = true.

(** Among the calls made after the first [n], each [fclose] call directly
    follows the writes, and there is one for each rotation; while the file is
    not open nothing has been written since the last call of
    [FileLoggerOpen]; and as long as nothing has been written since, no
    thread is between its write and its test, and the counter is 0 for the
    threads that have added to it. *)
Definition spaced_inv (n : nat) (ts : list thread) (s : shared) : Prop :=
  (n <= length (trace (sh_world s)))%nat /\
  spaced true (drop n (trace (sh_world s))) = true /\
  closes (drop n (trace (sh_world s))) = length (sh_rotations s) /\
  (file (sh_logger s) = None ->
   quiet_end true (drop n (trace (sh_world s))) = true) /\
  (quiet_end true (drop n (trace (sh_world s))) = true ->
   count_pc writing ts = 0%nat /\
   ((0 < count_pc counted ts)%nat ->
    logSize (sh_logger s) = 0 /\ append (sh_logger s) = false)).

(** As long as no rotation has failed to open the new file, the file is
    open exactly when the last call at line 271 returned it, all calls
    before having returned NULL. *)
Definition once_inv (s : shared) : Prop :=
  failures (sh_rotations s) = 0%nat ->
  match file (sh_logger s) with
  | None => Forall (fun f => f = None) (sh_opens s)
  | Some _ => exists failed h, sh_opens s = failed ++ [Some h]
                               /\ Forall (fun f => f = None) failed
  end.

(** ** Reference definitions for the path expansion *)

(** The first variable of [vars] whose name starts [s]. *)
Definition match_var (vars : list (cstring * cstring)) (s : cstring)
    : option (cstring * cstring) :=
  List.find (fun nv => is_prefix nv.1 s) vars.

(** One pass over [s] from left to right in which every occurrence of a
    variable name of [vars] is replaced by its value; [skip] characters are
    dropped first. *)
Fixpoint replace_vars (vars : list (cstring * cstring)) (skip : nat) (s : cstring)
    : cstring :=
  match s with
  | [] => []
  | c :: rest =>
      match skip with
      | S k => replace_vars vars k rest
      | O =>
          match match_var vars s with
          | Some (name, value) => value ++ replace_vars vars (length name - 1) rest
          | None => c :: replace_vars vars 0 rest
          end
      end
  end.

(** The number of replacements that pass makes. *)
Fixpoint count_vars (vars : list (cstring * cstring)) (skip : nat) (s : cstring)
    : nat :=
  match s with
  | [] => 0%nat
  | c :: rest =>
      match skip with
      | S k => count_vars vars k rest
      | O =>
          match match_var vars s with
          | Some (name, value) => S (count_vars vars (length name - 1) rest)
          | None => count_vars vars 0 rest
          end
      end
  end.

(** No occurrence of [name] in [a ++ b] starts inside [a]. *)
Fixpoint free_until (name a b : cstring) : Prop :=
  match a with
  | [] => True
  | c :: a' => is_prefix name (a ++ b) = false /\ free_until name a' b
  end.

(** [never_joins n value]: no end part of [n] can start with [value] or
    start [value]. *)
Definition never_joins (n value : cstring) : Prop :=
  forall w1 w2, n = w1 ++ w2 -> w2 <> [] ->
    is_prefix w2 value = false /\ is_prefix value w2 = false.

Definition var_names : list cstring := [VAR_USER; VAR_PID; VAR_IDX].

(** A value that cannot form a variable name together with the text around
    it: it is not empty, has no ["$"] and no ["}"], and is not a part of a
    variable name. *)
Definition safe_value (v : cstring) : bool :=
  match v with [] => false | _ :: _ => true end
  && forallb (fun c => negb (Ascii.eqb c "$") && negb (Ascii.eqb c "}")) v
  && forallb (fun n => match strstr n v with None => true | Some _ => false end)
       var_names.

(** The characters [%d] and [%u] print. *)
Definition is_index_char (c : ascii) : bool :=
  existsb (Ascii.eqb c) (cstr "-0123456789").

(** The number of ["$"] in a string. *)
Definition dollars (s : cstring) : nat :=
  length (filter (fun c => c = "$"%char) s).

(** The first two variables of [FileLoggerGetPath]. *)
Definition user_pid_vars (env : process_env) : list (cstring * cstring) :=
  [ (VAR_USER, user_name env); (VAR_PID, fmt_u (to_guint (pid env))) ].

(** The three variables with the values the specification gives them. *)
Definition template_vars (env : process_env) (index : Z) : list (cstring * cstring) :=
  [ (VAR_USER, user_name env);
    (VAR_PID, fmt_u (to_guint (pid env)));
    (VAR_IDX, fmt_d index) ].

(** The template with every occurrence of the three tokens replaced. *)
Definition expand_template (env : process_env) (index : Z) (template : cstring)
    : cstring :=
  replace_vars (template_vars env index) 0 template.

(** The suffix rule in the words of the specification: the extension is
    what follows the last ["."] behind the last path separator, where ["/"]
    and ["\"] both count as separators. *)
Definition last_separator (s : cstring) : option nat :=
  match strrchr s "/", strrchr s "\" with
  | Some i, Some j => Some (Nat.max i j)
  | Some i, None => Some i
  | None, r => r
  end.

Definition spec_add_index (s : cstring) (index : Z) : cstring :=
  match strrchr s "." with
  | Some i =>
      if match last_separator s with Some j => Nat.ltb j i | None => true end
      then take i s ++ cstr "." ++ fmt_d index ++ cstr "." ++ drop (S i) s
      else s ++ cstr "." ++ fmt_d index
  | None => s ++ cstr "." ++ fmt_d index
  end.

(** ** Reference definitions for the calls made *)

(** The calls of the two loops of [FileLoggerOpen] that find and rename the
    old log files. *)
Definition is_shift_call (c : syscall) : bool :=
  match c with
  | call_file_test _ _ | call_unlink _ | call_rename _ _ => true
  | _ => false
  end.

(** [w'] is [w] after the calls [calls], whatever they did to the files. *)
Definition after_calls (w w' : world) (calls : list syscall) : Prop :=
  trace w' = trace w ++ calls /\
  stat_denied w' = stat_denied w /\
  unlink_denied w' = unlink_denied w /\
  rename_denied w' = rename_denied w /\
  fopen_denied w' = fopen_denied w.

(** What one message adds to [logSize]. *)
Definition message_cost (env : process_env) (message : cstring) : Z :=
  Z.of_nat (length message) + (if win32 env then 1 else 0).

Definition total_cost (env : process_env) (msgs : list cstring) : Z :=
  foldr (fun m acc => message_cost env m + acc) 0 msgs.

(** The messages of a sequence whose [fputs] succeeded. *)
Definition written_messages (msgs : list (cstring * bool)) : list cstring :=
  map fst (filter (fun m => m.2 = true) msgs).

(** A character is not in a given string. *)
Ltac not_in_cstring :=
  let H := fresh in
  let E := fresh in
  intros H; simpl in H;
  repeat (apply elem_of_cons in H as [E|H]; [discriminate E|]);
  by apply elem_of_nil in H.

(** * Properties *)

(** ** Strings *)

Lemma is_prefix_iff (p s : cstring) : is_prefix p s = true <-> p `prefix_of` s.
Proof.
  revert s; induction p as [|a p IH]; intros s; simpl.
  - split; [intros _; apply prefix_nil | done].
  - destruct s as [|b s].
    + split; [done | intros H; by apply prefix_nil_not in H].
    + destruct (Ascii.eqb_spec a b) as [->|Hne].
      * rewrite IH. split; [apply prefix_cons | apply prefix_cons_inv_2].
      * split; [done | intros H; by apply prefix_cons_inv_1 in H].
Qed.

Lemma is_prefix_app (p r : cstring) : is_prefix p (p ++ r) = true.
Proof. apply is_prefix_iff. by exists r. Qed.

Lemma is_prefix_true (p s : cstring) :
  is_prefix p s = true -> s = p ++ drop (length p) s.
Proof.
  intros [r ->]%is_prefix_iff. by rewrite drop_app_length.
Qed.

(** A prefix of [a ++ b] lies within [a] or covers [a]. *)
Lemma is_prefix_app_inv (n a b : cstring) :
  is_prefix n (a ++ b) = true ->
  is_prefix n a = true \/ exists n2, n = a ++ n2 /\ n2 <> [] /\ is_prefix n2 b = true.
Proof.
  revert a; induction n as [|x n IH]; intros a H; [by left|].
  destruct a as [|y a]; simpl in *.
  - right. exists (x :: n). by repeat split.
  - destruct (Ascii.eqb_spec x y) as [->|]; [|done].
    destruct (IH a H) as [?|(n2 & -> & ? & ?)]; [by left|].
    right. by exists n2.
Qed.

Lemma free_until_app (name a1 a2 b : cstring) :
  free_until name (a1 ++ a2) b <->
  free_until name a1 (a2 ++ b) /\ free_until name a2 b.
Proof.
  induction a1 as [|c a1 IH]; simpl; [tauto|].
  rewrite IH, <- (assoc_L (++)). tauto.
Qed.

Lemma free_until_drop (name a b : cstring) (k : nat) :
  free_until name a b -> free_until name (drop k a) b.
Proof.
  intros H. rewrite <- (take_drop k a) in H. by apply free_until_app in H as [_ ?].
Qed.

Lemma strstr_Some (s n : cstring) (d : nat) :
  strstr s n = Some d ->
  exists a b, s = a ++ b /\ length a = d /\ is_prefix n b = true /\ free_until n a b.
Proof.
  revert d; induction s as [|c s IH]; intros d; simpl.
  - destruct (is_prefix n []) eqn:E; [|done].
    intros [= <-]. by exists [], [].
  - destruct (is_prefix n (c :: s)) eqn:E.
    + intros [= <-]. by exists [], (c :: s).
    + destruct (strstr s n) as [d'|] eqn:E'; [|done].
      intros [= <-]. destruct (IH d' eq_refl) as (a & b & -> & <- & ? & ?).
      exists (c :: a), b. by repeat split.
Qed.

Lemma strstr_None (s n : cstring) :
  strstr s n = None -> free_until n s [] /\ is_prefix n [] = false.
Proof.
  induction s as [|c s IH]; simpl.
  - by destruct (is_prefix n []).
  - destruct (is_prefix n (c :: s)) eqn:E; [done|].
    destruct (strstr s n); [done|]. intros _.
    rewrite app_nil_r. destruct IH as [? ?]; done.
Qed.

(** The first occurrence lies behind a part that has none. *)
Lemma strstr_free (n a x : cstring) (d : nat) :
  free_until n a x -> strstr (a ++ x) n = Some d ->
  exists a' x', x = a' ++ n ++ x' /\ d = length (a ++ a') /\ free_until n a' (n ++ x').
Proof.
  revert d; induction a as [|c a IH]; intros d; simpl.
  - intros _ (a' & b & -> & <- & Hp & Hf)%strstr_Some.
    apply is_prefix_true in Hp. exists a', (drop (length n) b).
    by rewrite <- Hp.
  - intros [Hc Hf]. rewrite Hc.
    destruct (strstr (a ++ x) n) as [d'|] eqn:E; [|done].
    intros [= <-]. destruct (IH d' Hf eq_refl) as (a' & x' & -> & -> & ?).
    by exists a', x'.
Qed.

Lemma strstr_free_None (n a x : cstring) :
  free_until n a x -> strstr (a ++ x) n = None -> free_until n x [].
Proof.
  intros _ [H _]%strstr_None. by apply free_until_app in H as [_ ?].
Qed.

(** ** One pass of replacements *)

Section replace_vars.
Context (vars : list (cstring * cstring)).

Lemma replace_vars_skip (k : nat) (s : cstring) :
  replace_vars vars k s = replace_vars vars 0 (drop k s).
Proof.
  revert k; induction s as [|c s IH]; intros [|k]; simpl; auto.
Qed.

Lemma count_vars_skip (k : nat) (s : cstring) :
  count_vars vars k s = count_vars vars 0 (drop k s).
Proof.
  revert k; induction s as [|c s IH]; intros [|k]; simpl; auto.
Qed.

Lemma match_var_Some (s name value : cstring) :
  match_var vars s = Some (name, value) ->
  (name, value) ∈ vars /\ is_prefix name s = true.
Proof.
  unfold match_var. intros H. apply find_some in H as [H1 H2].
  split; [by apply list_elem_of_In | done].
Qed.

Lemma replace_vars_match (s name value : cstring) :
  match_var vars s = Some (name, value) -> name <> [] ->
  replace_vars vars 0 s = value ++ replace_vars vars 0 (drop (length name) s).
Proof.
  intros Hm Hne. destruct (match_var_Some _ _ _ Hm) as [_ Hp].
  destruct s as [|c s]; [by destruct name|].
  simpl. rewrite Hm, replace_vars_skip.
  destruct name as [|x name]; [done|]. simpl. by rewrite Nat.sub_0_r.
Qed.

Lemma count_vars_match (s name value : cstring) :
  match_var vars s = Some (name, value) -> name <> [] ->
  count_vars vars 0 s = S (count_vars vars 0 (drop (length name) s)).
Proof.
  intros Hm Hne. destruct (match_var_Some _ _ _ Hm) as [_ Hp].
  destruct s as [|c s]; [by destruct name|].
  simpl. rewrite Hm, count_vars_skip.
  destruct name as [|x name]; [done|]. simpl. by rewrite Nat.sub_0_r.
Qed.

Lemma replace_vars_nomatch (c : ascii) (s : cstring) :
  match_var vars (c :: s) = None ->
  replace_vars vars 0 (c :: s) = c :: replace_vars vars 0 s.
Proof. intros Hm. simpl. by rewrite Hm. Qed.

Lemma count_vars_nomatch (c : ascii) (s : cstring) :
  match_var vars (c :: s) = None ->
  count_vars vars 0 (c :: s) = count_vars vars 0 s.
Proof. intros Hm. simpl. by rewrite Hm. Qed.
End replace_vars.

Lemma match_var_one (name value s : cstring) :
  match_var [(name, value)] s =
  if is_prefix name s then Some (name, value) else None.
Proof. done. Qed.

Section one_var.
Context (name value : cstring) (Hname : name <> []).

Lemma replace_one_name (r : cstring) :
  replace_vars [(name, value)] 0 (name ++ r) =
  value ++ replace_vars [(name, value)] 0 r.
Proof.
  rewrite (replace_vars_match _ _ name value);
    [by rewrite drop_app_length | by rewrite match_var_one, is_prefix_app | done].
Qed.

Lemma count_one_name (r : cstring) :
  count_vars [(name, value)] 0 (name ++ r) = S (count_vars [(name, value)] 0 r).
Proof.
  rewrite (count_vars_match _ _ name value);
    [by rewrite drop_app_length | by rewrite match_var_one, is_prefix_app | done].
Qed.

Lemma replace_one_free (a b : cstring) :
  free_until name a b ->
  replace_vars [(name, value)] 0 (a ++ b) = a ++ replace_vars [(name, value)] 0 b.
Proof.
  induction a as [|c a IH]; [done|]. intros [Hc Hf].
  change ((c :: a) ++ b) with (c :: (a ++ b)) in *.
  rewrite replace_vars_nomatch, IH; [done..|].
  by rewrite match_var_one, Hc.
Qed.

Lemma count_one_free (a b : cstring) :
  free_until name a b ->
  count_vars [(name, value)] 0 (a ++ b) = count_vars [(name, value)] 0 b.
Proof.
  induction a as [|c a IH]; [done|]. intros [Hc Hf].
  change ((c :: a) ++ b) with (c :: (a ++ b)) in *.
  rewrite count_vars_nomatch, IH; [done..|].
  by rewrite match_var_one, Hc.
Qed.

(** The value can be put in place of an occurrence without a new
    occurrence appearing before its end. *)
Context (Hvalue : forall pre post,
  free_until name pre (name ++ post) -> free_until name (pre ++ value) post).

(** The loop of [FileLoggerGetPath] for one variable: [a] is the part
    already rewritten, [x] the part still to scan. *)
Lemma one_var_no_occurrence (x : cstring) :
  free_until name x [] ->
  replace_vars [(name, value)] 0 x = x /\ count_vars [(name, value)] 0 x = 0%nat.
Proof.
  intros H. pose proof (replace_one_free x [] H) as H1.
  pose proof (count_one_free x [] H) as H2.
  by rewrite !app_nil_r in *.
Qed.

Lemma subst_var_spec (fuel i : nat) (a x : cstring) (last : nat) (hasIndex : bool) :
  (last <= length a)%nat -> free_until name a x ->
  subst_var fuel i name value (a ++ x) last hasIndex =
  if (fuel <? count_vars [(name, value)] 0 x)%nat then OutOfFuel
  else Ok (a ++ replace_vars [(name, value)] 0 x,
           hasIndex || (Nat.eqb i 4 && (0 <? count_vars [(name, value)] 0 x)%nat)).
Proof.
  revert a x last hasIndex.
  induction fuel as [|fuel IH]; intros a x last hasIndex Hlast Hfree.
  all: unfold subst_var; fold subst_var.
  all: rewrite drop_app_le by done.
  all: pose proof (free_until_drop name a x last Hfree) as Hfree'.
  all: destruct (strstr (drop last a ++ x) name) as [d|] eqn:Hs.
  2,4: apply (strstr_free_None _ _ _ Hfree'), one_var_no_occurrence in Hs as [-> ->];
    by rewrite andb_false_r, orb_false_r.
  all: apply (strstr_free _ _ _ _ Hfree') in Hs as (a' & x' & -> & -> & Hfa).
  all: rewrite (count_one_free a'), count_one_name by done.
  - done.
  - rewrite (replace_one_free a'), replace_one_name by done.
    assert (last + length (drop last a ++ a') = length (a ++ a'))%nat as ->.
    { rewrite !length_app, length_drop. lia. }
    assert (take (length (a ++ a')) (a ++ a' ++ name ++ x') = a ++ a') as ->.
    { by rewrite (assoc_L (++)), take_app_length. }
    assert (drop (length (a ++ a') + length name) (a ++ a' ++ name ++ x') = x') as ->.
    { by rewrite (assoc_L (++) a), (assoc_L (++) (a ++ a')), <- length_app,
        drop_app_length. }
    rewrite (assoc_L (++) (a ++ a') value x').
    rewrite IH.
    + change (S fuel <? S ?n)%nat with (fuel <? n)%nat.
      destruct (fuel <? _)%nat; [done|].
      rewrite <- !(assoc_L (++)). f_equal. f_equal.
      destruct (Nat.eqb i 4), hasIndex; simpl; try done.
    + rewrite !length_app, length_drop. lia.
    + by apply Hvalue, free_until_app.
Qed.
End one_var.

(** ** Values that form no variable name with the text around them *)

Lemma is_prefix_app_r (n a b : cstring) :
  is_prefix n a = true -> is_prefix n (a ++ b) = true.
Proof. rewrite !is_prefix_iff. apply prefix_app_r. Qed.

Lemma is_prefix_app_both (a n b : cstring) :
  is_prefix n b = true -> is_prefix (a ++ n) (a ++ b) = true.
Proof. rewrite !is_prefix_iff. by apply prefix_app. Qed.

Lemma is_prefix_elem_of (n s : cstring) (c : ascii) :
  is_prefix n s = true -> c ∈ n -> c ∈ s.
Proof. intros [r ->]%is_prefix_iff ?. apply elem_of_app. by left. Qed.

Lemma is_prefix_head (body s : cstring) (c d : ascii) :
  c <> d -> is_prefix (c :: body) (d :: s) = false.
Proof. intros. simpl. by destruct (Ascii.eqb_spec c d). Qed.

Lemma free_until_no_head (body w x : cstring) (c : ascii) :
  c ∉ w -> free_until (c :: body) w x.
Proof.
  induction w as [|d w IH]; [done|].
  intros [? ?]%not_elem_of_cons. split; [by apply is_prefix_head | by apply IH].
Qed.

Lemma nonempty_suffix_last (init p n2 : cstring) (c : ascii) :
  init ++ [c] = p ++ n2 -> n2 <> [] -> exists n2', n2 = n2' ++ [c].
Proof.
  destruct n2 as [|z n2' _] using rev_ind; [done|].
  rewrite (assoc_L (++)). intros [_ [= ->]]%app_inj_tail _. by exists n2'.
Qed.

Lemma never_joins_suffix (w1 w2 value : cstring) :
  never_joins (w1 ++ w2) value -> never_joins w2 value.
Proof.
  intros H u1 u2 -> Hne. apply (H (w1 ++ u1) u2); [|done]. by rewrite (assoc_L (++)).
Qed.

Section safe.
Context (value : cstring).
Context (Hv_dollar : "$"%char ∉ value) (Hv_brace : "}"%char ∉ value).

Lemma safe_never_joins (init : cstring) :
  (forall a b, init ++ ["}"%char] <> a ++ value ++ b) ->
  never_joins (init ++ ["}"%char]) value.
Proof.
  intros Hpart w1 w2 Hn Hne. split.
  - destruct (is_prefix w2 value) eqn:E; [|done].
    destruct (nonempty_suffix_last _ _ _ _ Hn Hne) as [w2' ->].
    destruct Hv_brace. apply (is_prefix_elem_of _ _ _ E), elem_of_app.
    right. apply list_elem_of_singleton. done.
  - destruct (is_prefix value w2) eqn:E; [|done].
    apply is_prefix_true in E. destruct (Hpart w1 (drop (length value) w2)).
    by rewrite <- E.
Qed.

Lemma safe_free_until (body init pre post : cstring) :
  "$"%char :: body = init ++ ["}"%char] ->
  (forall a b, "$"%char :: body <> a ++ value ++ b) ->
  free_until ("$"%char :: body) pre (("$"%char :: body) ++ post) ->
  free_until ("$"%char :: body) (pre ++ value) post.
Proof.
  intros Hlast Hpart Hfree. apply free_until_app.
  split; [|by apply free_until_no_head].
  pose proof (safe_never_joins init) as Hj. rewrite <- Hlast in Hj.
  specialize (Hj Hpart). revert Hj Hfree. generalize ("$"%char :: body) as n.
  intros n Hj. induction pre as [|c pre IH]; [done|].
  intros [Hc Hf]. split; [|by apply IH].
  destruct (is_prefix n ((c :: pre) ++ value ++ post)) eqn:E; [|done].
  apply is_prefix_app_inv in E as [E|(n2 & -> & Hne & E)].
  - by rewrite is_prefix_app_r in Hc.
  - destruct (Hj (c :: pre) n2 eq_refl Hne) as [H1 H2].
    apply is_prefix_app_inv in E as [E|(n3 & -> & _ & _)]; [congruence|].
    by rewrite is_prefix_app in H2.
Qed.
End safe.

(** ** Passes one after the other and a single pass over all variables *)

Lemma match_var_None (vars : list (cstring * cstring)) (s : cstring) :
  (forall n v, (n, v) ∈ vars -> is_prefix n s = false) -> match_var vars s = None.
Proof.
  unfold match_var. induction vars as [|[n v] vars IH]; intros H; [done|].
  simpl. rewrite (H n v) by left. apply IH. intros n' v' ?. apply (H n' v'). by right.
Qed.

(** Text without ["$"] is copied by a pass. *)
Lemma replace_vars_no_dollar (vars : list (cstring * cstring)) (w x : cstring) :
  (forall n v, (n, v) ∈ vars -> exists body, n = "$"%char :: body) ->
  "$"%char ∉ w ->
  replace_vars vars 0 (w ++ x) = w ++ replace_vars vars 0 x.
Proof.
  intros Hvars. induction w as [|c w IH]; [done|].
  intros [Hc Hw]%not_elem_of_cons.
  change ((c :: w) ++ x) with (c :: (w ++ x)).
  rewrite replace_vars_nomatch, IH; [done..|].
  apply match_var_None. intros n v [body ->]%Hvars. by apply is_prefix_head.
Qed.

Section one_after_another.
Context (name value : cstring) (Hname : name <> []).

(** What starts the text after the pass started it before the pass. *)
Lemma is_prefix_replace_one (w r : cstring) :
  never_joins w value ->
  is_prefix w (replace_vars [(name, value)] 0 r) = true -> is_prefix w r = true.
Proof.
  revert r; induction w as [|a w IH]; intros r Hj; [done|].
  destruct (is_prefix name r) eqn:En.
  - apply is_prefix_true in En. rewrite En, replace_one_name by done.
    intros E. apply is_prefix_app_inv in E as [E|(n2 & E & _ & _)].
    + destruct (Hj [] (a :: w) eq_refl) as [? _]; [done|congruence].
    + destruct (Hj [] (a :: w) eq_refl) as [_ H2]; [done|].
      by rewrite E, is_prefix_app in H2.
  - destruct r as [|c r]; [done|].
    rewrite replace_vars_nomatch by (by rewrite match_var_one, En).
    simpl. destruct (Ascii.eqb a c); [|done].
    apply IH. by apply (never_joins_suffix [a]).
Qed.

Lemma is_prefix_app_replace_one (n pre r : cstring) :
  never_joins n value ->
  is_prefix n (pre ++ replace_vars [(name, value)] 0 r) = true ->
  is_prefix n (pre ++ r) = true.
Proof.
  intros Hj E. apply is_prefix_app_inv in E as [E|(n2 & -> & _ & E)].
  - by apply is_prefix_app_r.
  - apply is_prefix_app_both, is_prefix_replace_one; [|done].
    by apply (never_joins_suffix pre).
Qed.

Context (vars : list (cstring * cstring)).
Context (Hname_head : exists body, name = "$"%char :: body).
Context (Hvalue_dollar : "$"%char ∉ value).
Context (Hvars_head : forall n v, (n, v) ∈ vars ->
  exists body, n = "$"%char :: body /\ "$"%char ∉ body).
Context (Hvars_joins : forall n v, (n, v) ∈ vars -> never_joins n value).

Lemma match_var_replace_one (pre r : cstring) :
  match match_var vars (pre ++ r) with
  | Some (n, _) => is_prefix n pre = true
  | None => True
  end ->
  match_var vars (pre ++ replace_vars [(name, value)] 0 r) =
  match_var vars (pre ++ r).
Proof.
  unfold match_var. revert Hvars_joins. clear Hvars_head.
  induction vars as [|[n v] l IH]; intros Hj; [done|]. simpl.
  destruct (is_prefix n (pre ++ r)) eqn:E.
  - intros H. by rewrite (is_prefix_app_r _ _ _ H).
  - intros H.
    destruct (is_prefix n (pre ++ replace_vars [(name, value)] 0 r)) eqn:E'.
    + apply is_prefix_app_replace_one in E'; [congruence|].
      apply (Hj n v). by left.
    + apply IH; [|done]. intros n' v' ?. apply (Hj n' v'). by right.
Qed.

(** The pass for [vars] after the pass for one more variable is the single
    pass for all of them. *)
Lemma replace_vars_cons (s : cstring) :
  replace_vars vars 0 (replace_vars [(name, value)] 0 s) =
  replace_vars ((name, value) :: vars) 0 s.
Proof.
  assert (forall n v, (n, v) ∈ vars -> exists body, n = "$"%char :: body)
    as Hhead by (intros n v Hin; destruct (Hvars_head n v Hin) as (b & -> & _);
                 by exists b).
  assert (forall n v, (n, v) ∈ [(name, value)] -> exists body, n = "$"%char :: body)
    as Hhead1 by (intros n v [= -> ->]%list_elem_of_singleton; done).
  remember (length s) as k eqn:Hk. revert s Hk.
  induction k as [k IH] using lt_wf_ind. intros s ->.
  destruct (is_prefix name s) eqn:En.
  - apply is_prefix_true in En. rewrite En at 1 2.
    rewrite replace_one_name by done.
    rewrite (replace_vars_no_dollar vars) by done.
    rewrite (replace_vars_match _ (name ++ _) name value).
    + rewrite drop_app_length. f_equal. eapply IH; [|done].
      rewrite En at 2. rewrite length_app. destruct name; [done|simpl; lia].
    + unfold match_var. simpl. by rewrite is_prefix_app.
    + done.
  - destruct s as [|c s]; [done|].
    rewrite (replace_vars_nomatch [(name, value)])
      by (by rewrite match_var_one, En).
    assert (match_var ((name, value) :: vars) (c :: s) = match_var vars (c :: s))
      as Hm by (unfold match_var; simpl in *; by rewrite En).
    destruct (match_var vars (c :: s)) as [[n v]|] eqn:Ev.
    + destruct (match_var_Some _ _ _ _ Ev) as [Hin Hp].
      destruct (Hvars_head _ _ Hin) as (body & -> & Hbody).
      rewrite (replace_vars_match _ _ _ _ Hm) by done.
      apply is_prefix_true in Hp. simpl in Hp.
      injection Hp as -> Hs. set (r := drop (length body) s) in *.
      rewrite Hs in *. clear Hs.
      rewrite (replace_vars_no_dollar [(name, value)]) by done.
      pose proof (match_var_replace_one ("$"%char :: body) r) as Hm'.
      simpl in Hm'. rewrite Ev in Hm'.
      rewrite (replace_vars_match vars _ ("$"%char :: body) v); [| |done].
      * simpl. rewrite !drop_app_length. f_equal. eapply IH; [|done].
        simpl. rewrite length_app. lia.
      * apply Hm'. apply is_prefix_iff. done.
    + rewrite (replace_vars_nomatch _ _ _ Hm).
      pose proof (match_var_replace_one [c] s) as Hm'.
      simpl in Hm'. rewrite Ev in Hm'.
      rewrite replace_vars_nomatch by (by apply Hm').
      f_equal. eapply IH; [|done]. simpl; lia.
Qed.
End one_after_another.

(** ** The three variable names and the values printed for them *)

Lemma var_names_shape (n : cstring) :
  n ∈ var_names ->
  exists body init,
    n = "$"%char :: body /\ ("$"%char ∉ body) /\ n = init ++ ["}"%char]
    /\ Forall (fun c => is_index_char c = false) n.
Proof.
  assert (forall body : cstring, forallb (fun c => negb (Ascii.eqb "$" c)) body = true ->
    "$"%char ∉ body) as Hnot.
  { intros body Hb Hin%list_elem_of_In. rewrite forallb_forall in Hb.
    specialize (Hb _ Hin). by rewrite Ascii.eqb_refl in Hb. }
  unfold var_names. rewrite !elem_of_cons, elem_of_nil.
  intros [->|[->|[->|[]]]].
  - exists (cstr "{USER}"), (cstr "${USER").
    split; [done|]. split; [by apply Hnot|]. split; [done|]. by repeat constructor.
  - exists (cstr "{PID}"), (cstr "${PID").
    split; [done|]. split; [by apply Hnot|]. split; [done|]. by repeat constructor.
  - exists (cstr "{IDX}"), (cstr "${IDX").
    split; [done|]. split; [by apply Hnot|]. split; [done|]. by repeat constructor.
Qed.

Lemma strstr_None_not_part (n v : cstring) :
  v <> [] -> strstr n v = None -> forall a b, n <> a ++ v ++ b.
Proof.
  intros Hv [Hfree _]%strstr_None a b ->.
  apply free_until_app in Hfree as [_ Hfree].
  destruct v as [|c v]; [done|]. destruct Hfree as [Hc _].
  pose proof (is_prefix_app (c :: v) b) as Hp.
  rewrite app_nil_r in Hc. simpl in *. congruence.
Qed.

Lemma safe_value_spec (v : cstring) :
  safe_value v = true ->
  v <> [] /\ ("$"%char ∉ v) /\ ("}"%char ∉ v) /\
  forall n, n ∈ var_names -> forall a b, n <> a ++ v ++ b.
Proof.
  unfold safe_value. rewrite !andb_true_iff, !forallb_forall.
  intros [[Hne Hch] Hnames].
  assert (v <> []) as Hv by (by destruct v).
  repeat split; [done|..].
  - intros Hin%list_elem_of_In%Hch. by apply andb_true_iff in Hin as [? _].
  - intros Hin%list_elem_of_In%Hch. by apply andb_true_iff in Hin as [_ ?].
  - intros n Hn%list_elem_of_In%Hnames. apply strstr_None_not_part; [done|].
    by destruct (strstr n v).
Qed.

Lemma safe_value_free (v n pre post : cstring) :
  safe_value v = true -> n ∈ var_names ->
  free_until n pre (n ++ post) -> free_until n (pre ++ v) post.
Proof.
  intros (Hne & Hd & Hb & Hpart)%safe_value_spec Hn.
  destruct (var_names_shape n Hn) as (body & init & -> & _ & Hlast & _).
  apply (safe_free_until v Hd Hb body init); [done|]. by apply Hpart.
Qed.

Lemma safe_value_never_joins (v n : cstring) :
  safe_value v = true -> n ∈ var_names -> never_joins n v.
Proof.
  intros (Hne & Hd & Hb & Hpart)%safe_value_spec Hn.
  destruct (var_names_shape n Hn) as (body & init & _ & _ & -> & _).
  apply safe_never_joins; [done|]. by apply Hpart.
Qed.

Lemma index_chars_safe (v : cstring) :
  v <> [] -> Forall (fun c => is_index_char c = true) v -> safe_value v = true.
Proof.
  intros Hne Hv. unfold safe_value. rewrite !andb_true_iff, !forallb_forall.
  repeat split.
  - by destruct v.
  - intros c Hc%list_elem_of_In. rewrite Forall_forall in Hv. specialize (Hv c Hc).
    destruct (Ascii.eqb_spec c "$") as [->|]; [done|].
    by destruct (Ascii.eqb_spec c "}") as [->|].
  - intros n Hn%list_elem_of_In.
    destruct (strstr n v) as [d|] eqn:E; [|done].
    apply strstr_Some in E as (a & b & -> & _ & Hp & _).
    destruct (var_names_shape _ Hn) as (_ & _ & _ & _ & _ & Hnot).
    destruct v as [|c v]; [done|].
    apply Forall_app in Hnot as [_ Hnot]. rewrite Forall_forall in Hnot.
    apply Forall_cons in Hv as [Hc _].
    rewrite (Hnot c) in Hc; [done|].
    apply (is_prefix_elem_of _ _ _ Hp). by left.
Qed.

Lemma string_of_uint_chars (d : Decimal.uint) :
  Forall (fun c => is_index_char c = true) (cstr (NilEmpty.string_of_uint d)).
Proof. induction d; simpl; by constructor. Qed.

Lemma fmt_d_chars (z : Z) :
  fmt_d z <> [] /\ Forall (fun c => is_index_char c = true) (fmt_d z).
Proof.
  unfold fmt_d, NilZero.string_of_int, NilZero.string_of_uint.
  destruct (Z.to_int z) as [d|d]; destruct d; simpl;
    (split; [done | repeat constructor; apply string_of_uint_chars]).
Qed.

Lemma fmt_u_chars (z : Z) :
  fmt_u z <> [] /\ Forall (fun c => is_index_char c = true) (fmt_u z).
Proof.
  unfold fmt_u, NilZero.string_of_uint.
  destruct (N.to_uint (Z.to_N z)); simpl;
    (split; [done | repeat constructor; apply string_of_uint_chars]).
Qed.

Lemma fmt_u_safe (z : Z) : safe_value (fmt_u z) = true.
Proof. apply index_chars_safe; apply fmt_u_chars. Qed.

Lemma fmt_d_safe (z : Z) : safe_value (fmt_d z) = true.
Proof. apply index_chars_safe; apply fmt_d_chars. Qed.

(** The index as [FileLoggerGetPath] prints it into its buffer. *)
Lemma indexStr_safe (z : Z) : safe_value (g_snprintf 11 (fmt_d z)) = true.
Proof.
  destruct (fmt_d_chars z) as [Hne Hch]. apply index_chars_safe.
  - unfold g_snprintf. by destruct (fmt_d z).
  - by apply Forall_take.
Qed.

(** ** The whole expansion *)

(** Induction along the scan of one pass. *)
Lemma one_var_ind (c0 : ascii) (body : cstring) (P : cstring -> Prop) :
  P [] ->
  (forall r, P r -> P ((c0 :: body) ++ r)) ->
  (forall c r, is_prefix (c0 :: body) (c :: r) = false -> P r -> P (c :: r)) ->
  forall s, P s.
Proof.
  intros Hnil Hocc Hchar s.
  remember (length s) as k eqn:Hk. revert s Hk.
  induction k as [k IH] using lt_wf_ind. intros s ->.
  destruct (is_prefix (c0 :: body) s) eqn:E.
  - apply is_prefix_true in E. rewrite E. apply Hocc. eapply IH; [|done].
    rewrite E at 2. rewrite length_app. simpl; lia.
  - destruct s as [|c s]; [done|]. apply Hchar; [done|].
    eapply IH; [|done]. simpl; lia.
Qed.

Lemma dollars_app (a b : cstring) : dollars (a ++ b) = (dollars a + dollars b)%nat.
Proof. unfold dollars. by rewrite filter_app, length_app. Qed.

Lemma dollars_none (v : cstring) : "$"%char ∉ v -> dollars v = 0%nat.
Proof.
  unfold dollars. induction v as [|c v IH]; [done|].
  intros [? ?]%not_elem_of_cons. rewrite filter_cons_False by done. by apply IH.
Qed.

Lemma dollars_le_length (s : cstring) : (dollars s <= length s)%nat.
Proof. apply length_filter. Qed.

Section one_pass_dollars.
Context (body value : cstring).
Local Abbreviation name := ("$"%char :: body).

Lemma count_vars_le_dollars (s : cstring) :
  (count_vars [(name, value)] 0 s <= dollars s)%nat.
Proof.
  induction s as [|r IH|c r E IH] using (one_var_ind "$" body); [done|..].
  - rewrite count_one_name, dollars_app by done.
    assert (1 <= dollars name)%nat; [|lia].
    unfold dollars. rewrite filter_cons_True by done. simpl. lia.
  - rewrite count_vars_nomatch by (by rewrite match_var_one, E).
    change (c :: r) with ([c] ++ r). rewrite dollars_app. lia.
Qed.

Lemma dollars_replace_one (s : cstring) :
  "$"%char ∉ value ->
  (dollars (replace_vars [(name, value)] 0 s) <= dollars s)%nat.
Proof.
  intros Hv.
  induction s as [|r IH|c r E IH] using (one_var_ind "$" body); [done|..].
  - rewrite replace_one_name, !dollars_app, dollars_none by done. lia.
  - rewrite replace_vars_nomatch by (by rewrite match_var_one, E).
    change (c :: ?x) with ([c] ++ x). rewrite !dollars_app. lia.
Qed.

(** The number of replacements does not depend on the value. *)
Lemma count_vars_value (value' : cstring) (s : cstring) :
  count_vars [(name, value)] 0 s = count_vars [(name, value')] 0 s.
Proof.
  induction s as [|r IH|c r E IH] using (one_var_ind "$" body); [done|..].
  - by rewrite !count_one_name, IH.
  - by rewrite !count_vars_nomatch by (by rewrite match_var_one, E).
Qed.
End one_pass_dollars.

(** One loop of [FileLoggerGetPath] for a variable name and a safe value. *)
Lemma subst_var_pass (fuel i : nat) (n v s : cstring) (hasIndex : bool) :
  n ∈ var_names -> safe_value v = true ->
  subst_var fuel i n v s 0 hasIndex =
  if (fuel <? count_vars [(n, v)] 0 s)%nat then OutOfFuel
  else Ok (replace_vars [(n, v)] 0 s,
           hasIndex || (Nat.eqb i 4 && (0 <? count_vars [(n, v)] 0 s)%nat)).
Proof.
  intros Hn Hv.
  destruct (var_names_shape n Hn) as (body & _ & -> & _).
  apply (subst_var_spec ("$"%char :: body) v ltac:(done)
           ltac:(intros; by apply safe_value_free) fuel i [] s 0 hasIndex);
    [simpl; lia | done].
Qed.

Lemma count_vars_var_le_dollars (n v s : cstring) :
  n ∈ var_names -> (count_vars [(n, v)] 0 s <= dollars s)%nat.
Proof.
  intros Hn. destruct (var_names_shape n Hn) as (body & _ & -> & _).
  apply count_vars_le_dollars.
Qed.

Lemma dollars_replace_var (n v s : cstring) :
  n ∈ var_names -> safe_value v = true ->
  (dollars (replace_vars [(n, v)] 0 s) <= dollars s)%nat.
Proof.
  intros Hn (_ & Hd & _)%safe_value_spec.
  destruct (var_names_shape n Hn) as (body & _ & -> & _).
  by apply dollars_replace_one.
Qed.

Lemma VAR_USER_name : VAR_USER ∈ var_names.
Proof. unfold var_names. set_solver. Qed.
Lemma VAR_PID_name : VAR_PID ∈ var_names.
Proof. unfold var_names. set_solver. Qed.
Lemma VAR_IDX_name : VAR_IDX ∈ var_names.
Proof. unfold var_names. set_solver. Qed.

(** A pass for a safe value leaves a text without [n] without [n]. *)
Lemma free_until_replace_var (name v n s : cstring) :
  name ∈ var_names -> n ∈ var_names -> safe_value v = true ->
  free_until n s [] -> free_until n (replace_vars [(name, v)] 0 s) [].
Proof.
  intros Hname Hn Hv.
  pose proof (safe_value_never_joins v n Hv Hn) as Hj.
  destruct (safe_value_spec v Hv) as (Hne & Hd & _).
  destruct (var_names_shape n Hn) as (nbody & _ & -> & _).
  destruct (var_names_shape name Hname) as (body & _ & -> & _).
  induction s as [|r IH|c r E IH] using (one_var_ind "$" body); [done|..].
  - rewrite replace_one_name by done. intros [_ Hr]%free_until_app.
    apply free_until_app. split; [by apply free_until_no_head | by apply IH].
  - rewrite replace_vars_nomatch by (by rewrite match_var_one, E).
    intros [Hc Hr]. split; [|by apply IH].
    destruct (is_prefix _ ((c :: replace_vars _ 0 r) ++ [])) eqn:E'; [|done].
    rewrite app_nil_r in *.
    apply (is_prefix_app_replace_one ("$"%char :: body) v ltac:(done) _ [c] r Hj)
      in E'.
    simpl in *. congruence.
Qed.

Lemma subst_var_flag (fuel i : nat) (n v s : cstring) (last : nat) (h : bool)
    (s' : cstring) (h' : bool) :
  i <> 4%nat -> subst_var fuel i n v s last h = Ok (s', h') -> h' = h.
Proof.
  intros Hi. revert s last.
  induction fuel as [|fuel IH]; intros s last; simpl.
  - destruct (strstr (drop last s) n); [done|]. by intros [= _ ->].
  - destruct (strstr (drop last s) n); [|by intros [= _ ->]].
    apply Nat.eqb_neq in Hi. rewrite Hi. apply IH.
Qed.

Lemma users_pid_flag (fuel : nat) (env : process_env) (s s2 : cstring) (h h2 : bool) :
  expand_vars fuel (user_pid_vars env) 0 s h = Ok (s2, h2) -> h2 = h.
Proof.
  unfold user_pid_vars. simpl.
  destruct (subst_var fuel 0 _ _ s 0 h) as [[s1 h1]| |] eqn:E1; try done. simpl.
  destruct (subst_var fuel 2 _ _ s1 0 h1) as [[s2' h2']| |] eqn:E2; try done. simpl.
  intros [= <- <-].
  apply subst_var_flag in E1, E2; [congruence|done..].
Qed.

(** [FileLoggerGetPath] makes the [${USER}] and [${PID}] replacements, which
    are the same for every index, and then the [${IDX}] ones. *)
Lemma FileLoggerGetPath_split (fuel : nat) (env : process_env) (template : cstring)
    (index : Z) :
  FileLoggerGetPath fuel env template index =
  '(s2, h2) ← expand_vars fuel (user_pid_vars env) 0 template false;
  '(s3, h3) ← subst_var fuel 4 VAR_IDX (g_snprintf 11 (fmt_d index)) s2 0 h2;
  if negb (index =? 0) && negb h3 then Ok (add_index s3 index) else Ok s3.
Proof.
  unfold FileLoggerGetPath, user_pid_vars. simpl.
  destruct (subst_var fuel 0 _ _ template 0 false) as [[s1 h1]| |]; try done. simpl.
  destruct (subst_var fuel 2 _ _ s1 0 h1) as [[s2 h2]| |]; try done. simpl.
  by destruct (subst_var fuel 4 _ _ s2 0 h2) as [[s3 h3]| |].
Qed.

(** The result for any index once the first two variables are replaced. *)
Lemma FileLoggerGetPath_index (fuel : nat) (env : process_env)
    (template s2 : cstring) (h2 : bool) (index : Z) :
  expand_vars fuel (user_pid_vars env) 0 template false = Ok (s2, h2) ->
  let indexStr := g_snprintf 11 (fmt_d index) in
  FileLoggerGetPath fuel env template index =
  if (fuel <? count_vars [(VAR_IDX, indexStr)] 0 s2)%nat then OutOfFuel
  else
    let s3 := replace_vars [(VAR_IDX, indexStr)] 0 s2 in
    Ok (if negb (index =? 0) && Nat.eqb (count_vars [(VAR_IDX, indexStr)] 0 s2) 0
        then add_index s3 index else s3).
Proof.
  intros E indexStr. rewrite FileLoggerGetPath_split, E. simpl.
  apply users_pid_flag in E as ->.
  fold indexStr.
  rewrite (subst_var_pass fuel 4 VAR_IDX indexStr s2 false VAR_IDX_name
             (indexStr_safe index)).
  destruct (fuel <? _)%nat; [done|]. simpl.
  by destruct (count_vars _ 0 s2), (index =? 0).
Qed.

Lemma user_pid_vars_passes (env : process_env) (s : cstring) :
  safe_value (user_name env) = true ->
  replace_vars (user_pid_vars env) 0 s =
  replace_vars [(VAR_PID, fmt_u (to_guint (pid env)))] 0
    (replace_vars [(VAR_USER, user_name env)] 0 s).
Proof.
  intros Hu. symmetry. destruct (safe_value_spec _ Hu) as (_ & Hd & _).
  apply replace_vars_cons; [done|by exists (cstr "{USER}")|done|..].
  - intros n v [= -> ->]%list_elem_of_singleton.
    destruct (var_names_shape _ VAR_PID_name) as (b & _ & -> & ? & _). by exists b.
  - intros n v [= -> ->]%list_elem_of_singleton.
    apply safe_value_never_joins; [done|apply VAR_PID_name].
Qed.

(** With a safe user name the first two loops end and make the replacements
    of a single pass. *)
Lemma expand_user_pid (fuel : nat) (env : process_env) (template : cstring) :
  safe_value (user_name env) = true -> (dollars template <= fuel)%nat ->
  expand_vars fuel (user_pid_vars env) 0 template false =
  Ok (replace_vars (user_pid_vars env) 0 template, false).
Proof.
  intros Hu Hfuel. rewrite user_pid_vars_passes by done.
  unfold user_pid_vars. simpl.
  rewrite (subst_var_pass fuel 0 VAR_USER _ template false VAR_USER_name Hu).
  pose proof (count_vars_var_le_dollars VAR_USER (user_name env) template
                VAR_USER_name) as Hc1.
  destruct (Nat.ltb_spec fuel (count_vars [(VAR_USER, user_name env)] 0 template));
    [lia|]. simpl.
  set (s1 := replace_vars [(VAR_USER, user_name env)] 0 template).
  rewrite (subst_var_pass fuel 2 VAR_PID _ s1 false VAR_PID_name (fmt_u_safe _)).
  pose proof (count_vars_var_le_dollars VAR_PID (fmt_u (to_guint (pid env))) s1
                VAR_PID_name) as Hc2.
  pose proof (dollars_replace_var VAR_USER (user_name env) template VAR_USER_name Hu)
    as Hd1.
  fold s1 in Hd1.
  destruct (Nat.ltb_spec fuel (count_vars [(VAR_PID, fmt_u (to_guint (pid env)))] 0 s1));
    [lia|]. done.
Qed.

(** The single pass over all three variables is the three passes in turn. *)
Lemma three_passes (env : process_env) (v s : cstring) :
  safe_value (user_name env) = true -> safe_value v = true ->
  replace_vars [(VAR_IDX, v)] 0 (replace_vars (user_pid_vars env) 0 s) =
  replace_vars (user_pid_vars env ++ [(VAR_IDX, v)]) 0 s.
Proof.
  intros Hu Hv. rewrite user_pid_vars_passes by done.
  destruct (safe_value_spec _ Hu) as (_ & Hd & _).
  destruct (safe_value_spec _ (fmt_u_safe (to_guint (pid env)))) as (_ & Hdp & _).
  unfold user_pid_vars. simpl.
  set (p := fmt_u (to_guint (pid env))) in *.
  assert (forall x, replace_vars [(VAR_IDX, v)] 0 (replace_vars [(VAR_PID, p)] 0 x) =
                    replace_vars [(VAR_PID, p); (VAR_IDX, v)] 0 x) as H1.
  { intros x. apply replace_vars_cons; [done|by exists (cstr "{PID}")|done|..].
    - intros n v' [= -> ->]%list_elem_of_singleton.
      destruct (var_names_shape _ VAR_IDX_name) as (b & _ & -> & ? & _). by exists b.
    - intros n v' [= -> ->]%list_elem_of_singleton.
      apply safe_value_never_joins; [apply fmt_u_safe|apply VAR_IDX_name]. }
  rewrite H1.
  apply replace_vars_cons; [done|by exists (cstr "{USER}")|done|..].
  - intros n v' [[= -> ->]|[= -> ->]%list_elem_of_singleton]%elem_of_cons.
    + destruct (var_names_shape _ VAR_PID_name) as (b & _ & -> & ? & _). by exists b.
    + destruct (var_names_shape _ VAR_IDX_name) as (b & _ & -> & ? & _). by exists b.
  - intros n v' [[= -> ->]|[= -> ->]%list_elem_of_singleton]%elem_of_cons.
    + apply safe_value_never_joins; [done|apply VAR_PID_name].
    + apply safe_value_never_joins; [done|apply VAR_IDX_name].
Qed.

(** ** The index suffix *)

Lemma strrchr_None (s : cstring) (c : ascii) : strrchr s c = None <-> c ∉ s.
Proof.
  induction s as [|a s IH]; simpl.
  - split; [intros _; apply not_elem_of_nil | done].
  - rewrite not_elem_of_cons, <- IH.
    destruct (strrchr s c); [by split; [|intros [_ ?]]|].
    destruct (Ascii.eqb_spec a c) as [->|]; [by split; [|intros [? _]]|].
    split; [by split; [congruence|]|done].
Qed.

Lemma strrchr_Some (s : cstring) (c : ascii) (i : nat) :
  strrchr s c = Some i <->
  exists a b, s = a ++ c :: b /\ length a = i /\ c ∉ b.
Proof.
  split.
  - revert i; induction s as [|x s IH]; intros i; simpl; [done|].
    destruct (strrchr s c) as [j|] eqn:E.
    + intros [= <-]. destruct (IH j eq_refl) as (a & b & -> & <- & ?).
      by exists (x :: a), b.
    + destruct (Ascii.eqb_spec x c) as [->|]; [|done].
      intros [= <-]. exists [], s. by rewrite <- strrchr_None.
  - intros (a & b & -> & <- & Hb). induction a as [|x a IH]; simpl.
    + apply strrchr_None in Hb. by rewrite Hb, Ascii.eqb_refl.
    + by rewrite IH.
Qed.

(** Positions of two different characters, the second not occurring behind
    the first. *)
Lemma last_pos_lt (a b a' b' : cstring) (c d : ascii) :
  a ++ c :: b = a' ++ d :: b' -> c <> d -> d ∉ b ->
  (length a' < length a)%nat.
Proof.
  intros Heq Hcd Hd.
  assert ((a ++ c :: b) !! length a' = Some d) as Hl
    by (rewrite Heq; apply list_lookup_middle; done).
  destruct (Nat.lt_total (length a') (length a)) as [?|[E|?]]; [done|..].
  - rewrite E, list_lookup_middle in Hl by done. congruence.
  - rewrite lookup_app_r, lookup_cons_ne_0 in Hl by lia.
    apply list_elem_of_lookup_2 in Hl. done.
Qed.

Lemma last_pos_gt (a b a' b' : cstring) (c d : ascii) :
  a ++ c :: b = a' ++ d :: b' -> d ∈ b -> d ∉ b' ->
  (length a < length a')%nat.
Proof.
  intros Heq [k Hk]%list_elem_of_lookup_1 Hd.
  assert ((a' ++ d :: b') !! (length a + S k)%nat = Some d) as Hl.
  { rewrite <- Heq, lookup_app_r by lia.
    by replace (length a + S k - length a)%nat with (S k) by lia. }
  destruct (Nat.le_gt_cases (length a + S k) (length a')) as [?|?]; [lia|].
  rewrite lookup_app_r, lookup_cons_ne_0 in Hl by lia.
  apply list_elem_of_lookup_2 in Hl. done.
Qed.

Lemma add_index_ext (base ext : cstring) (index : Z) :
  "."%char ∉ ext -> "/"%char ∉ ext -> ("/"%char ∈ base \/ "\"%char ∉ ext) ->
  add_index (base ++ "."%char :: ext) index =
  base ++ cstr "." ++ fmt_d index ++ cstr "." ++ ext.
Proof.
  intros Hdot Hslash Hback. unfold add_index.
  assert (strrchr (base ++ "."%char :: ext) "." = Some (length base)) as ->
    by (apply strrchr_Some; by exists base, ext).
  replace (drop (S (length base)) (base ++ "."%char :: ext)) with ext.
  2: { replace (S (length base)) with (length base + 1)%nat by lia.
       by rewrite (drop_app_add base). }
  rewrite take_app_length.
  destruct (strrchr _ "/") as [j|] eqn:Ej.
  - apply strrchr_Some in Ej as (a' & b' & Heq & <- & _).
    apply last_pos_lt in Heq; [|done..].
    by apply Nat.ltb_lt in Heq as ->.
  - destruct (strrchr _ "\") as [j|] eqn:Eb; [|done].
    apply strrchr_None in Ej. destruct Hback as [?|Hback].
    { destruct Ej. apply elem_of_app. by left. }
    apply strrchr_Some in Eb as (a' & b' & Heq & <- & _).
    apply last_pos_lt in Heq; [|done..].
    by apply Nat.ltb_lt in Heq as ->.
Qed.

Lemma add_index_noext (s : cstring) (index : Z) :
  (forall base ext, s = base ++ "."%char :: ext -> "."%char ∉ ext ->
     ("/"%char ∈ ext) \/ (("/"%char ∉ base) /\ ("\"%char ∈ ext))) ->
  add_index s index = s ++ cstr "." ++ fmt_d index.
Proof.
  intros H. unfold add_index.
  destruct (strrchr s ".") as [i|] eqn:Ei; [|done].
  apply strrchr_Some in Ei as (base & ext & -> & <- & Hdot).
  specialize (H base ext eq_refl Hdot).
  assert (forall d j, d <> "."%char -> d ∈ ext ->
            strrchr (base ++ "."%char :: ext) d = Some j ->
            Nat.ltb j (length base) = false) as Hgt.
  { intros d j Hd Hin (a' & b' & Heq & <- & Hb')%strrchr_Some.
    apply last_pos_gt in Heq; [|done..]. apply Nat.ltb_ge. lia. }
  destruct (strrchr _ "/") as [j|] eqn:Ej.
  - rewrite (Hgt "/"%char j); [done|done| |done].
    destruct H as [?|[Hbase ?]]; [done|].
    apply strrchr_Some in Ej as (a' & b' & Heq & _ & _).
    assert ("/"%char ∈ base ++ "."%char :: ext) as Hin
      by (rewrite Heq; set_solver).
    apply elem_of_app in Hin as [?|[?|?]%elem_of_cons]; done.
  - apply strrchr_None in Ej.
    destruct H as [?|[_ Hext]]; [destruct Ej; set_solver|].
    destruct (strrchr _ "\") as [j|] eqn:Eb.
    + by rewrite (Hgt "\"%char j).
    + apply strrchr_None in Eb. destruct Eb. set_solver.
Qed.

(** On a path that does not have both kinds of separator the code's rule
    and the rule of the specification agree. *)
Lemma add_index_unmixed (s : cstring) (index : Z) :
  ("/"%char ∉ s) \/ ("\"%char ∉ s) ->
  add_index s index = spec_add_index s index.
Proof.
  unfold add_index, spec_add_index, last_separator.
  intros [H|H]; apply strrchr_None in H; rewrite H; [done|].
  by destruct (strrchr s "/").
Qed.

(** ** The expansion of a template *)

(** With a safe user name [FileLoggerGetPath] ends and returns the template
    with the variables replaced in one pass; a template that had no
    [${IDX}] gets the index suffix unless the index is 0. *)
Lemma FileLoggerGetPath_spec (fuel : nat) (env : process_env) (template : cstring)
    (index : Z) :
  safe_value (user_name env) = true -> (dollars template <= fuel)%nat ->
  let indexStr := g_snprintf 11 (fmt_d index) in
  let s2 := replace_vars (user_pid_vars env) 0 template in
  let s3 := replace_vars (user_pid_vars env ++ [(VAR_IDX, indexStr)]) 0 template in
  FileLoggerGetPath fuel env template index =
  Ok (if negb (index =? 0) && Nat.eqb (count_vars [(VAR_IDX, indexStr)] 0 s2) 0
      then add_index s3 index else s3).
Proof.
  intros Hu Hfuel indexStr s2 s3.
  rewrite (FileLoggerGetPath_index fuel env template s2 false index)
    by (by apply expand_user_pid).
  fold indexStr. 
  pose proof (count_vars_var_le_dollars VAR_IDX indexStr s2 VAR_IDX_name) as Hc.
  assert (dollars s2 <= dollars template)%nat as Hd.
  { unfold s2. rewrite user_pid_vars_passes by done.
    etrans; [apply dollars_replace_var; [apply VAR_PID_name|apply fmt_u_safe]|].
    by apply dollars_replace_var; [apply VAR_USER_name|]. }
  destruct (Nat.ltb_spec fuel (count_vars [(VAR_IDX, indexStr)] 0 s2)); [lia|].
  simpl. unfold s2, s3. by rewrite three_passes by (done || apply indexStr_safe).
Qed.

(** A template without [${IDX}] has none after the first two variables are
    replaced. *)
Lemma no_IDX_after_user_pid (env : process_env) (template v : cstring) :
  safe_value (user_name env) = true -> strstr template VAR_IDX = None ->
  count_vars [(VAR_IDX, v)] 0 (replace_vars (user_pid_vars env) 0 template) = 0%nat
  /\ replace_vars [(VAR_IDX, v)] 0 (replace_vars (user_pid_vars env) 0 template)
     = replace_vars (user_pid_vars env) 0 template.
Proof.
  intros Hu [Hfree _]%strstr_None.
  rewrite user_pid_vars_passes by done.
  apply (free_until_replace_var VAR_USER (user_name env) VAR_IDX)
    in Hfree; [|apply VAR_USER_name|apply VAR_IDX_name|done].
  apply (free_until_replace_var VAR_PID (fmt_u (to_guint (pid env))) VAR_IDX)
    in Hfree; [|apply VAR_PID_name|apply VAR_IDX_name|apply fmt_u_safe].
  destruct (one_var_no_occurrence VAR_IDX v _ Hfree) as [? ?].
  by split.
Qed.

(** C6 (amended): for every template and every user name that is not empty,
    has no ["$"] and no ["}"] and is not a part of a variable name, the
    expansion with index 0 ends and is the template with every occurrence of
    [${USER}], [${PID}] and [${IDX}] replaced, in one pass from left to
    right, by the user name, the process id in decimal and ["0"]. *)
Theorem C6_expansion_index_zero (fuel : nat) (env : process_env) (template : cstring) :
  safe_value (user_name env) = true ->
  (dollars template <= fuel)%nat ->
  FileLoggerGetPath fuel env template 0 = Ok (expand_template env 0 template).
Proof.
  intros Hu Hfuel. by rewrite FileLoggerGetPath_spec.
Qed.

Lemma C6_expansion_index_zero_witness :
  FileLoggerGetPath 3
    {| user_name := cstr "root"; pid := 4242; win32 := false |}
    (cstr "/var/log/vmware-${USER}-${PID}.${IDX}.log") 0
  = Ok (cstr "/var/log/vmware-root-4242.0.log").
Proof.
  apply (C6_expansion_index_zero 3
           {| user_name := cstr "root"; pid := 4242; win32 := false |}
           (cstr "/var/log/vmware-${USER}-${PID}.${IDX}.log")).
  - reflexivity.
  - vm_compute. lia.
Defined.

(** C6 as stated fails: the user name ["ID"] completes [${P] and [}] to a
    [${PID}] that the template does not contain, and the next loop replaces
    it. *)
Lemma C6_counterexample :
  let env := {| user_name := cstr "ID"; pid := 4242; win32 := false |} in
  let template := cstr "${P${USER}}/${PID}.${IDX}" in
  FileLoggerGetPath 3 env template 0 = Ok (cstr "4242/4242.0")
  /\ expand_template env 0 template = cstr "${PID}/4242.0"
  /\ forall fuel, FileLoggerGetPath fuel env template 0
                  <> Ok (expand_template env 0 template).
Proof.
  split; [reflexivity|]. split; [reflexivity|].
  intros [|[|[|fuel]]]; vm_compute; discriminate.
Qed.

(** C5 (amended): for a template without [${IDX}] and a safe user name, let
    [s] be the template with [${USER}] and [${PID}] replaced.  Index 0 gives
    [s].  Any other index is put, between two ["."], before the extension:
    what follows the last ["."], provided that ["."] is behind the last
    ["/"] or, in a path with no ["/"] at all, behind the last ["\"].  When
    there is no such extension, ["."] and the index are added at the end. *)
Theorem C5_index_suffix (fuel : nat) (env : process_env) (template : cstring)
    (index : Z) :
  safe_value (user_name env) = true ->
  strstr template VAR_IDX = None ->
  (dollars template <= fuel)%nat ->
  let s := replace_vars (user_pid_vars env) 0 template in
  exists p,
    FileLoggerGetPath fuel env template index = Ok p /\
    (index = 0 -> p = s) /\
    (index <> 0 ->
     forall base ext, s = base ++ "."%char :: ext ->
       ("."%char ∉ ext) -> ("/"%char ∉ ext) ->
       ("/"%char ∈ base) \/ ("\"%char ∉ ext) ->
       p = base ++ cstr "." ++ fmt_d index ++ cstr "." ++ ext) /\
    (index <> 0 ->
     (forall base ext, s = base ++ "."%char :: ext -> ("."%char ∉ ext) ->
        ("/"%char ∈ ext) \/ (("/"%char ∉ base) /\ ("\"%char ∈ ext))) ->
     p = s ++ cstr "." ++ fmt_d index).
Proof.
  intros Hu Hidx Hfuel s.
  rewrite FileLoggerGetPath_spec by done.
  destruct (no_IDX_after_user_pid env template (g_snprintf 11 (fmt_d index)) Hu Hidx)
    as [Hcount Hrepl].
  rewrite <- three_passes by (done || apply indexStr_safe).
  rewrite Hcount, Hrepl. fold s. simpl. rewrite andb_true_r.
  eexists. split; [done|].
  destruct (Z.eqb_spec index 0) as [->|Hne]; simpl.
  - by repeat split.
  - split; [done|]. split; intros _.
    + intros base ext -> ? ? ?. by apply add_index_ext.
    + apply add_index_noext.
Qed.

Lemma C5_index_suffix_witness :
  let env := {| user_name := cstr "root"; pid := 4242; win32 := false |} in
  exists p,
    FileLoggerGetPath 0 env (cstr "/var/log/app.log") 2 = Ok p /\
    p = cstr "/var/log/app.2.log".
Proof.
  intros env.
  destruct (C5_index_suffix 0 env (cstr "/var/log/app.log") 2)
    as (p & Hp & _ & Hext & _).
  - reflexivity.
  - reflexivity.
  - vm_compute. lia.
  - exists p. split; [exact Hp|].
    apply (Hext ltac:(lia) (cstr "/var/log/app") (cstr "log")).
    + reflexivity.
    + not_in_cstring.
    + not_in_cstring.
    + left. do 4 right. left.
Defined.

(** The two paths the specification gives as examples. *)
Lemma FileLoggerGetPath_examples (env : process_env) :
  FileLoggerGetPath 0 env (cstr "/var/log/app.log") 2 = Ok (cstr "/var/log/app.2.log")
  /\ FileLoggerGetPath 0 env (cstr "/var/log/app") 2 = Ok (cstr "/var/log/app.2")
  /\ FileLoggerGetPath 0 env (cstr "/var/log/app.log") 0 = Ok (cstr "/var/log/app.log").
Proof. by repeat split. Qed.

(** C5 as stated fails on a path with both separators: the ["."] of
    [v1.2] is behind the last ["/"], so the code takes [2\vmsvc] for the
    extension, although a ["\"] follows. *)
Lemma C5_counterexample :
  let env := {| user_name := cstr "root"; pid := 4242; win32 := false |} in
  let template := cstr "C:/tmp/v1.2\vmsvc" in
  strstr template VAR_IDX = None
  /\ spec_add_index template 1 = cstr "C:/tmp/v1.2\vmsvc.1"
  /\ FileLoggerGetPath 0 env template 1 = Ok (cstr "C:/tmp/v1.1.2\vmsvc")
  /\ forall fuel, FileLoggerGetPath fuel env template 1
                  <> Ok (spec_add_index template 1).
Proof.
  repeat split. intros fuel. by destruct fuel.
Qed.

(** ** FileLoggerOpen when the active file does not exist *)

(** C10: when the index-0 path does not exist, [FileLoggerOpen] only tests
    for the path and opens it in the mode the append flag gives: no [stat],
    no renaming or deleting, and [logSize], [append] and the other fields of
    the logger keep their values although a new file is created. *)
Theorem C10_open_without_active_file (fuel : nat) (env : process_env)
    (data : FileLogger) (w : world) (path0 : cstring) :
  FileLoggerGetPath fuel env (path data) 0 = Ok path0 ->
  fs w !! path0 = None ->
  let mode := if append data then mode_a else mode_w in
  exists logfile w',
    FileLoggerOpen fuel env data w = Ok (logfile, data, w') /\
    trace w' = trace w ++ [call_file_test path0 G_FILE_TEST_EXISTS;
                           call_fopen path0 mode] /\
    logfile = (if fopen_denied w path0 then None else Some path0) /\
    fs w' = (if fopen_denied w path0 then fs w
             else <[path0 := RegularFile []]> (fs w)).
Proof.
  intros Hpath Hnone mode. unfold FileLoggerOpen. rewrite Hpath. simpl.
  rewrite Hnone. simpl. unfold g_fopen. simpl. rewrite Hnone. fold mode.
  destruct (fopen_denied w path0); simpl.
  - eexists _, _. split; [done|]. simpl. by rewrite <- (assoc_L (++)).
  - destruct mode; eexists _, _; (split; [done|]); simpl;
      by rewrite <- (assoc_L (++)).
Qed.

Lemma C10_open_without_active_file_witness :
  let env := {| user_name := cstr "root"; pid := 4242; win32 := false |} in
  let data := {| file := None; path := cstr "/var/log/app.log"; logSize := 77;
                 maxSize := 1048576; maxFiles := 2; append := true;
                 error := false |} in
  let w := {| fs := ∅; stat_denied := fun _ => false;
              unlink_denied := fun _ => false;
              rename_denied := fun _ _ => false;
              fopen_denied := fun _ => false; trace := [] |} in
  exists logfile w',
    FileLoggerOpen 0 env data w = Ok (logfile, data, w') /\
    trace w' = [call_file_test (cstr "/var/log/app.log") G_FILE_TEST_EXISTS;
                call_fopen (cstr "/var/log/app.log") mode_a] /\
    logSize data = 77.
Proof.
  intros env data w.
  destruct (C10_open_without_active_file 0 env data w (cstr "/var/log/app.log"))
    as (logfile & w' & Hopen & Htrace & _).
  - reflexivity.
  - reflexivity.
  - exists logfile, w'. split; [exact Hopen|]. split; [exact Htrace|reflexivity].
Defined.

(** ** The error flag *)

(** C7: with the error flag set, any number of calls of [FileLoggerLog]
    leaves the logger, the file system and the list of calls made as they
    were: the flag stays set, no message is written and the file is not
    opened again. *)
Theorem C7_sticky_error (fuel : nat) (env : process_env)
    (msgs : list (cstring * bool)) (logger : FileLogger) (w : world) :
  error logger = true ->
  log_all fuel env msgs logger w = Ok (logger, w).
Proof.
  intros Herr. induction msgs as [|[message ok] msgs IH]; [done|].
  simpl. unfold FileLoggerLog. rewrite Herr. simpl. exact IH.
Qed.

(** A failed open in [FileLoggerLog] sets the flag. *)
Lemma FileLoggerLog_open_failure (fuel : nat) (env : process_env)
    (message : cstring) (ok : bool) (logger logger' : FileLogger) (w w' : world) :
  error logger = false -> file logger = None ->
  FileLoggerOpen fuel env logger w = Ok (None, logger', w') ->
  FileLoggerLog fuel env message ok logger w =
  Ok (set_error (set_file logger' None) true, w').
Proof.
  intros Herr Hfile Hopen. unfold FileLoggerLog.
  by rewrite Herr, Hfile, Hopen.
Qed.

Lemma C7_sticky_error_witness :
  let env := {| user_name := cstr "root"; pid := 4242; win32 := false |} in
  let logger := {| file := None; path := cstr "/nonexistent/app.log"; logSize := 0;
                   maxSize := 0; maxFiles := 2; append := false;
                   error := true |} in
  let w := {| fs := ∅; stat_denied := fun _ => false;
              unlink_denied := fun _ => false;
              rename_denied := fun _ _ => false;
              fopen_denied := fun _ => true; trace := [] |} in
  log_all 0 env [(cstr "first", true); (cstr "second", true)] logger w
  = Ok (logger, w).
Proof.
  intros env logger w.
  apply (C7_sticky_error 0 env [(cstr "first", true); (cstr "second", true)] logger w).
  reflexivity.
Defined.

(** ** GlibUtils_CreateFileLogger *)

(** Below 4096 MB the threshold is the exact product. *)
Lemma CreateFileLogger_maxSize (p : cstring) (a : bool) (maxSize_ maxFiles_ : Z) :
  0 <= maxSize_ < 4096 ->
  maxSize <$> GlibUtils_CreateFileLogger p a maxSize_ maxFiles_
  = Some (maxSize_ * 1048576).
Proof.
  intros H. simpl. f_equal. unfold to_guint.
  rewrite (Z.mod_small (maxSize_ * 1024)) by lia.
  rewrite Z.mod_small by lia. lia.
Qed.

(** In general the product is taken modulo [2 ^ 32]. *)
Lemma CreateFileLogger_maxSize_mod (p : cstring) (a : bool) (maxSize_ maxFiles_ : Z) :
  maxSize <$> GlibUtils_CreateFileLogger p a maxSize_ maxFiles_
  = Some ((maxSize_ * 1048576) mod 2 ^ 32).
Proof.
  simpl. f_equal. unfold to_guint.
  rewrite Z.mul_mod_idemp_l by lia. f_equal. lia.
Qed.

(** C8 fails at 4096 MB: the product [4096 * 1024 * 1024] is computed in
    32 bits and wraps to 0, which [FileLoggerLog] takes for "no limit". *)
Theorem C8_maxSize_wraps_at_4096 :
  maxSize <$> GlibUtils_CreateFileLogger (cstr "/var/log/app.log") true 4096 1
  = Some 0
  /\ 4096 * 1048576 = 4294967296.
Proof. split; reflexivity. Qed.

(** ** Rotation at open *)

(** C1 fails: a logger created with [append = TRUE] and [maxSize = 0] finds
    its active file, compares [logSize >= maxSize] with [maxSize = 0], and
    rotates: the file is renamed to index 1 and a new empty file is opened
    in mode ["w"]. *)
Theorem C1_no_limit_rotates_on_open :
  let env := {| user_name := cstr "root"; pid := 4242; win32 := false |} in
  let active := cstr "/var/log/app.log" in
  let w := {| fs := {[ active := RegularFile (cstr "earlier messages") ]};
              stat_denied := fun _ => false; unlink_denied := fun _ => false;
              rename_denied := fun _ _ => false; fopen_denied := fun _ => false;
              trace := [] |} in
  exists data data' w',
    GlibUtils_CreateFileLogger active true 0 1 = Some data /\
    maxSize data = 0 /\ append data = true /\
    FileLoggerOpen 0 env data w = Ok (Some active, data', w') /\
    append data' = false /\
    fs w' !! active = Some (RegularFile []) /\
    fs w' !! cstr "/var/log/app.1.log" = Some (RegularFile (cstr "earlier messages")) /\
    call_rename active (cstr "/var/log/app.1.log") ∈ trace w' /\
    call_fopen active mode_w ∈ trace w'.
Proof.
  intros env active w. eexists _, _, _.
  split; [reflexivity|]. split; [reflexivity|]. split; [reflexivity|].
  split; [vm_compute; reflexivity|].
  split; [reflexivity|]. split; [reflexivity|]. split; [reflexivity|].
  split; apply list_elem_of_In; vm_compute; tauto.
Qed.


(** ** The calls of FileLoggerOpen *)

Lemma after_calls_refl (w : world) : after_calls w w [].
Proof. unfold after_calls. by rewrite app_nil_r. Qed.

Lemma after_calls_trans (w1 w2 w3 : world) (t1 t2 : list syscall) :
  after_calls w1 w2 t1 -> after_calls w2 w3 t2 -> after_calls w1 w3 (t1 ++ t2).
Proof.
  unfold after_calls. intros (-> & -> & -> & -> & ->) (-> & -> & -> & -> & ->).
  by rewrite (assoc_L (++)).
Qed.

Lemma after_calls_record (w : world) (c : syscall) :
  after_calls w (record_call w c) [c].
Proof. done. Qed.

Lemma g_file_test_calls (w : world) (p : cstring) (t : GFileTest) :
  after_calls w (g_file_test w p t).2 [call_file_test p t]
  /\ fs (g_file_test w p t).2 = fs w.
Proof. done. Qed.

Lemma g_unlink_calls (w : world) (p : cstring) :
  after_calls w (g_unlink w p).2 [call_unlink p].
Proof.
  unfold g_unlink. destruct (fs w !! p) as [[c|sz]|]; try done.
  by destruct (unlink_denied w p).
Qed.

Lemma g_rename_calls (w : world) (src dest : cstring) :
  after_calls w (g_rename w src dest).2 [call_rename src dest].
Proof.
  unfold g_rename. destruct (fs w !! src) as [n|]; [|done].
  destruct (rename_denied w src dest); [done|].
  destruct (bool_decide (src = dest)); [done|].
  by destruct n, (fs w !! dest) as [[?|?]|].
Qed.

Lemma rename_one_calls (w : world) (src dest : cstring) :
  exists t, after_calls w (rename_one w src dest) t
            /\ Forall (fun c => is_shift_call c = true) t.
Proof.
  unfold rename_one.
  destruct (g_file_test w dest G_FILE_TEST_IS_DIR) as [isdir w1] eqn:E1.
  pose proof (g_file_test_calls w dest G_FILE_TEST_IS_DIR) as [H1 _].
  rewrite E1 in H1. simpl in H1. destruct isdir.
  { eexists. split; [eapply after_calls_trans; [done|apply g_unlink_calls]|].
    by repeat constructor. }
  destruct (g_file_test w1 dest G_FILE_TEST_EXISTS) as [ex w2] eqn:E2.
  pose proof (g_file_test_calls w1 dest G_FILE_TEST_EXISTS) as [H2 _].
  rewrite E2 in H2. simpl in H2.
  pose proof (after_calls_trans _ _ _ _ _ H1 H2) as H12. destruct ex; simpl.
  - destruct (g_unlink w2 dest) as [unlinked w3] eqn:E3.
    pose proof (g_unlink_calls w2 dest) as H3. rewrite E3 in H3. simpl in H3.
    pose proof (after_calls_trans _ _ _ _ _ H12 H3) as H123.
    destruct unlinked.
    + eexists. split; [eapply after_calls_trans; [done|apply g_rename_calls]|].
      by repeat constructor.
    + eexists. split; [eapply after_calls_trans; [done|apply g_unlink_calls]|].
      by repeat constructor.
  - eexists. split; [eapply after_calls_trans; [done|apply g_rename_calls]|].
    by repeat constructor.
Qed.

Lemma rename_logs_calls (id : nat) (logfiles : list cstring) (w : world) :
  (id < length logfiles)%nat ->
  exists w' t, rename_logs id logfiles w = Ok w' /\ after_calls w w' t
               /\ Forall (fun c => is_shift_call c = true) t.
Proof.
  revert w; induction id as [|id IH]; intros w Hid; simpl.
  - exists w, []. split; [done|]. split; [apply after_calls_refl|done].
  - destruct (lookup_lt_is_Some_2 logfiles (S id) Hid) as [dest ->].
    destruct (lookup_lt_is_Some_2 logfiles id ltac:(lia)) as [src ->].
    destruct (rename_one_calls w src dest) as (t1 & H1 & Ht1).
    destruct (IH (rename_one w src dest) ltac:(lia)) as (w' & t2 & -> & H2 & Ht2).
    exists w', (t1 ++ t2). split; [done|].
    split; [by eapply after_calls_trans | by apply Forall_app].
Qed.

(** Once [FileLoggerGetPath] has returned for index 0 it returns for every
    index: the number of iterations of its loops is the same. *)
Lemma FileLoggerGetPath_total (fuel : nat) (env : process_env) (template p0 : cstring) :
  FileLoggerGetPath fuel env template 0 = Ok p0 ->
  forall index, exists p, FileLoggerGetPath fuel env template index = Ok p.
Proof.
  intros H0 index.
  destruct (expand_vars fuel (user_pid_vars env) 0 template false)
    as [[s2 h2]| |] eqn:E.
  - rewrite (FileLoggerGetPath_index _ _ _ _ _ 0 E) in H0.
    rewrite (FileLoggerGetPath_index _ _ _ _ _ index E).
    rewrite (count_vars_value (cstr "{IDX}") _ (g_snprintf 11 (fmt_d 0))).
    destruct (fuel <? _)%nat; [done|]. by eexists.
  - by rewrite FileLoggerGetPath_split, E in H0.
  - by rewrite FileLoggerGetPath_split, E in H0.
Qed.

Lemma find_last_log_calls (fuel : nat) (env : process_env) (data : FileLogger)
    (n : nat) (id : Z) (logfiles : list cstring) (w : world) :
  (forall index, exists p, FileLoggerGetPath fuel env (path data) index = Ok p) ->
  exists more w' t,
    find_last_log fuel env data n id logfiles w = Ok (logfiles ++ more, w') /\
    (0 < n -> more <> [])%nat /\
    fs w' = fs w /\ after_calls w w' t /\
    Forall (fun c => is_shift_call c = true) t.
Proof.
  intros Hpath. revert id logfiles w.
  induction n as [|n IH]; intros id logfiles w; simpl.
  - exists [], w, []. rewrite app_nil_r.
    split; [done|]. split; [lia|]. split; [done|]. split; [apply after_calls_refl|done].
  - destruct (Hpath (to_gint id)) as [log ->]. simpl.
    destruct (fs w !! log) as [[c|sz]|] eqn:E.
    2,3: exists [log], (record_call w (call_file_test log G_FILE_TEST_IS_REGULAR)),
           [call_file_test log G_FILE_TEST_IS_REGULAR];
         (split; [done|]); (split; [done|]); (split; [done|]);
         (split; [done|by repeat constructor]).
    destruct (IH (id + 1) (logfiles ++ [log])
                (record_call w (call_file_test log G_FILE_TEST_IS_REGULAR)))
      as (more & w' & t & -> & _ & Hfs & Hcalls & Ht).
    exists (log :: more), w', (call_file_test log G_FILE_TEST_IS_REGULAR :: t).
    rewrite <- (assoc_L (++)). split; [done|]. split; [done|]. split; [done|].
    split; [|by constructor].
    by apply (after_calls_trans _ _ _ [_] t (after_calls_record _ _)).
Qed.

Lemma g_fopen_calls (w : world) (p : cstring) (m : open_mode) :
  after_calls w (g_fopen w p m).2 [call_fopen p m].
Proof.
  unfold g_fopen. destruct (fopen_denied w p); [done|].
  by destruct (fs w !! p) as [[?|?]|], m.
Qed.

(** When the active file exists and is to be replaced, [FileLoggerOpen]
    tests and stats it, runs its two loops once, sets [logSize] to 0 and
    [append] to [FALSE], and opens the path in mode ["w"]. *)
Lemma FileLoggerOpen_rotates (fuel : nat) (env : process_env) (data : FileLogger)
    (w : world) (path0 : cstring) (n : node) :
  FileLoggerGetPath fuel env (path data) 0 = Ok path0 ->
  fs w !! path0 = Some n ->
  let data1 :=
    if stat_denied w path0 then data
    else set_logSize data (to_gint (node_size n)) in
  negb (append data) || size_reached data1 = true ->
  0 < maxFiles data ->
  exists logfile w' shift,
    FileLoggerOpen fuel env data w
    = Ok (logfile, set_append (set_logSize data1 0) false, w') /\
    after_calls w w'
      ([call_file_test path0 G_FILE_TEST_EXISTS; call_stat path0]
       ++ shift ++ [call_fopen path0 mode_w]) /\
    Forall (fun c => is_shift_call c = true) shift.
Proof.
  intros Hpath Hn data1 Hrot Hmax.
  pose proof (FileLoggerGetPath_total _ _ _ _ Hpath) as Htotal.
  unfold FileLoggerOpen. rewrite Hpath. simpl. rewrite Hn. simpl.
  set (w1 := record_call (record_call w _) _).
  assert (after_calls w w1 [call_file_test path0 G_FILE_TEST_EXISTS; call_stat path0])
    as Hw1 by (unfold after_calls; simpl; by rewrite <- (assoc_L (++))).
  assert ((match (if stat_denied w path0 then None else Some (node_size n)) with
           | Some st_size => set_logSize data (to_gint st_size)
           | None => data
           end) = data1) as -> by (unfold data1; by destruct (stat_denied w path0)).
  assert (append data1 = append data) as Happ
    by (unfold data1; by destruct (stat_denied w path0)).
  assert (path data1 = path data /\ maxFiles data1 = maxFiles data) as [Hp1 Hm1]
    by (unfold data1; by destruct (stat_denied w path0)).
  rewrite Happ, Hrot.
  destruct (find_last_log_calls fuel env data1 (Z.to_nat (maxFiles data1)) 0 [] w1)
    as (more & w2 & t2 & -> & Hmore & _ & Hw2 & Ht2).
  { by rewrite Hp1. }
  simpl. specialize (Hmore ltac:(lia)).
  destruct more as [|log more]; [done|]. simpl.
  destruct (rename_logs_calls (length more - 0) (log :: more) w2)
    as (w3 & t3 & -> & Hw3 & Ht3); [simpl; lia|].
  simpl.
  pose proof (g_fopen_calls w3 path0 mode_w) as Hw4.
  destruct (g_fopen w3 path0 mode_w) as [logfile w4]. simpl in Hw4.
  exists logfile, w4, (t2 ++ t3). split; [done|]. split; [|by apply Forall_app].
  pose proof (after_calls_trans _ _ _ _ _ Hw1
                (after_calls_trans _ _ _ _ _ Hw2
                   (after_calls_trans _ _ _ _ _ Hw3 Hw4))) as H.
  by rewrite <- (assoc_L (++) t2 t3).
Qed.

(** ** Size accounting in FileLoggerLog *)

Lemma to_gint_small (z : Z) : - 2 ^ 31 <= z < 2 ^ 31 -> to_gint z = z.
Proof. intros H. unfold to_gint. rewrite Z.mod_small; lia. Qed.

Lemma to_guint64_small (z : Z) : 0 <= z < 2 ^ 64 -> to_guint64 z = z.
Proof. intros H. unfold to_guint64. rewrite Z.mod_small; lia. Qed.

(** The new value of [logSize] when nothing wraps. *)
Lemma logSize_after_message (env : process_env) (logger : FileLogger)
    (message : cstring) :
  0 <= logSize logger ->
  logSize logger + message_cost env message < 2 ^ 31 ->
  (let logger1 :=
     set_logSize logger
       (to_gint (logSize logger + to_gint (Z.of_nat (length message)))) in
   if win32 env then set_logSize logger1 (to_gint (logSize logger1 + 1))
   else logger1)
  = set_logSize logger (logSize logger + message_cost env message).
Proof.
  unfold message_cost. intros H0 H1.
  assert (to_gint (Z.of_nat (length message)) = Z.of_nat (length message)) as Hlen
    by (apply to_gint_small; destruct (win32 env); lia).
  destruct (win32 env); simpl; unfold set_logSize; simpl; f_equal; rewrite Hlen.
  - rewrite (to_gint_small (logSize logger + _)) by lia.
    rewrite to_gint_small by lia. lia.
  - rewrite to_gint_small by lia. lia.
Qed.

(** A successful write that stays below the threshold. *)
Lemma FileLoggerLog_below (fuel : nat) (env : process_env) (message : cstring)
    (logger : FileLogger) (w : world) (h : cstring) :
  file logger = Some h -> error logger = false -> 0 < maxSize logger ->
  0 <= logSize logger ->
  logSize logger + message_cost env message < maxSize logger ->
  logSize logger + message_cost env message < 2 ^ 31 ->
  FileLoggerLog fuel env message true logger w
  = Ok (set_logSize logger (logSize logger + message_cost env message),
        fflush (fputs w message h true) h).
Proof.
  intros Hfile Herr Hmax H0 Hlt Hint. unfold FileLoggerLog.
  rewrite Herr, Hfile. simpl. rewrite Hfile.
  apply Z.ltb_lt in Hmax as ->.
  rewrite logSize_after_message by done.
  unfold size_reached. simpl. unfold message_cost in *.
  rewrite to_guint64_small by (destruct (win32 env); lia).
  destruct (Z.leb_spec (maxSize logger)
              (logSize logger + (Z.of_nat (length message)
                                 + (if win32 env then 1 else 0)))); [lia|done].
Qed.

Lemma message_cost_nonneg (env : process_env) (m : cstring) : 0 <= message_cost env m.
Proof. unfold message_cost. destruct (win32 env); lia. Qed.

Lemma total_cost_nonneg (env : process_env) (msgs : list cstring) :
  0 <= total_cost env msgs.
Proof.
  induction msgs as [|m msgs IH]; simpl; [done|].
  pose proof (message_cost_nonneg env m). lia.
Qed.

(** Successful writes that stay below the threshold: the counter grows by
    the exact sum, each message is written and flushed, and the file grows
    by the messages. *)
Lemma log_all_below (fuel : nat) (env : process_env) (msgs : list cstring)
    (logger : FileLogger) (w : world) (h content : cstring) :
  file logger = Some h -> error logger = false -> 0 < maxSize logger ->
  fs w !! h = Some (RegularFile content) ->
  0 <= logSize logger ->
  logSize logger + total_cost env msgs < maxSize logger ->
  logSize logger + total_cost env msgs < 2 ^ 31 ->
  exists w',
    log_all fuel env (map (fun m => (m, true)) msgs) logger w
    = Ok (set_logSize logger (logSize logger + total_cost env msgs), w') /\
    after_calls w w' (flat_map (fun m => [call_fputs h m; call_fflush h]) msgs) /\
    fs w' !! h = Some (RegularFile (content ++ concat msgs)).
Proof.
  revert logger w content.
  induction msgs as [|m msgs IH]; intros logger w content Hfile Herr Hmax Hfs H0 Hlt Hint.
  - exists w. simpl. rewrite Z.add_0_r, app_nil_r.
    split; [by destruct logger|]. split; [apply after_calls_refl|done].
  - simpl in *.
    pose proof (message_cost_nonneg env m).
    pose proof (total_cost_nonneg env msgs).
    rewrite (FileLoggerLog_below fuel env m logger w h) by (done || lia).
    simpl.
    set (logger1 := set_logSize logger _). set (w1 := fflush _ h).
    assert (fs w1 !! h = Some (RegularFile (content ++ m))) as Hfs1.
    { unfold w1, fflush, fputs. simpl. rewrite Hfs. simpl.
      by rewrite lookup_insert_eq. }
    assert (after_calls w w1 [call_fputs h m; call_fflush h]) as Hw1.
    { unfold w1, fflush, fputs, after_calls. simpl. rewrite Hfs. simpl.
      by rewrite <- (assoc_L (++)). }
    destruct (IH logger1 w1 (content ++ m)) as (w' & -> & Hw' & Hfs');
      [done|done|done|done|simpl; lia|simpl; lia|simpl; lia|].
    exists w'. split; [|split].
    + f_equal. f_equal. unfold logger1, set_logSize. simpl. f_equal. lia.
    + by apply (after_calls_trans _ _ _ [_; _] _ Hw1).
    + by rewrite Hfs', <- (assoc_L (++)).
Qed.

(** A successful write that reaches the threshold: after the message is
    written the file is closed and [FileLoggerOpen] rotates once. *)
Lemma FileLoggerLog_reaches (fuel : nat) (env : process_env) (message : cstring)
    (logger : FileLogger) (w : world) (h content : cstring) :
  file logger = Some h -> error logger = false ->
  0 < maxSize logger -> 0 < maxFiles logger ->
  FileLoggerGetPath fuel env (path logger) 0 = Ok h ->
  fs w !! h = Some (RegularFile content) ->
  0 <= logSize logger ->
  maxSize logger <= logSize logger + message_cost env message < 2 ^ 31 ->
  exists logger' w' shift,
    FileLoggerLog fuel env message true logger w = Ok (logger', w') /\
    logSize logger' = 0 /\ append logger' = false /\
    after_calls w w'
      ([call_fputs h message; call_fclose h;
        call_file_test h G_FILE_TEST_EXISTS; call_stat h]
       ++ shift ++ [call_fopen h mode_w]) /\
    Forall (fun c => is_shift_call c = true) shift.
Proof.
  intros Hfile Herr Hmax Hfiles Hpath Hfs H0 [Hge Hint]. unfold FileLoggerLog.
  rewrite Herr, Hfile. simpl. rewrite Hfile.
  apply Z.ltb_lt in Hmax as ->.
  rewrite logSize_after_message by done.
  set (logger1 := set_logSize logger _).
  assert (size_reached logger1 = true) as ->.
  { unfold size_reached, logger1. simpl.
    pose proof (message_cost_nonneg env message).
    rewrite to_guint64_small by lia. by apply Z.leb_le. }
  rewrite Hfs. set (w1 := fclose _ h).
  assert (after_calls w w1 [call_fputs h message; call_fclose h]) as Hw1.
  { unfold w1, fclose, after_calls. simpl. by rewrite <- (assoc_L (++)). }
  destruct (FileLoggerOpen_rotates fuel env (set_append logger1 false) w1 h
              (RegularFile (content ++ message)))
    as (logfile & w2 & shift & -> & Hw2 & Hshift); [done| |done|done|].
  { unfold w1, fclose. simpl. by rewrite lookup_insert_eq. }
  simpl. eexists _, w2, shift. split; [done|].
  split; [by destruct (stat_denied w1 h)|].
  split; [by destruct (stat_denied w1 h)|]. split; [|done].
  by apply (after_calls_trans _ _ _ [_; _] _ Hw1).
Qed.

(** C4 (amended): on a logger whose file is open, with the active file on
    disk, successful writes whose sizes (one more byte each under
    [_WIN32]) keep the counter below [maxSize] leave [logSize] at its value
    before them plus the exact sum; a further successful write that brings
    it to [maxSize] or above (and below [2 ^ 31]) closes the file, runs the
    rotation of [FileLoggerOpen] exactly once and leaves [logSize] at 0. *)
Theorem C4_size_accounting (fuel : nat) (env : process_env) (logger : FileLogger)
    (w : world) (h content : cstring) (msgs : list cstring) (last_message : cstring) :
  file logger = Some h -> error logger = false ->
  0 < maxSize logger -> 0 < maxFiles logger ->
  FileLoggerGetPath fuel env (path logger) 0 = Ok h ->
  fs w !! h = Some (RegularFile content) ->
  0 <= logSize logger ->
  let below := logSize logger + total_cost env msgs in
  below < maxSize logger ->
  maxSize logger <= below + message_cost env last_message < 2 ^ 31 ->
  exists w1 logger2 w2 shift,
    log_all fuel env (map (fun m => (m, true)) msgs) logger w
    = Ok (set_logSize logger below, w1) /\
    after_calls w w1 (flat_map (fun m => [call_fputs h m; call_fflush h]) msgs) /\
    FileLoggerLog fuel env last_message true (set_logSize logger below) w1
    = Ok (logger2, w2) /\
    logSize logger2 = 0 /\ append logger2 = false /\
    after_calls w1 w2
      ([call_fputs h last_message; call_fclose h;
        call_file_test h G_FILE_TEST_EXISTS; call_stat h]
       ++ shift ++ [call_fopen h mode_w]) /\
    Forall (fun c => is_shift_call c = true) shift.
Proof.
  intros Hfile Herr Hmax Hfiles Hpath Hfs H0 below Hlt [Hge Hint].
  pose proof (message_cost_nonneg env last_message).
  pose proof (total_cost_nonneg env msgs).
  destruct (log_all_below fuel env msgs logger w h content)
    as (w1 & Hlog & Hw1 & Hfs1); [done..|fold below; lia|].
  destruct (FileLoggerLog_reaches fuel env last_message (set_logSize logger below)
              w1 h (content ++ concat msgs))
    as (logger2 & w2 & shift & Hlast & Hsize & Happ & Hw2 & Hshift);
    [done..|simpl; unfold below; lia|simpl; lia|].
  by exists w1, logger2, w2, shift.
Qed.

Lemma C4_size_accounting_witness :
  let env := {| user_name := cstr "root"; pid := 4242; win32 := false |} in
  let h := cstr "/var/log/app.log" in
  let logger := {| file := Some h; path := h; logSize := 0; maxSize := 10;
                   maxFiles := 2; append := false; error := false |} in
  let w := {| fs := {[ h := RegularFile [] ]};
              stat_denied := fun _ => false; unlink_denied := fun _ => false;
              rename_denied := fun _ _ => false; fopen_denied := fun _ => false;
              trace := [] |} in
  exists w1 logger2 w2 shift,
    log_all 0 env [(cstr "abc", true); (cstr "de", true)] logger w
    = Ok (set_logSize logger 5, w1) /\
    after_calls w w1 [call_fputs h (cstr "abc"); call_fflush h;
                      call_fputs h (cstr "de"); call_fflush h] /\
    FileLoggerLog 0 env (cstr "12345") true (set_logSize logger 5) w1
    = Ok (logger2, w2) /\
    logSize logger2 = 0 /\ append logger2 = false /\
    after_calls w1 w2
      ([call_fputs h (cstr "12345"); call_fclose h;
        call_file_test h G_FILE_TEST_EXISTS; call_stat h]
       ++ shift ++ [call_fopen h mode_w]) /\
    Forall (fun c => is_shift_call c = true) shift.
Proof.
  intros env h logger w.
  apply (C4_size_accounting 0 env logger w h [] [cstr "abc"; cstr "de"] (cstr "12345")).
  - reflexivity.
  - reflexivity.
  - reflexivity.
  - reflexivity.
  - reflexivity.
  - reflexivity.
  - simpl. lia.
  - reflexivity.
  - vm_compute. split; [discriminate|reflexivity].
Defined.

(** C4 as stated fails when the logger appends to a file that has content:
    [FileLoggerOpen] sets [logSize] to the size of the file, so after one
    message of 2 bytes the counter is 7, not 2. *)
Lemma C4_counterexample :
  let env := {| user_name := cstr "root"; pid := 4242; win32 := false |} in
  let active := cstr "/var/log/app.log" in
  let w := {| fs := {[ active := RegularFile (cstr "hello") ]};
              stat_denied := fun _ => false; unlink_denied := fun _ => false;
              rename_denied := fun _ _ => false; fopen_denied := fun _ => false;
              trace := [] |} in
  exists logger logger' w',
    GlibUtils_CreateFileLogger active true 1 1 = Some logger /\
    total_cost env [cstr "ab"] = 2 /\ 2 < maxSize logger /\
    log_all 0 env [(cstr "ab", true)] logger w = Ok (logger', w') /\
    logSize logger' = 7 /\
    fs w' !! active = Some (RegularFile (cstr "helloab")).
Proof.
  intros env active w. eexists _, _, _.
  split; [reflexivity|]. split; [reflexivity|]. split; [reflexivity|].
  split; [vm_compute; reflexivity|]. split; reflexivity.
Qed.

(** ** The paths of different indices *)

Lemma fmt_d_inj (i j : Z) : fmt_d i = fmt_d j -> i = j.
Proof.
  assert (forall z, Z.to_int z <> Decimal.Pos Decimal.Nil
                    /\ Z.to_int z <> Decimal.Neg Decimal.Nil) as Hnil.
  { intros [|p|p]; simpl; split; try done;
      intros [= H]; by apply DecimalPos.Unsigned.to_uint_nonnil in H. }
  unfold fmt_d, cstr. intros H.
  apply (f_equal string_of_list_ascii) in H.
  rewrite !string_of_list_ascii_of_string in H.
  apply (f_equal NilZero.int_of_string) in H.
  rewrite !NilZero.isi in H by apply Hnil.
  injection H as H. by apply DecimalZ.to_int_inj.
Qed.

Lemma count_zero_replace (body v s : cstring) :
  count_vars [("$"%char :: body, v)] 0 s = 0%nat ->
  replace_vars [("$"%char :: body, v)] 0 s = s.
Proof.
  induction s as [|r IH|c r E IH] using (one_var_ind "$" body); [done|..].
  - by rewrite count_one_name.
  - rewrite count_vars_nomatch, replace_vars_nomatch
      by (by rewrite match_var_one, E).
    intros H. by rewrite IH.
Qed.

Lemma count_pos_first (body v s : cstring) :
  count_vars [("$"%char :: body, v)] 0 s <> 0%nat ->
  exists a r, s = a ++ ("$"%char :: body) ++ r
              /\ free_until ("$"%char :: body) a (("$"%char :: body) ++ r).
Proof.
  induction s as [|r IH|c r E IH] using (one_var_ind "$" body); [done|..].
  - intros _. by exists [], r.
  - rewrite count_vars_nomatch by (by rewrite match_var_one, E).
    intros (a & r' & -> & Hfree)%IH. by exists (c :: a), r'.
Qed.

Lemma add_index_length (s : cstring) (index : Z) :
  length (add_index s index) = (length s + 1 + length (fmt_d index))%nat.
Proof.
  unfold add_index. destruct (strrchr s ".") as [i|] eqn:E.
  - apply strrchr_Some in E as (a & b & -> & <- & _).
    destruct (match _ with Some j => _ | None => true end).
    + replace (S (length a)) with (length a + 1)%nat by lia.
      rewrite take_app_length, (drop_app_add a). simpl.
      rewrite !length_app. simpl. rewrite !length_app. simpl. rewrite drop_0. lia.
    + rewrite !length_app. simpl. lia.
  - rewrite !length_app. simpl. lia.
Qed.

Lemma add_index_inj (s : cstring) (i j : Z) :
  length (fmt_d i) = length (fmt_d j) ->
  add_index s i = add_index s j -> i = j.
Proof.
  intros Hlen. unfold add_index.
  destruct (strrchr s ".") as [k|];
    [destruct (match _ with Some j => _ | None => true end)|].
  - intros H%app_inv_head%app_inv_head%app_inj_1; [|done].
    destruct H as [H _]. by apply fmt_d_inj.
  - intros H%app_inv_head%app_inv_head. by apply fmt_d_inj.
  - intros H%app_inv_head%app_inv_head. by apply fmt_d_inj.
Qed.

(** Two indices printed with the same number of digits (at most 10) give
    different paths. *)
Lemma FileLoggerGetPath_distinct (fuel : nat) (env : process_env) (template : cstring)
    (i j : Z) (pi pj : cstring) :
  i <> j ->
  length (fmt_d i) = length (fmt_d j) -> (length (fmt_d i) <= 10)%nat ->
  FileLoggerGetPath fuel env template i = Ok pi ->
  FileLoggerGetPath fuel env template j = Ok pj ->
  pi <> pj.
Proof.
  intros Hij Hlen H10 Hi Hj.
  destruct (expand_vars fuel (user_pid_vars env) 0 template false)
    as [[s2 h2]| |] eqn:E.
  2,3: by rewrite FileLoggerGetPath_split, E in Hi.
  rewrite (FileLoggerGetPath_index _ _ _ _ _ i E) in Hi.
  rewrite (FileLoggerGetPath_index _ _ _ _ _ j E) in Hj.
  unfold g_snprintf in *. rewrite take_ge in Hi by (simpl; lia).
  rewrite take_ge in Hj by (simpl; lia).
  rewrite (count_vars_value (cstr "{IDX}") (fmt_d j) (fmt_d i)) in Hj.
  change (count_vars [(_, fmt_d i)] 0 s2)
    with (count_vars [(VAR_IDX, fmt_d i)] 0 s2) in Hj.
  destruct (fuel <? _)%nat; [done|]. cbv zeta in Hi, Hj.
  injection Hi as <-. injection Hj as <-.
  destruct (Nat.eqb_spec (count_vars [(VAR_IDX, fmt_d i)] 0 s2) 0) as [H0|Hpos].
  - rewrite (count_zero_replace (cstr "{IDX}") (fmt_d i)) by done.
    rewrite (count_zero_replace (cstr "{IDX}") (fmt_d j))
      by (by rewrite (count_vars_value (cstr "{IDX}") (fmt_d j) (fmt_d i))).
    rewrite !andb_true_r.
    destruct (Z.eqb_spec i 0) as [->|Hi0], (Z.eqb_spec j 0) as [->|Hj0]; simpl.
    + done.
    + intros H%(f_equal length). rewrite add_index_length in H. lia.
    + intros H%(f_equal length). rewrite add_index_length in H. lia.
    + intros H. by apply add_index_inj in H.
  - rewrite !andb_false_r.
    apply (count_pos_first (cstr "{IDX}")) in Hpos as (a & r & -> & Hfree).
    rewrite (replace_one_free VAR_IDX (fmt_d i)),
      (replace_one_free VAR_IDX (fmt_d j)) by done.
    rewrite (replace_one_name VAR_IDX (fmt_d i)),
      (replace_one_name VAR_IDX (fmt_d j)) by done.
    intros H%app_inv_head%app_inj_1; [|done].
    destruct H as [H _]. by apply fmt_d_inj in H.
Qed.

(** ** The rotation chain *)

Lemma rename_one_to_free_name (w : world) (src dest content : cstring) :
  fs w !! dest = None -> fs w !! src = Some (RegularFile content) ->
  src <> dest -> rename_denied w src dest = false ->
  fs (rename_one w src dest) = <[dest := RegularFile content]> (delete src (fs w)).
Proof.
  intros Hdest Hsrc Hne Hden. unfold rename_one, g_file_test. cbn [fs record_call].
  rewrite Hdest. cbn [negb]. unfold g_rename. cbn [fs record_call rename_denied].
  rewrite Hsrc, Hden, Hdest. by rewrite bool_decide_eq_false_2.
Qed.

(** C3: with [maxFiles = 3], regular files at indices 0 and 1 and nothing at
    index 2, an open that rotates renames index 1 to index 2 and index 0 to
    index 1 and creates an empty file at index 0; no other path changes.
    The calls are taken not to be refused by the operating system. *)
Theorem C3_rotation_chain_shift (fuel : nat) (env : process_env) (data : FileLogger)
    (w : world) (p0 p1 p2 c0 c1 : cstring) :
  maxFiles data = 3 ->
  FileLoggerGetPath fuel env (path data) 0 = Ok p0 ->
  FileLoggerGetPath fuel env (path data) 1 = Ok p1 ->
  FileLoggerGetPath fuel env (path data) 2 = Ok p2 ->
  fs w !! p0 = Some (RegularFile c0) ->
  fs w !! p1 = Some (RegularFile c1) ->
  fs w !! p2 = None ->
  negb (append data)
  || size_reached (if stat_denied w p0 then data
                   else set_logSize data (to_gint (Z.of_nat (length c0)))) = true ->
  rename_denied w p1 p2 = false ->
  rename_denied w p0 p1 = false ->
  fopen_denied w p0 = false ->
  exists data' w',
    FileLoggerOpen fuel env data w = Ok (Some p0, data', w') /\
    fs w' !! p2 = Some (RegularFile c1) /\
    fs w' !! p1 = Some (RegularFile c0) /\
    fs w' !! p0 = Some (RegularFile []) /\
    (forall q, q <> p0 -> q <> p1 -> q <> p2 -> fs w' !! q = fs w !! q) /\
    logSize data' = 0 /\ append data' = false.
Proof.
  intros Hmax Hp0 Hp1 Hp2 Hf0 Hf1 Hf2 Hrot Hr12 Hr01 Hopen.
  assert (p0 <> p1) as H01
    by (apply (FileLoggerGetPath_distinct fuel env (path data) 0 1);
        [lia | reflexivity | vm_compute; lia | done | done]).
  assert (p0 <> p2) as H02 by congruence.
  assert (p1 <> p2) as H12 by congruence.
  unfold FileLoggerOpen. rewrite Hp0. simpl. rewrite Hf0. simpl.
  set (data1 := match (if stat_denied w p0 then None else _) with
                | Some st_size => set_logSize data (to_gint st_size)
                | None => data end).
  assert (data1 = if stat_denied w p0 then data
                  else set_logSize data (to_gint (Z.of_nat (length c0)))) as Hdata1
    by (unfold data1; by destruct (stat_denied w p0)).
  assert (append data1 = append data /\ path data1 = path data
          /\ maxFiles data1 = 3) as (Happ & Hpath & Hmax1)
    by (rewrite Hdata1; by destruct (stat_denied w p0)).
  rewrite Happ, Hdata1, Hrot, <- Hdata1, Hmax1.
  change (Z.to_nat 3) with 3%nat.
  set (w1 := record_call (record_call w _) _).
  assert (fs w1 = fs w) as Hfs1 by done.
  assert (find_last_log fuel env data1 3 0 [] w1
          = Ok ([p0; p1; p2],
                record_call
                  (record_call
                     (record_call w1 (call_file_test p0 G_FILE_TEST_IS_REGULAR))
                     (call_file_test p1 G_FILE_TEST_IS_REGULAR))
                  (call_file_test p2 G_FILE_TEST_IS_REGULAR))) as ->.
  { cbn [find_last_log]. rewrite Hpath.
    change (to_gint 0) with 0. rewrite Hp0. cbn [mbind result_bind bind_result].
    unfold g_file_test at 1. cbn [fs record_call]. rewrite Hfs1, Hf0.
    change (to_gint (0 + 1)) with 1. rewrite Hp1. cbn [mbind result_bind bind_result].
    unfold g_file_test at 1. cbn [fs record_call]. rewrite Hfs1, Hf1.
    change (to_gint (0 + 1 + 1)) with 2. rewrite Hp2.
    cbn [mbind result_bind bind_result].
    unfold g_file_test at 1. cbn [fs record_call]. rewrite Hfs1, Hf2. done. }
  cbn [mbind result_bind bind_result length Nat.eqb Nat.sub rename_logs].
  cbn [lookup list_lookup].
  set (w2 := record_call (record_call (record_call w1 _) _) _).
  assert (after_calls w w2 [call_file_test p0 G_FILE_TEST_EXISTS; call_stat p0;
                            call_file_test p0 G_FILE_TEST_IS_REGULAR;
                            call_file_test p1 G_FILE_TEST_IS_REGULAR;
                            call_file_test p2 G_FILE_TEST_IS_REGULAR]) as Hw2.
  { unfold after_calls, w2, w1. simpl. by rewrite <- !(assoc_L (++)). }
  assert (fs w2 = fs w) as Hfs2 by done.
  destruct Hw2 as (_ & _ & _ & Hren2 & Hop2).
  destruct (rename_one_calls w2 p1 p2) as (t3 & (_ & _ & _ & Hren3 & Hop3) & _).
  pose proof (rename_one_to_free_name w2 p1 p2 c1) as Hfs3.
  rewrite Hfs2, Hren2 in Hfs3. specialize (Hfs3 Hf2 Hf1 H12 Hr12).
  set (w3 := rename_one w2 p1 p2) in *.
  destruct (rename_one_calls w3 p0 p1) as (t4 & (_ & _ & _ & Hren4 & Hop4) & _).
  pose proof (rename_one_to_free_name w3 p0 p1 c0) as Hfs4.
  rewrite Hfs3, Hren3, Hren2 in Hfs4.
  rewrite lookup_insert_ne, lookup_delete_eq in Hfs4 by done.
  rewrite lookup_insert_ne, lookup_delete_ne in Hfs4 by done.
  specialize (Hfs4 eq_refl Hf0 H01 Hr01).
  set (w4 := rename_one w3 p0 p1) in *.
  cbn [mbind result_bind bind_result append set_append].
  unfold g_fopen. rewrite Hop4, Hop3, Hop2, Hopen.
  rewrite Hfs4, lookup_insert_ne, lookup_delete_eq by done.
  eexists _, _. split; [done|]. cbn [fs with_fs].
  split; [by rewrite lookup_insert_ne, lookup_insert_ne, lookup_delete_ne,
            lookup_insert_eq by done|].
  split; [by rewrite lookup_insert_ne, lookup_insert_eq by done|].
  split; [by rewrite lookup_insert_eq|].
  split; [|done].
  intros q Hq0 Hq1 Hq2.
  by rewrite lookup_insert_ne, lookup_insert_ne, lookup_delete_ne, lookup_insert_ne,
    lookup_delete_ne by done.
Qed.

Lemma C3_rotation_chain_shift_witness :
  let env := {| user_name := cstr "root"; pid := 4242; win32 := false |} in
  let data := {| file := None; path := cstr "/var/log/app.log"; logSize := 0;
                 maxSize := 0; maxFiles := 3; append := false; error := false |} in
  let w := {| fs := {[ cstr "/var/log/app.log" := RegularFile (cstr "newer");
                       cstr "/var/log/app.1.log" := RegularFile (cstr "older") ]};
              stat_denied := fun _ => false; unlink_denied := fun _ => false;
              rename_denied := fun _ _ => false; fopen_denied := fun _ => false;
              trace := [] |} in
  exists data' w',
    FileLoggerOpen 0 env data w = Ok (Some (cstr "/var/log/app.log"), data', w') /\
    fs w' !! cstr "/var/log/app.2.log" = Some (RegularFile (cstr "older")) /\
    fs w' !! cstr "/var/log/app.1.log" = Some (RegularFile (cstr "newer")) /\
    fs w' !! cstr "/var/log/app.log" = Some (RegularFile []).
Proof.
  intros env data w.
  destruct (C3_rotation_chain_shift 0 env data w
              (cstr "/var/log/app.log") (cstr "/var/log/app.1.log")
              (cstr "/var/log/app.2.log") (cstr "newer") (cstr "older"))
    as (data' & w' & Hopen & H2 & H1 & H0 & _).
  - reflexivity.
  - reflexivity.
  - reflexivity.
  - reflexivity.
  - reflexivity.
  - reflexivity.
  - reflexivity.
  - reflexivity.
  - reflexivity.
  - reflexivity.
  - reflexivity.
  - exists data', w'. split; [exact Hopen|]. split; [exact H2|]. split; [exact H1|exact H0].
Defined.

(** ** The two defects in general *)

(** With [maxSize = 0] the test [logSize >= maxSize] of [FileLoggerOpen]
    holds whatever the size is. *)
Lemma size_reached_no_limit (data : FileLogger) :
  maxSize data = 0 -> size_reached data = true.
Proof.
  intros H. unfold size_reached, to_guint64. rewrite H.
  apply Z.leb_le, Z.mod_pos_bound. lia.
Qed.

(** So every logger without a size limit whose active file exists rotates
    at open, whatever its append flag: the file is opened in mode ["w"]. *)
Lemma FileLoggerOpen_no_limit (fuel : nat) (env : process_env) (data : FileLogger)
    (w : world) (path0 : cstring) (n : node) :
  maxSize data = 0 -> 0 < maxFiles data ->
  FileLoggerGetPath fuel env (path data) 0 = Ok path0 ->
  fs w !! path0 = Some n ->
  exists logfile data' w' shift,
    FileLoggerOpen fuel env data w = Ok (logfile, data', w') /\
    append data' = false /\ logSize data' = 0 /\
    after_calls w w'
      ([call_file_test path0 G_FILE_TEST_EXISTS; call_stat path0]
       ++ shift ++ [call_fopen path0 mode_w]).
Proof.
  intros Hmax Hfiles Hpath Hn.
  destruct (FileLoggerOpen_rotates fuel env data w path0 n Hpath Hn)
    as (logfile & w' & shift & Hopen & Hcalls & _); [|done|].
  { rewrite size_reached_no_limit, orb_true_r; [done|].
    by destruct (stat_denied w path0). }
  by eexists logfile, _, w', shift.
Qed.

(** With [maxFiles = 1] a rotation renames nothing: the active file is
    truncated and every other path is as before. *)
Lemma FileLoggerOpen_single_file (fuel : nat) (env : process_env) (data : FileLogger)
    (w : world) (path0 content : cstring) :
  maxFiles data = 1 ->
  FileLoggerGetPath fuel env (path data) 0 = Ok path0 ->
  fs w !! path0 = Some (RegularFile content) ->
  append data = false ->
  fopen_denied w path0 = false ->
  exists data' w',
    FileLoggerOpen fuel env data w = Ok (Some path0, data', w') /\
    fs w' = <[path0 := RegularFile []]> (fs w) /\
    trace w' = trace w ++ [call_file_test path0 G_FILE_TEST_EXISTS;
                           call_stat path0;
                           call_file_test path0 G_FILE_TEST_IS_REGULAR;
                           call_fopen path0 mode_w].
Proof.
  intros Hmax Hpath Hfs Happ Hopen.
  unfold FileLoggerOpen. rewrite Hpath. simpl. rewrite Hfs. simpl.
  set (data1 := match (if stat_denied w path0 then None else _) with
                | Some st_size => set_logSize data (to_gint st_size)
                | None => data end).
  assert (append data1 = false /\ path data1 = path data /\ maxFiles data1 = 1)
    as (-> & Hp1 & ->) by (unfold data1; by destruct (stat_denied w path0)).
  simpl. rewrite Hp1. change (to_gint 0) with 0. rewrite Hpath. simpl.
  rewrite Hfs. simpl. unfold g_fopen. simpl. rewrite Hopen, Hfs.
  eexists _, _. split; [done|]. split; [done|]. simpl.
  by rewrite <- !(assoc_L (++)).
Qed.

(** ** Threads racing to open the file *)

Lemma lookup_insert_thread (ts : list thread) (i j : nat) (t t' : thread) (p : pc) :
  <[i := at_pc t p]> ts !! j = Some t' ->
  (j = i /\ t' = at_pc t p) \/ (j <> i /\ ts !! j = Some t').
Proof.
  intros H. apply list_lookup_insert_Some in H as [(-> & <- & _)|[? ?]].
  - by left.
  - right. by split.
Qed.

(** A step that neither takes nor gives back the writer lock. *)
Lemma writer_inv_same (ts : list thread) (s s' : shared) (i : nat) (t : thread)
    (p : pc) :
  ts !! i = Some t -> writer_inv ts s ->
  holds_writer p = holds_writer (th_pc t) -> sh_writer s' = sh_writer s ->
  writer_inv (<[i := at_pc t p]> ts) s'.
Proof.
  intros Hi [[Hw Hall]|(Hw & k & tk & Hk & Hkw & Huniq)] Hp Hs'.
  - left. split; [congruence|].
    intros j t' [[-> ->]|[_ Hj]]%lookup_insert_thread; simpl.
    + rewrite Hp. by apply (Hall i).
    + by apply (Hall j).
  - right. split; [congruence|].
    destruct (decide (k = i)) as [->|Hki].
    + exists i, (at_pc t p). split; [|split].
      * apply list_lookup_insert_eq. by apply lookup_lt_Some in Hi.
      * simpl. rewrite Hp. congruence.
      * intros j t' [[-> ->]|[_ Hj]]%lookup_insert_thread ?; [done|].
        by apply (Huniq j t').
    + exists k, tk. split; [|split; [done|]].
      * by rewrite list_lookup_insert_ne.
      * intros j t' [[-> ->]|[_ Hj]]%lookup_insert_thread Hh.
        -- simpl in Hh. rewrite Hp in Hh. by apply (Huniq i t).
        -- by apply (Huniq j t').
Qed.

(** A step that takes the writer lock. *)
Lemma writer_inv_enter (ts : list thread) (s s' : shared) (i : nat) (t : thread)
    (p : pc) :
  ts !! i = Some t -> writer_inv ts s ->
  sh_writer s = false -> holds_writer p = true -> sh_writer s' = true ->
  writer_inv (<[i := at_pc t p]> ts) s'.
Proof.
  intros Hi [[_ Hall]|[Hw _]] Hfree Hp Hs'; [|congruence].
  right. split; [done|]. exists i, (at_pc t p). split; [|split; [done|]].
  - apply list_lookup_insert_eq. by apply lookup_lt_Some in Hi.
  - intros j t' [[-> ->]|[_ Hj]]%lookup_insert_thread Hh; [done|].
    rewrite (Hall j t') in Hh; done.
Qed.

(** A step that gives the writer lock back. *)
Lemma writer_inv_leave (ts : list thread) (s s' : shared) (i : nat) (t : thread)
    (p : pc) :
  ts !! i = Some t -> writer_inv ts s ->
  holds_writer (th_pc t) = true -> holds_writer p = false -> sh_writer s' = false ->
  writer_inv (<[i := at_pc t p]> ts) s'.
Proof.
  intros Hi [[_ Hall]|(_ & k & tk & Hk & Hkw & Huniq)] Ht Hp Hs'.
  { rewrite (Hall i t) in Ht; done. }
  left. split; [done|].
  intros j t' [[-> ->]|[Hne Hj]]%lookup_insert_thread; [done|].
  destruct (holds_writer (th_pc t')) eqn:E; [|done].
  pose proof (Huniq j t' Hj E). pose proof (Huniq i t Hi Ht). congruence.
Qed.

(** The thread that holds the writer lock is the only one at line 271. *)
Lemma writer_inv_only (ts : list thread) (s : shared) (i j : nat) (t t' : thread) :
  writer_inv ts s -> ts !! i = Some t -> holds_writer (th_pc t) = true ->
  ts !! j = Some t' -> holds_writer (th_pc t') = true -> j = i.
Proof.
  intros [[_ Hall]|(_ & k & tk & Hk & Hkw & Huniq)] Hi Ht Hj Ht'.
  - rewrite (Hall i t) in Ht; done.
  - pose proof (Huniq j t' Hj Ht'). pose proof (Huniq i t Hi Ht). congruence.
Qed.

(** A step that leaves the file, and the record of the calls of
    [FileLoggerOpen], as they are. *)
Lemma open_inv_frame (ts : list thread) (s s' : shared) (i : nat) (t : thread)
    (p : pc) :
  ts !! i = Some t -> open_inv ts s ->
  writer_inv (<[i := at_pc t p]> ts) s' ->
  (p = L271 -> file (sh_logger s) = None) ->
  file (sh_logger s') = file (sh_logger s) ->
  sh_opens s' = sh_opens s -> sh_rotations s' = sh_rotations s ->
  (sh_opens s = [] -> before_open (th_pc t) = true ->
   before_open p = true /\ error (sh_logger s') = false) ->
  open_inv (<[i := at_pc t p]> ts) s'.
Proof.
  intros Hi (Hw & H271 & Hlast & Hfirst) Hw' Hp Hfile Hopens Hrot Hbefore.
  split; [done|]. rewrite Hfile, Hopens, Hrot. split; [|split; [done|]].
  - intros j t' [[-> ->]|[_ Hj]]%lookup_insert_thread; simpl; [done|].
    by apply (H271 j).
  - intros Hnil. destruct (Hfirst Hnil) as (? & ? & ? & Hall).
    destruct (Hbefore Hnil (Hall i t Hi)) as [? ?].
    split; [done|]. split; [done|]. split; [done|].
    intros j t' [[-> ->]|[_ Hj]]%lookup_insert_thread; simpl; [done|].
    by apply (Hall j).
Qed.

(** The call at line 271. *)
Lemma open_inv_open (ts : list thread) (s : shared) (i : nat) (t : thread)
    (logger' : FileLogger) (w' : world) (f : option cstring) :
  ts !! i = Some t -> th_pc t = L271 -> open_inv ts s ->
  open_inv (<[i := at_pc t L273]> ts) (with_open s (set_file logger' f) w' f).
Proof.
  intros Hi Hpc (Hw & H271 & Hlast & Hfirst).
  split; [|split; [|split]].
  - apply (writer_inv_same ts s); [done|done| |done]. by rewrite Hpc.
  - intros j t' [[-> ->]|[Hne Hj]]%lookup_insert_thread Hj271; [done|].
    destruct Hne. apply (writer_inv_only ts s i j t t'); [done|done| |done|].
    + by rewrite Hpc.
    + by rewrite Hj271.
  - simpl. intros Hrot. specialize (Hlast Hrot).
    rewrite (H271 i t Hi Hpc) in Hlast. destruct f as [h|].
    + by exists (sh_opens s).
    + apply Forall_app. split; [done|]. by constructor.
  - simpl. intros Hnil. by destruct (sh_opens s).
Qed.

(** The statements of lines 294 to 296. *)
Lemma open_inv_rotate (ts : list thread) (s : shared) (i : nat) (t : thread)
    (logger' : FileLogger) (w' : world) (f : option cstring) :
  ts !! i = Some t -> th_pc t = L294 -> open_inv ts s ->
  open_inv (<[i := at_pc t L298]> ts) (with_rotation s (set_file logger' f) w' f).
Proof.
  intros Hi Hpc (Hw & H271 & Hlast & Hfirst).
  split; [|split; [|split]].
  - apply (writer_inv_same ts s); [done|done| |done]. by rewrite Hpc.
  - intros j t' [[-> ->]|[Hne Hj]]%lookup_insert_thread Hj271; [done|].
    destruct Hne. apply (writer_inv_only ts s i j t t'); [done|done| |done|].
    + by rewrite Hpc.
    + by rewrite Hj271.
  - simpl. intros Hrot. by destruct (sh_rotations s).
  - simpl. intros Hnil. destruct (Hfirst Hnil) as (_ & _ & _ & Hall).
    specialize (Hall i t Hi). by rewrite Hpc in Hall.
Qed.

Lemma step_open_inv (fuel : nat) (env : process_env) (i : nat)
    (ts ts' : list thread) (s s' : shared) :
  open_inv ts s -> step fuel env i (ts, s) = Ok (ts', s') -> open_inv ts' s'.
Proof.
  intros Hinv. unfold step. simpl.
  destruct (ts !! i) as [t|] eqn:Hi; [|by intros [= <- <-]].
  destruct (thread_step fuel env t s) as [[[p s1]| |]|] eqn:Hstep;
    [|done|done|by intros [= <- <-]].
  simpl. intros [= <- <-].
  pose proof Hinv as (Hw & H271 & Hlast & Hfirst).
  assert (sh_opens s = [] -> error (sh_logger s) = false
                             /\ file (sh_logger s) = None) as Hfresh
    by (intros Hnil; by destruct (Hfirst Hnil) as (_ & ? & ? & _)).
  unfold thread_step, reader_lock, reader_unlock, writer_lock, writer_unlock in Hstep.
  destruct (th_pc t) eqn:Hpc.
  (* L257 *)
  - destruct (sh_writer s) eqn:E; [done|]. injection Hstep as <- <-.
    apply (open_inv_frame ts s); try done.
    + apply (writer_inv_same ts s); [done|done|by rewrite Hpc|done].
    + intros Hnil _. by destruct (Hfresh Hnil).
  (* L259 *)
  - injection Hstep as <- <-.
    apply (open_inv_frame ts s); try done.
    + apply (writer_inv_same ts s); [done|done| |done].
      rewrite Hpc. by destruct (error _).
    + by destruct (error _).
    + intros Hnil _. destruct (Hfresh Hnil) as [-> _]. done.
  (* L263 *)
  - injection Hstep as <- <-.
    apply (open_inv_frame ts s); try done.
    + apply (writer_inv_same ts s); [done|done| |done].
      rewrite Hpc. by destruct (file _).
    + by destruct (file _).
    + intros Hnil _. destruct (Hfresh Hnil) as [-> ->]. done.
  (* L268 *)
  - injection Hstep as <- <-.
    apply (open_inv_frame ts s); try done.
    + apply (writer_inv_same ts s); [done|done|by rewrite Hpc|done].
    + intros Hnil _. by destruct (Hfresh Hnil).
  (* L269 *)
  - destruct (sh_writer s) eqn:E; [done|]. simpl in Hstep.
    destruct (negb _); [done|]. injection Hstep as <- <-.
    apply (open_inv_frame ts s); try done.
    + by apply (writer_inv_enter ts s).
    + intros Hnil _. by destruct (Hfresh Hnil).
  (* L270 *)
  - injection Hstep as <- <-.
    apply (open_inv_frame ts s); try done.
    + apply (writer_inv_same ts s); [done|done| |done].
      rewrite Hpc. by destruct (file _).
    + by destruct (file _).
    + intros Hnil _. destruct (Hfresh Hnil) as [-> ->]. done.
  (* L271 *)
  - destruct (FileLoggerOpen _ _ _ _) as [[[f logger'] w']| |]; try done.
    simpl in Hstep. injection Hstep as <- <-. by apply open_inv_open.
  (* L273 *)
  - injection Hstep as <- <-.
    apply (open_inv_frame ts s); try done.
    + apply (writer_inv_leave ts s); [done|done|by rewrite Hpc|done|done].
    + intros Hnil Hb. by rewrite Hpc in Hb.
  (* L274 *)
  - destruct (sh_writer s) eqn:E; [done|]. injection Hstep as <- <-.
    apply (open_inv_frame ts s); try done.
    + apply (writer_inv_same ts s); [done|done|by rewrite Hpc|done].
    + intros Hnil Hb. by rewrite Hpc in Hb.
  (* L275 *)
  - injection Hstep as <- <-.
    apply (open_inv_frame ts s); try done.
    + apply (writer_inv_same ts s); [done|done| |done].
      rewrite Hpc. by destruct (file _).
    + by destruct (file _).
    + intros Hnil Hb. by rewrite Hpc in Hb.
  (* L276 *)
  - injection Hstep as <- <-.
    apply (open_inv_frame ts s); try done.
    + apply (writer_inv_same ts s); [done|done|by rewrite Hpc|done].
    + intros Hnil Hb. by rewrite Hpc in Hb.
  (* L282 *)
  - destruct (file (sh_logger s)) as [h|] eqn:Ef; [|done]. injection Hstep as <- <-.
    apply (open_inv_frame ts s); try done.
    + apply (writer_inv_same ts s); [done|done| |done].
      rewrite Hpc. by destruct (th_fputs_ok t).
    + by destruct (th_fputs_ok t).
    + intros Hnil Hb. by rewrite Hpc in Hb.
  (* L283 *)
  - injection Hstep as <- <-.
    apply (open_inv_frame ts s); try done.
    + apply (writer_inv_same ts s); [done|done| |done].
      rewrite Hpc. by destruct (0 <? _).
    + by destruct (0 <? _).
    + intros Hnil Hb. by rewrite Hpc in Hb.
  (* L284 *)
  - injection Hstep as <- <-.
    apply (open_inv_frame ts s); try done.
    + apply (writer_inv_same ts s); [done|done| |done].
      rewrite Hpc. by destruct (win32 env).
    + by destruct (win32 env).
    + intros Hnil Hb. by rewrite Hpc in Hb.
  (* L287 *)
  - injection Hstep as <- <-.
    apply (open_inv_frame ts s); try done.
    + apply (writer_inv_same ts s); [done|done|by rewrite Hpc|done].
    + intros Hnil Hb. by rewrite Hpc in Hb.
  (* L289 *)
  - injection Hstep as <- <-.
    apply (open_inv_frame ts s); try done.
    + apply (writer_inv_same ts s); [done|done| |done].
      rewrite Hpc. by destruct (size_reached _).
    + by destruct (size_reached _).
    + intros Hnil Hb. by rewrite Hpc in Hb.
  (* L291 *)
  - injection Hstep as <- <-.
    apply (open_inv_frame ts s); try done.
    + apply (writer_inv_same ts s); [done|done|by rewrite Hpc|done].
    + intros Hnil Hb. by rewrite Hpc in Hb.
  (* L292 *)
  - destruct (sh_writer s) eqn:E; [done|]. simpl in Hstep.
    destruct (negb _); [done|]. injection Hstep as <- <-.
    apply (open_inv_frame ts s); try done.
    + by apply (writer_inv_enter ts s).
    + intros Hnil Hb. by rewrite Hpc in Hb.
  (* L293 *)
  - injection Hstep as <- <-.
    apply (open_inv_frame ts s); try done.
    + apply (writer_inv_same ts s); [done|done| |done].
      rewrite Hpc. by destruct (size_reached _).
    + by destruct (size_reached _).
    + intros Hnil Hb. by rewrite Hpc in Hb.
  (* L294 *)
  - destruct (file (sh_logger s)) as [h|] eqn:Ef; [|done].
    destruct (FileLoggerOpen _ _ _ _) as [[[f logger'] w']| |]; try done.
    simpl in Hstep. injection Hstep as <- <-. by apply open_inv_rotate.
  (* L298 *)
  - injection Hstep as <- <-.
    apply (open_inv_frame ts s); try done.
    + apply (writer_inv_leave ts s); [done|done|by rewrite Hpc|done|done].
    + intros Hnil Hb. by rewrite Hpc in Hb.
  (* L299 *)
  - destruct (sh_writer s) eqn:E; [done|]. injection Hstep as <- <-.
    apply (open_inv_frame ts s); try done.
    + apply (writer_inv_same ts s); [done|done|by rewrite Hpc|done].
    + intros Hnil Hb. by rewrite Hpc in Hb.
  (* L301 *)
  - destruct (file (sh_logger s)) as [h|] eqn:Ef; [|done]. injection Hstep as <- <-.
    apply (open_inv_frame ts s); try done.
    + apply (writer_inv_same ts s); [done|done|by rewrite Hpc|done].
    + intros Hnil Hb. by rewrite Hpc in Hb.
  (* L304 *)
  - destruct (file (sh_logger s)) as [h|] eqn:Ef; [|done]. injection Hstep as <- <-.
    apply (open_inv_frame ts s); try done.
    + apply (writer_inv_same ts s); [done|done|by rewrite Hpc|done].
    + intros Hnil Hb. by rewrite Hpc in Hb.
  (* L309 *)
  - injection Hstep as <- <-.
    apply (open_inv_frame ts s); try done.
    + apply (writer_inv_same ts s); [done|done|by rewrite Hpc|done].
    + intros Hnil Hb. by rewrite Hpc in Hb.
  (* returned *)
  - done.
Qed.

Lemma run_open_inv (fuel : nat) (env : process_env) (schedule : list nat)
    (ts ts' : list thread) (s s' : shared) :
  open_inv ts s -> run fuel env schedule (ts, s) = Ok (ts', s') -> open_inv ts' s'.
Proof.
  revert ts s. induction schedule as [|i rest IH]; intros ts s Hinv; simpl.
  - by intros [= <- <-].
  - destruct (step fuel env i (ts, s)) as [[ts1 s1]| |] eqn:E; try done.
    simpl. apply IH. by eapply step_open_inv.
Qed.

Lemma start_open_inv (msgs : list (cstring * bool)) (logger : FileLogger) (w : world) :
  file logger = None -> error logger = false ->
  open_inv (start msgs logger w).1 (start msgs logger w).2.
Proof.
  intros Hfile Herr.
  assert (forall j t, (start msgs logger w).1 !! j = Some t -> th_pc t = L257) as Hpc.
  { intros j t. simpl. rewrite list_lookup_fmap.
    destruct (msgs !! j); [|done]. by intros [= <-]. }
  split; [|split; [|split]].
  - left. split; [done|]. intros j t Hj. by rewrite (Hpc j t Hj).
  - intros j t Hj. by rewrite (Hpc j t Hj).
  - simpl. rewrite Hfile. by intros _.
  - simpl. intros _. split; [done|]. split; [done|]. split; [done|].
    intros j t Hj. by rewrite (Hpc j t Hj).
Qed.

(** C9 as stated fails when the open fails: both threads find the logger
    unopened and leave the reader lock; the first opens in vain and sets the
    error flag only later; the second finds the file still NULL under the
    writer lock and calls [FileLoggerOpen] again. *)
Lemma C9_counterexample :
  let env := {| user_name := cstr "root"; pid := 4242; win32 := false |} in
  let logger := {| file := None; path := cstr "/nonexistent/app.log"; logSize := 0;
                   maxSize := 0; maxFiles := 2; append := false;
                   error := false |} in
  let w := {| fs := ∅; stat_denied := fun _ => false;
              unlink_denied := fun _ => false;
              rename_denied := fun _ _ => false;
              fopen_denied := fun _ => true; trace := [] |} in
  let schedule := [0; 0; 0; 0; 1; 1; 1; 1; 0; 0; 0; 0; 1; 1; 1; 1;
                   0; 0; 0; 0; 1; 1; 1; 1]%nat in
  exists ts s,
    run 0 env schedule (start [(cstr "a", true); (cstr "b", true)] logger w)
    = Ok (ts, s) /\
    map th_pc ts = [returned; returned] /\
    sh_opens s = [None; None] /\
    trace (sh_world s)
    = [call_file_test (cstr "/nonexistent/app.log") G_FILE_TEST_EXISTS;
       call_fopen (cstr "/nonexistent/app.log") mode_w;
       call_file_test (cstr "/nonexistent/app.log") G_FILE_TEST_EXISTS;
       call_fopen (cstr "/nonexistent/app.log") mode_w].
Proof.
  intros env logger w schedule. eexists _, _.
  split; [vm_compute; reflexivity|]. by repeat split.
Qed.

(** ** One thread alone *)

Arguments FileLoggerOpen : simpl never.
Arguments fputs : simpl never.
Arguments fflush : simpl never.
Arguments fclose : simpl never.
Arguments size_reached : simpl never.
Arguments to_gint : simpl never.

(** Run the steps of a thread whose tests are decided by the context. *)
Ltac run_thread :=
  repeat (progress
    (simpl; unfold step, thread_step, reader_lock, reader_unlock, writer_lock,
       writer_unlock; simpl;
     repeat match goal with
       | H : error _ = _ |- _ => rewrite H
       | H : file _ = _ |- _ => rewrite H
       | H : (0 <? _) = _ |- _ => rewrite H
       | H : win32 _ = _ |- _ => rewrite H
       | H : size_reached _ = _ |- _ => rewrite H
       | H : FileLoggerOpen _ _ _ _ = _ |- _ => rewrite H
       end)).

Lemma run_app (fuel : nat) (env : process_env) (s1 s2 : list nat)
    (c : list thread * shared) :
  run fuel env (s1 ++ s2) c = c' ← run fuel env s1 c; run fuel env s2 c'.
Proof.
  revert c; induction s1 as [|i s1 IH]; intros c; simpl; [done|].
  destruct (step fuel env i c) as [c1| |]; simpl; [apply IH|done..].
Qed.

Lemma run_returned (fuel : nat) (env : process_env) (n : nat) (t : thread) (s : shared) :
  th_pc t = returned ->
  run fuel env (replicate n 0%nat) ([t], s) = Ok ([t], s).
Proof.
  intros Hpc. induction n as [|n IH]; simpl; [done|].
  unfold step, thread_step. simpl. by rewrite Hpc.
Qed.

(** From the write on, a thread alone does what the rest of [FileLoggerLog]
    does. *)
Lemma one_thread_writes (fuel : nat) (env : process_env) (message : cstring)
    (ok : bool) (logger' : FileLogger) (w' : world) (l : FileLogger) (w0 : world)
    (h : cstring) (r o : list (option cstring)) (p : pc) :
  p = L263 \/ p = L275 ->
  file l = Some h ->
  (if ok
   then
     if 0 <? maxSize l
     then
       let l1 := set_logSize l
                   (to_gint (logSize l + to_gint (Z.of_nat (length message)))) in
       let l2 := if win32 env then set_logSize l1 (to_gint (logSize l1 + 1))
                 else l1 in
       if size_reached l2
       then
         if size_reached l2
         then '(f, l3, w3) ← FileLoggerOpen fuel env (set_append l2 false)
                               (fclose (fputs w0 message h ok) h);
              Ok (set_file l3 f, w3)
         else Ok (l2, fputs w0 message h ok)
       else Ok (l2, fflush (fputs w0 message h ok) h)
     else Ok (l, fflush (fputs w0 message h ok) h)
   else Ok (l, fputs w0 message h ok)) = Ok (logger', w') ->
  exists s,
    run fuel env (replicate 13 0%nat)
      ([{| th_pc := p; th_message := message; th_fputs_ok := ok |}],
       {| sh_logger := l; sh_world := w0; sh_readers := 1; sh_writer := false;
          sh_opens := o; sh_rotations := r |})
    = Ok ([{| th_pc := returned; th_message := message; th_fputs_ok := ok |}], s) /\
    sh_logger s = logger' /\ sh_world s = w' /\
    sh_readers s = 0%nat /\ sh_writer s = false.
Proof.
  intros Hp Hfile.
  destruct ok; simpl.
  2: { intros [= <- <-]. eexists.
       destruct Hp as [-> | ->]; run_thread; by repeat split. }
  destruct (0 <? maxSize l) eqn:Hmax; simpl.
  2: { intros [= <- <-]. eexists.
       destruct Hp as [-> | ->]; run_thread; by repeat split. }
  destruct (win32 env) eqn:Hwin; simpl.
  - destruct (size_reached _) eqn:Hsize; simpl.
    + destruct (FileLoggerOpen _ _ _ _) as [[[f l1] w1]| |] eqn:Hopen;
        simpl; try done.
      intros [= <- <-]. eexists.
      destruct Hp as [-> | ->]; run_thread; by repeat split.
    + intros [= <- <-]. eexists.
      destruct Hp as [-> | ->]; run_thread; by repeat split.
  - destruct (size_reached _) eqn:Hsize; simpl.
    + destruct (FileLoggerOpen _ _ _ _) as [[[f l1] w1]| |] eqn:Hopen;
        simpl; try done.
      intros [= <- <-]. eexists.
      destruct Hp as [-> | ->]; run_thread; by repeat split.
    + intros [= <- <-]. eexists.
      destruct Hp as [-> | ->]; run_thread; by repeat split.
Qed.

(** X15: the step function agrees with [FileLoggerLog]: a thread that runs
    alone returns within 22 steps, with the logger and the world that
    [FileLoggerLog] gives, and with the lock free. *)
Theorem X15_one_thread_is_FileLoggerLog (fuel : nat) (env : process_env) (message : cstring)
    (ok : bool) (logger logger' : FileLogger) (w w' : world) :
  FileLoggerLog fuel env message ok logger w = Ok (logger', w') ->
  exists s,
    run fuel env (replicate 22 0%nat) (start [(message, ok)] logger w)
    = Ok ([{| th_pc := returned; th_message := message; th_fputs_ok := ok |}], s) /\
    sh_logger s = logger' /\ sh_world s = w' /\
    sh_readers s = 0%nat /\ sh_writer s = false.
Proof.
  intros Hlog. unfold FileLoggerLog in Hlog.
  destruct (error logger) eqn:Herr.
  { injection Hlog as <- <-. eexists. run_thread. by repeat split. }
  destruct (file logger) as [h|] eqn:Hfile; simpl in Hlog.
  - rewrite Hfile in Hlog.
    destruct (one_thread_writes fuel env message ok logger' w' logger w h [] [] L263 ltac:(by left) Hfile Hlog)
      as (s & Hrun & Hs).
    exists s. split; [|done].
    change (replicate 22 0%nat)
      with (replicate 2 0%nat ++ replicate 13 0%nat ++ replicate 7 0%nat).
    rewrite run_app.
    assert (run fuel env (replicate 2 0%nat) (start [(message, ok)] logger w)
            = Ok ([{| th_pc := L263; th_message := message; th_fputs_ok := ok |}],
                  {| sh_logger := logger; sh_world := w; sh_readers := 1;
                     sh_writer := false; sh_opens := []; sh_rotations := [] |}))
      as -> by (by run_thread).
    cbn [mbind result_bind bind_result]. rewrite run_app, Hrun.
    cbn [mbind result_bind bind_result]. by apply run_returned.
  - destruct (FileLoggerOpen fuel env logger w) as [[[f l1] w1]| |] eqn:Hopen;
      simpl in Hlog; try done.
    destruct f as [h|]; simpl in Hlog.
    + destruct (one_thread_writes fuel env message ok logger' w' (set_file l1 (Some h)) w1 h [] [Some h] L275
                  ltac:(by right) eq_refl Hlog) as (s & Hrun & Hs).
      exists s. split; [|done].
      change (replicate 22 0%nat) with (replicate 9 0%nat ++ replicate 13 0%nat).
      rewrite run_app.
      assert (run fuel env (replicate 9 0%nat) (start [(message, ok)] logger w)
              = Ok ([{| th_pc := L275; th_message := message; th_fputs_ok := ok |}],
                    {| sh_logger := set_file l1 (Some h); sh_world := w1;
                       sh_readers := 1; sh_writer := false;
                       sh_opens := [Some h]; sh_rotations := [] |}))
        as -> by (by run_thread).
      cbn [mbind result_bind bind_result]. exact Hrun.
    + injection Hlog as <- <-. eexists. run_thread. by repeat split.
Qed.

(** ** The lock *)

Lemma count_pc_insert (f : pc -> bool) (ts : list thread) (i : nat) (t : thread)
    (p : pc) :
  ts !! i = Some t ->
  (count_pc f (<[i := at_pc t p]> ts) + (if f (th_pc t) then 1 else 0)
   = count_pc f ts + (if f p then 1 else 0))%nat.
Proof.
  unfold count_pc. revert i. induction ts as [|x ts IH]; intros [|i]; simpl; try done.
  - intros [= ->]. rewrite !filter_cons. simpl.
    destruct (f p), (f (th_pc t)); simpl;
      repeat (case_decide; try done); simpl; lia.
  - intros Hi. specialize (IH i Hi). rewrite !filter_cons.
    case_decide; simpl; lia.
Qed.

Lemma count_pc_zero (f : pc -> bool) (ts : list thread) (j : nat) (t : thread) :
  count_pc f ts = 0%nat -> ts !! j = Some t -> f (th_pc t) = false.
Proof.
  unfold count_pc. intros H0 Hj.
  apply length_zero_iff_nil in H0.
  destruct (f (th_pc t)) eqn:E; [|done].
  assert (t ∈ filter (fun t => f (th_pc t) = true) ts) as Hin
    by (apply list_elem_of_filter; split; [done|by eapply list_elem_of_lookup_2]).
  rewrite H0 in Hin. by apply elem_of_nil in Hin.
Qed.

Lemma count_pc_one (f : pc -> bool) (ts : list thread) (i j : nat) (t t' : thread) :
  (count_pc f ts <= 1)%nat ->
  ts !! i = Some t -> f (th_pc t) = true ->
  ts !! j = Some t' -> f (th_pc t') = true -> i = j.
Proof.
  unfold count_pc. revert i j.
  induction ts as [|x ts IH]; intros i j Hle Hi Ht Hj Ht'; [done|].
  rewrite filter_cons in Hle. destruct i as [|i], j as [|j]; simpl in *.
  - done.
  - injection Hi as ->. rewrite decide_True in Hle by done. simpl in Hle.
    assert (count_pc f ts = 0%nat) as H0 by (unfold count_pc; lia).
    by rewrite (count_pc_zero f ts j t' H0 Hj) in Ht'.
  - injection Hj as ->. rewrite decide_True in Hle by done. simpl in Hle.
    assert (count_pc f ts = 0%nat) as H0 by (unfold count_pc; lia).
    by rewrite (count_pc_zero f ts i t H0 Hi) in Ht.
  - f_equal. apply IH; try done. case_decide; simpl in Hle; lia.
Qed.

Lemma step_lock_inv (fuel : nat) (env : process_env) (i : nat)
    (ts ts' : list thread) (s s' : shared) :
  lock_inv ts s -> step fuel env i (ts, s) = Ok (ts', s') -> lock_inv ts' s'.
Proof.
  intros (Hr & Hw & Hex). unfold step. simpl.
  destruct (ts !! i) as [t|] eqn:Hi; [|by intros [= <- <-]].
  destruct (thread_step fuel env t s) as [[[p s1]| |]|] eqn:Hstep;
    [|done|done|by intros [= <- <-]].
  simpl. intros [= <- <-].
  pose proof (count_pc_insert holds_reader ts i t p Hi) as Hcr.
  pose proof (count_pc_insert holds_writer ts i t p Hi) as Hcw.
  unfold thread_step, reader_lock, reader_unlock, writer_lock, writer_unlock in Hstep.
  unfold lock_inv.
  destruct (th_pc t) eqn:Hpc; simpl in Hcr, Hcw;
    repeat match type of Hstep with
      | context [FileLoggerOpen ?a ?b ?c ?d] =>
          destruct (FileLoggerOpen a b c d) as [[[? ?] ?]| |]; simpl in Hstep
      | context [match file ?l with _ => _ end] => destruct (file l)
      | context [if ?b then _ else _] => destruct b eqn:?; simpl in Hstep
      end;
    try discriminate Hstep;
    injection Hstep as <- <-; simpl in *;
    (split; [lia|]); (split; [try lia; destruct (sh_writer s); simpl in *; lia|]);
    try done; intros; try lia; try discriminate.
  all: try (rewrite Hex by done; done).
  all: apply orb_false_elim in Heqb as [_ Hz];
    by apply negb_false_iff, Nat.eqb_eq in Hz.
Qed.

(** From any number of calls started together, whatever the schedule: the
    lock counts its holders. *)
Lemma run_lock_inv (fuel : nat) (env : process_env) (schedule : list nat)
    (c c' : list thread * shared) :
  lock_inv c.1 c.2 -> run fuel env schedule c = Ok c' -> lock_inv c'.1 c'.2.
Proof.
  revert c. induction schedule as [|i rest IH]; intros [ts s]; simpl.
  - by intros H [= <-].
  - intros H. destruct (step fuel env i (ts, s)) as [[ts1 s1]| |] eqn:Hstep;
      simpl; try done.
    intros Hrun. apply (IH (ts1, s1)); [|done].
    by eapply step_lock_inv.
Qed.

Lemma start_lock_inv (msgs : list (cstring * bool)) (logger : FileLogger)
    (w : world) :
  lock_inv (start msgs logger w).1 (start msgs logger w).2.
Proof.
  unfold lock_inv, start, count_pc. simpl.
  assert (forall f, f L257 = false ->
    filter (fun t => f (th_pc t) = true)
      (map (fun m : cstring * bool =>
         {| th_pc := L257; th_message := m.1; th_fputs_ok := m.2 |}) msgs) = [])
    as Hnone.
  { intros f Hf. induction msgs as [|m msgs IH]; [done|].
    simpl. rewrite filter_cons. simpl. rewrite decide_False; [done|].
    by rewrite Hf. }
  rewrite !Hnone by done. done.
Qed.

(** X16: in every state that calls started together reach, under any
    schedule: while a thread is between taking and releasing the writer
    lock (where it tests [logger->file] again, opens or rotates), every
    other thread is outside the regions that hold the lock as reader or as
    writer. *)
Theorem X16_writer_excludes (fuel : nat) (env : process_env) (schedule : list nat)
    (msgs : list (cstring * bool)) (logger : FileLogger) (w : world)
    (ts : list thread) (s : shared) (i j : nat) (t t' : thread) :
  run fuel env schedule (start msgs logger w) = Ok (ts, s) ->
  ts !! i = Some t -> holds_writer (th_pc t) = true ->
  ts !! j = Some t' -> i <> j ->
  holds_writer (th_pc t') = false /\ holds_reader (th_pc t') = false.
Proof.
  intros Hrun Hi Ht Hj Hij.
  pose proof (run_lock_inv _ _ _ _ _ (start_lock_inv msgs logger w) Hrun)
    as (Hr & Hw & Hex). simpl in *.
  assert (count_pc holds_writer ts <= 1)%nat as Hle
    by (rewrite <- Hw; destruct (sh_writer s); lia).
  split.
  - destruct (holds_writer (th_pc t')) eqn:E; [|done].
    destruct Hij. by eapply count_pc_one.
  - destruct (sh_writer s) eqn:Hwr.
    + eapply count_pc_zero; [|done]. rewrite <- Hr. by apply Hex.
    + symmetry in Hw. by rewrite (count_pc_zero _ _ _ _ Hw Hi) in Ht.
Qed.


(** ** The number of characters [%d] prints *)

Lemma usize_nb_digits (d : Decimal.uint) :
  DecimalPos.Unsigned.usize d = N.of_nat (Decimal.nb_digits d).
Proof.
  induction d; simpl Decimal.nb_digits; simpl DecimalPos.Unsigned.usize;
    rewrite ?IHd; lia.
Qed.

Lemma to_uint_normal (p : positive) : Decimal.unorm (Pos.to_uint p) = Pos.to_uint p.
Proof.
  rewrite <- (DecimalPos.Unsigned.to_of (Pos.to_uint p)).
  by rewrite DecimalPos.Unsigned.of_to.
Qed.

Lemma to_uint_digits (p : positive) (n : nat) :
  (N.pos p < 10 ^ N.of_nat n)%N -> (Decimal.nb_digits (Pos.to_uint p) <= n)%nat.
Proof.
  intros Hlt.
  pose proof (DecimalPos.Unsigned.of_to p) as Hof.
  pose proof (to_uint_normal p) as Hnorm.
  pose proof (DecimalPos.Unsigned.to_uint_nonzero p) as Hnz.
  rewrite DecimalPos.Unsigned.of_uint_alt in Hof.
  assert (forall d' x, (1 <= DecimalPos.Unsigned.of_lu x)%N ->
            (DecimalPos.Unsigned.of_lu (Decimal.rev d')
             + DecimalPos.Unsigned.of_lu x * 10 ^ DecimalPos.Unsigned.usize d'
             = N.pos p)%N ->
            (S (Decimal.nb_digits d') <= n)%nat) as Hhead.
  { intros d' x Hk Hsum. rewrite usize_nb_digits in Hsum.
    destruct (Nat.le_gt_cases (S (Decimal.nb_digits d')) n) as [|Hgt]; [done|].
    assert (10 ^ N.of_nat n <= 10 ^ N.of_nat (Decimal.nb_digits d'))%N
      by (apply N.pow_le_mono_r; lia).
    nia. }
  destruct (Pos.to_uint p) as [|d'|d'|d'|d'|d'|d'|d'|d'|d'|d'] eqn:E.
  all: try (unfold Decimal.rev in Hof; simpl Decimal.revapp in Hof;
    rewrite DecimalPos.Unsigned.of_lu_revapp in Hof;
    simpl Decimal.nb_digits; eapply Hhead; [|exact Hof]; simpl; lia).
  - simpl. lia.
  - exfalso. rewrite DecimalFacts.unorm_D0 in Hnorm.
    destruct d' as [|d|d|d|d|d|d|d|d|d|d]; [done|..];
      (apply (f_equal Decimal.nb_digits) in Hnorm;
       match type of Hnorm with
       | Decimal.nb_digits (Decimal.unorm ?u) = _ =>
           pose proof (DecimalFacts.nb_digits_unorm u) as Hle
       end;
       simpl Decimal.nb_digits in *; rewrite Hnorm in Hle;
       specialize (Hle ltac:(done)); lia).
Qed.

Lemma string_of_uint_length (d : Decimal.uint) :
  length (cstr (NilEmpty.string_of_uint d)) = Decimal.nb_digits d.
Proof. induction d; simpl; by rewrite ?IHd. Qed.

(** An index above -10^9 is printed in at most ten characters, so that
    [indexStr] holds all of them. *)
Lemma fmt_d_length (z : Z) :
  -1000000000 < z < 10000000000 -> (length (fmt_d z) <= 10)%nat.
Proof.
  intros Hz. unfold fmt_d. destruct z as [|p|p]; simpl Z.to_int.
  - simpl. lia.
  - unfold NilZero.string_of_int, NilZero.string_of_uint.
    pose proof (to_uint_digits p 10) as H.
    destruct (Pos.to_uint p) eqn:E;
      [simpl; lia| rewrite string_of_uint_length; apply H; lia ..].
  - unfold NilZero.string_of_int, NilZero.string_of_uint.
    pose proof (to_uint_digits p 9) as H.
    destruct (Pos.to_uint p) eqn:E;
      [simpl; lia| change (cstr (String "-" ?s)) with ("-"%char :: cstr s);
                   cbn [length]; rewrite string_of_uint_length;
                   apply le_n_S, H; lia ..].
Qed.

Lemma indexStr_exact (z : Z) :
  -1000000000 < z < 10000000000 -> g_snprintf 11 (fmt_d z) = fmt_d z.
Proof.
  intros H%fmt_d_length. unfold g_snprintf. apply take_ge. simpl. lia.
Qed.

(** ** Templates without variables *)

Lemma strstr_no_dollar (s body : cstring) :
  "$"%char ∉ s -> strstr s ("$"%char :: body) = None.
Proof.
  induction s as [|c s IH]; [done|].
  intros [Hc Hs]%not_elem_of_cons. cbn [strstr].
  rewrite is_prefix_head by done. by rewrite IH.
Qed.

(** X1: a template without ["$"] names no variable: the loops find nothing
    whatever the user name is and however little fuel there is, index 0
    returns the template itself and any other index the template with the
    index suffix. *)
Theorem X1_plain_template (fuel : nat) (env : process_env) (template : cstring)
    (index : Z) :
  "$"%char ∉ template ->
  FileLoggerGetPath fuel env template index
  = Ok (if index =? 0 then template else add_index template index).
Proof.
  intros H.
  pose proof (strstr_no_dollar template (cstr "{USER}") H
              : strstr template VAR_USER = None) as Huser.
  pose proof (strstr_no_dollar template (cstr "{PID}") H
              : strstr template VAR_PID = None) as Hpid.
  pose proof (strstr_no_dollar template (cstr "{IDX}") H
              : strstr template VAR_IDX = None) as Hidx.
  unfold FileLoggerGetPath, expand_vars, subst_var.
  destruct fuel; rewrite drop_0, Huser;
    cbn [mbind result_bind bind_result]; rewrite drop_0, Hpid;
    cbn [mbind result_bind bind_result]; rewrite drop_0, Hidx;
    cbn [mbind result_bind bind_result negb andb];
    rewrite andb_true_r; by destruct (index =? 0).
Qed.

Lemma X1_plain_template_witness :
  FileLoggerGetPath 0 {| user_name := cstr "${USER}"; pid := 1; win32 := true |}
    (cstr "C:\logs\vmsvc.log") 7
  = Ok (cstr "C:\logs\vmsvc.7.log").
Proof.
  apply (X1_plain_template 0 {| user_name := cstr "${USER}"; pid := 1; win32 := true |}
           (cstr "C:\logs\vmsvc.log") 7).
  not_in_cstring.
Defined.

(** ** The paths of any two indices *)

Lemma replace_one_length (body v s : cstring) :
  (length (replace_vars [("$"%char :: body, v)] 0 s)
   + count_vars [("$"%char :: body, v)] 0 s * length ("$"%char :: body)
   = length s + count_vars [("$"%char :: body, v)] 0 s * length v)%nat.
Proof.
  induction s as [|r IH|c r E IH] using (one_var_ind "$" body); [done|..].
  - rewrite replace_one_name, count_one_name by done.
    rewrite !length_app. cbn [length] in *. lia.
  - rewrite count_vars_nomatch, replace_vars_nomatch
      by (by rewrite match_var_one, E).
    cbn [length] in *. lia.
Qed.

Lemma FileLoggerGetPath_differ (fuel : nat) (env : process_env) (template : cstring)
    (i j : Z) (pi pj : cstring) :
  -1000000000 < i < 2 ^ 31 -> -1000000000 < j < 2 ^ 31 -> i <> j ->
  FileLoggerGetPath fuel env template i = Ok pi ->
  FileLoggerGetPath fuel env template j = Ok pj ->
  pi <> pj.
Proof.
  intros Hi10 Hj10 Hij Hi Hj.
  destruct (decide (length (fmt_d i) = length (fmt_d j))) as [Hlen|Hlen].
  { apply (FileLoggerGetPath_distinct fuel env template i j); try done.
    apply fmt_d_length. lia. }
  destruct (expand_vars fuel (user_pid_vars env) 0 template false)
    as [[s2 h2]| |] eqn:E.
  2,3: by rewrite FileLoggerGetPath_split, E in Hi.
  rewrite (FileLoggerGetPath_index _ _ _ _ _ i E) in Hi.
  rewrite (FileLoggerGetPath_index _ _ _ _ _ j E) in Hj.
  rewrite indexStr_exact in Hi, Hj by lia.
  rewrite (count_vars_value (cstr "{IDX}") (fmt_d j) (fmt_d i)) in Hj.
  change (count_vars [(_, fmt_d i)] 0 s2)
    with (count_vars [(VAR_IDX, fmt_d i)] 0 s2) in Hj.
  destruct (fuel <? _)%nat; [done|]. cbv zeta in Hi, Hj.
  injection Hi as <-. injection Hj as <-.
  intros Heq%(f_equal length). revert Heq.
  pose proof (replace_one_length (cstr "{IDX}") (fmt_d i) s2) as Li.
  pose proof (replace_one_length (cstr "{IDX}") (fmt_d j) s2) as Lj.
  rewrite (count_vars_value (cstr "{IDX}") (fmt_d j) (fmt_d i)) in Lj.
  change ("$"%char :: cstr "{IDX}") with VAR_IDX in Li, Lj.
  destruct (Nat.eqb_spec (count_vars [(VAR_IDX, fmt_d i)] 0 s2) 0) as [H0|Hpos].
  - rewrite !andb_true_r.
    destruct (Z.eqb_spec i 0) as [->|Hi0], (Z.eqb_spec j 0) as [->|Hj0];
      cbn [negb]; rewrite ?add_index_length; try done; rewrite H0 in *; lia.
  - rewrite !andb_false_r. nia.
Qed.

(** X2: two different indices above -10^9 never give the same path,
    whatever the template and the user name are: the files of a rotation
    chain do not collide. *)
Theorem X2_paths_distinct (fuel : nat) (env : process_env) (template : cstring)
    (i j : Z) (pi pj : cstring) :
  -1000000000 < i < 2 ^ 31 -> -1000000000 < j < 2 ^ 31 -> i <> j ->
  FileLoggerGetPath fuel env template i = Ok pi ->
  FileLoggerGetPath fuel env template j = Ok pj ->
  pi <> pj.
Proof. apply FileLoggerGetPath_differ. Qed.

Lemma X2_paths_distinct_witness :
  cstr "/var/log/vmware-9.log" <> cstr "/var/log/vmware-10.log".
Proof.
  apply (X2_paths_distinct 1 {| user_name := cstr "root"; pid := 4242; win32 := false |}
           (cstr "/var/log/vmware-${IDX}.log") 9 10).
  - lia.
  - lia.
  - lia.
  - reflexivity.
  - reflexivity.
Defined.

(** ** Templates with the index variable *)

Lemma count_zero_free (body v s : cstring) :
  count_vars [("$"%char :: body, v)] 0 s = 0%nat -> free_until ("$"%char :: body) s [].
Proof.
  induction s as [|r IH|c r E IH] using (one_var_ind "$" body); [done|..].
  - by rewrite count_one_name.
  - rewrite count_vars_nomatch by (by rewrite match_var_one, E).
    intros H. split; [by rewrite app_nil_r | by apply IH].
Qed.

Lemma count_occurrence (body v a r : cstring) :
  count_vars [("$"%char :: body, v)] 0 (a ++ ("$"%char :: body) ++ r) <> 0%nat.
Proof.
  intros H%count_zero_free. apply free_until_app in H as [_ H].
  destruct H as [H _].
  change (is_prefix ("$"%char :: body) ((("$"%char :: body) ++ r) ++ []) = false) in H.
  by rewrite app_nil_r, (is_prefix_app ("$"%char :: body)) in H.
Qed.

(** A pass for another variable leaves an occurrence of [${IDX}] in place. *)
Lemma replace_keeps_IDX (body u : cstring) :
  "$"%char ∉ body ->
  (forall r, is_prefix ("$"%char :: body) (VAR_IDX ++ r) = false) ->
  forall a r, exists a' r',
    replace_vars [("$"%char :: body, u)] 0 (a ++ VAR_IDX ++ r) = a' ++ VAR_IDX ++ r'.
Proof.
  intros Hbody Hhead a r. remember (length a) as k eqn:Hk. revert a Hk.
  induction k as [k IH] using lt_wf_ind. intros a ->.
  destruct a as [|c a].
  - exists [], (replace_vars [("$"%char :: body, u)] 0 r).
    rewrite !app_nil_l. apply (replace_one_free ("$"%char :: body) u); try done.
  - destruct (is_prefix ("$"%char :: body) ((c :: a) ++ VAR_IDX ++ r)) eqn:E.
    + apply is_prefix_app_inv in E as [E|(n2 & Hn & Hn2 & E2)].
      * apply is_prefix_true in E. rewrite E, <- !(assoc_L (++)).
        rewrite (replace_one_name ("$"%char :: body) u) by done.
        destruct (IH (length (drop (length ("$"%char :: body)) (c :: a))))
          with (a := drop (length ("$"%char :: body)) (c :: a))
          as (a' & r' & ->); [|done|].
        { rewrite length_drop. cbn [length]. lia. }
        exists (u ++ a'), r'. by rewrite <- (assoc_L (++)).
      * exfalso. injection Hn as <- ->.
        destruct n2 as [|x n2]; [done|].
        cbn [is_prefix VAR_IDX cstr list_ascii_of_string app] in E2.
        destruct (Ascii.eqb_spec x "$") as [->|]; [|done].
        apply Hbody. apply elem_of_app. right. by left.
    + rewrite <- app_comm_cons in E |- *.
      rewrite replace_vars_nomatch by (by rewrite match_var_one, E).
      destruct (IH (length a)) with (a := a) as (a' & r' & ->); [cbn; lia|done|].
      by exists (c :: a'), r'.
Qed.

Lemma user_pid_keep_IDX (env : process_env) (template v : cstring) :
  safe_value (user_name env) = true -> strstr template VAR_IDX <> None ->
  count_vars [(VAR_IDX, v)] 0 (replace_vars (user_pid_vars env) 0 template) <> 0%nat.
Proof.
  intros Hsafe Hidx.
  destruct (strstr template VAR_IDX) as [d|] eqn:E; [clear Hidx|done].
  apply strstr_Some in E as (a & b & -> & _ & Hp%is_prefix_true & _).
  rewrite Hp, user_pid_vars_passes by done.
  destruct (replace_keeps_IDX (cstr "{USER}") (user_name env))
    with (a := a) (r := drop (length VAR_IDX) b) as (a1 & r1 & E1);
    [not_in_cstring|done|].
  change ("$"%char :: cstr "{USER}") with VAR_USER in E1. rewrite E1.
  destruct (replace_keeps_IDX (cstr "{PID}") (fmt_u (to_guint (pid env))))
    with (a := a1) (r := r1) as (a2 & r2 & E2);
    [not_in_cstring|done|].
  change ("$"%char :: cstr "{PID}") with VAR_PID in E2. rewrite E2.
  apply (count_occurrence (cstr "{IDX}")).
Qed.

(** X3: when the template contains [${IDX}], every occurrence of the three
    variables is replaced, the index being printed in decimal, and no index
    suffix is added, for every index above -10^9 (a user name that forms no
    variable name with the text around it). *)
Theorem X3_index_variable (fuel : nat) (env : process_env) (template : cstring)
    (index : Z) :
  safe_value (user_name env) = true ->
  strstr template VAR_IDX <> None ->
  -1000000000 < index < 2 ^ 31 ->
  (dollars template <= fuel)%nat ->
  FileLoggerGetPath fuel env template index = Ok (expand_template env index template).
Proof.
  intros Hsafe Hidx Hrange Hfuel.
  rewrite FileLoggerGetPath_spec by done. cbv zeta.
  rewrite indexStr_exact by lia.
  destruct (Nat.eqb_spec
              (count_vars [(VAR_IDX, fmt_d index)] 0
                 (replace_vars (user_pid_vars env) 0 template)) 0) as [H0|_].
  - by apply user_pid_keep_IDX in H0.
  - by rewrite andb_false_r.
Qed.

Lemma X3_index_variable_witness :
  FileLoggerGetPath 4 {| user_name := cstr "root"; pid := 4242; win32 := false |}
    (cstr "/var/log/${USER}/vmsvc.${IDX}.${PID}.log.${IDX}") 12
  = Ok (cstr "/var/log/root/vmsvc.12.4242.log.12").
Proof.
  apply (X3_index_variable 4 {| user_name := cstr "root"; pid := 4242; win32 := false |}
           (cstr "/var/log/${USER}/vmsvc.${IDX}.${PID}.log.${IDX}") 12).
  - reflexivity.
  - discriminate.
  - lia.
  - vm_compute. lia.
Defined.

(** ** Opening a file that is appended to *)

(** X4: when the active file exists, [append] is set and the file is
    smaller than [maxSize], [FileLoggerOpen] renames and removes nothing: it
    sets [logSize] to the size of the file and opens it in mode ["a"], so
    that the content stays. *)
Theorem X4_append_keeps_file (fuel : nat) (env : process_env) (data : FileLogger)
    (w : world) (path0 content : cstring) :
  FileLoggerGetPath fuel env (path data) 0 = Ok path0 ->
  fs w !! path0 = Some (RegularFile content) ->
  stat_denied w path0 = false ->
  append data = true ->
  Z.of_nat (length content) < maxSize data ->
  Z.of_nat (length content) < 2 ^ 31 ->
  exists w',
    FileLoggerOpen fuel env data w
    = Ok (if fopen_denied w path0 then None else Some path0,
          set_logSize data (Z.of_nat (length content)), w') /\
    fs w' = fs w /\
    trace w' = trace w ++ [call_file_test path0 G_FILE_TEST_EXISTS;
                           call_stat path0; call_fopen path0 mode_a].
Proof.
  intros Hp Hf Hstat Happ Hsize Hint.
  unfold FileLoggerOpen. rewrite Hp.
  cbn [mbind result_bind bind_result g_file_test g_stat fs record_call stat_denied].
  rewrite Hf, Hstat. cbn [node_size]. rewrite to_gint_small by lia.
  cbn [append set_logSize]. rewrite Happ. unfold size_reached.
  cbn [maxSize logSize set_logSize negb orb].
  rewrite to_guint64_small by lia.
  destruct (Z.leb_spec (maxSize data) (Z.of_nat (length content))) as [|_]; [lia|].
  cbn [mbind result_bind bind_result].
  change (append (set_logSize data (Z.of_nat (length content)))) with (append data).
  rewrite Happ.
  unfold g_fopen. cbn [fs record_call fopen_denied]. rewrite Hf.
  destruct (fopen_denied w path0); eexists; (split; [reflexivity|]);
    cbn [fs trace record_call]; by rewrite <- !(assoc_L (++)).
Qed.

Lemma X4_append_keeps_file_witness :
  let env := {| user_name := cstr "root"; pid := 4242; win32 := false |} in
  let active := cstr "/var/log/app.log" in
  let data := {| file := None; path := active; logSize := 0; maxSize := 1048576;
                 maxFiles := 2; append := true; error := false |} in
  let w := {| fs := {[ active := RegularFile (cstr "earlier messages") ]};
              stat_denied := fun _ => false; unlink_denied := fun _ => false;
              rename_denied := fun _ _ => false; fopen_denied := fun _ => false;
              trace := [] |} in
  exists w',
    FileLoggerOpen 0 env data w = Ok (Some active, set_logSize data 16, w') /\
    fs w' = fs w /\
    trace w' = [call_file_test active G_FILE_TEST_EXISTS;
                call_stat active; call_fopen active mode_a].
Proof.
  intros env active data w.
  apply (X4_append_keeps_file 0 env data w active (cstr "earlier messages")).
  - reflexivity.
  - reflexivity.
  - reflexivity.
  - reflexivity.
  - reflexivity.
  - reflexivity.
Defined.

(** ** The largest number of backups *)

(** X5: [maxFiles + 1] is computed in 32 bits, so the largest [guint]
    gives a logger with [maxFiles = 0].  When that logger rotates an
    existing file, the array of names stays empty, [logfiles->len - 1] wraps
    around and the renaming loop reads outside the array. *)
Theorem X5_maxFiles_wraps_to_zero (fuel : nat) (env : process_env)
    (path_ : cstring) (maxSize_ : Z) (w : world) (path0 : cstring) (n : node) :
  FileLoggerGetPath fuel env path_ 0 = Ok path0 ->
  fs w !! path0 = Some n ->
  exists data,
    GlibUtils_CreateFileLogger path_ false maxSize_ 4294967295 = Some data /\
    maxFiles data = 0 /\
    FileLoggerOpen fuel env data w = Undefined.
Proof.
  intros Hp Hf. eexists. split; [reflexivity|]. split; [reflexivity|].
  unfold FileLoggerOpen. cbn [path]. rewrite Hp.
  cbn [mbind result_bind bind_result g_file_test g_stat fs record_call stat_denied].
  rewrite Hf. by destruct (stat_denied w path0).
Qed.

Lemma X5_maxFiles_wraps_to_zero_witness :
  let env := {| user_name := cstr "root"; pid := 4242; win32 := false |} in
  let active := cstr "/var/log/app.log" in
  let w := {| fs := {[ active := RegularFile (cstr "earlier messages") ]};
              stat_denied := fun _ => false; unlink_denied := fun _ => false;
              rename_denied := fun _ _ => false; fopen_denied := fun _ => false;
              trace := [] |} in
  exists data,
    GlibUtils_CreateFileLogger active false 1 4294967295 = Some data /\
    maxFiles data = 0 /\
    FileLoggerOpen 0 env data w = Undefined.
Proof.
  intros env active w.
  apply (X5_maxFiles_wraps_to_zero 0 env active 1 w active
           (RegularFile (cstr "earlier messages"))).
  - reflexivity.
  - reflexivity.
Defined.

(** ** The paths FileLoggerOpen works on *)

Lemma g_unlink_frame (w : world) (p q : cstring) :
  q <> p -> fs (g_unlink w p).2 !! q = fs w !! q.
Proof.
  intros Hq. unfold g_unlink.
  destruct (fs w !! p) as [[c|sz]|]; try done.
  destruct (unlink_denied w p); [done|].
  cbn [snd fs with_fs]. by rewrite lookup_delete_ne.
Qed.

Lemma g_rename_frame (w : world) (src dest q : cstring) :
  q <> src -> q <> dest -> fs (g_rename w src dest).2 !! q = fs w !! q.
Proof.
  intros Hs Hd. unfold g_rename.
  destruct (fs w !! src) as [n|]; [|done].
  destruct (rename_denied w src dest); [done|].
  case_bool_decide; [done|].
  destruct n, (fs w !! dest) as [[?|?]|]; try done;
    cbn [snd fs with_fs]; by rewrite lookup_insert_ne, lookup_delete_ne.
Qed.

Lemma rename_one_frame (w : world) (src dest q : cstring) :
  q <> src -> q <> dest -> fs (rename_one w src dest) !! q = fs w !! q.
Proof.
  intros Hs Hd. unfold rename_one, g_file_test.
  set (w1 := record_call w _).
  destruct (match fs w !! dest with Some (Directory _) => true | _ => false end).
  { by rewrite g_unlink_frame. }
  set (w2 := record_call w1 _).
  destruct (match fs w1 !! dest with Some _ => true | None => false end); cbn [negb].
  - destruct (g_unlink w2 dest) as [unlinked w3] eqn:E.
    pose proof (g_unlink_frame w2 dest q Hd) as H3. rewrite E in H3. cbn [snd] in H3.
    destruct unlinked.
    + by rewrite g_rename_frame, H3.
    + by rewrite g_unlink_frame, H3.
  - by rewrite g_rename_frame.
Qed.

Lemma rename_logs_frame (id : nat) (logfiles : list cstring) (w w' : world)
    (q : cstring) :
  rename_logs id logfiles w = Ok w' -> q ∉ logfiles -> fs w' !! q = fs w !! q.
Proof.
  revert w. induction id as [|id IH]; intros w; cbn [rename_logs].
  - by intros [= <-].
  - destruct (logfiles !! S id) as [dest|] eqn:Ed; [|done].
    destruct (logfiles !! id) as [src|] eqn:Es; [|done].
    intros Hrun Hq. rewrite (IH _ Hrun Hq).
    apply rename_one_frame; intros ->; apply Hq; by eapply list_elem_of_lookup_2.
Qed.

Lemma g_fopen_frame (w : world) (p q : cstring) (m : open_mode) :
  q <> p -> fs (g_fopen w p m).2 !! q = fs w !! q.
Proof.
  intros Hq. unfold g_fopen. destruct (fopen_denied w p); [done|].
  destruct (fs w !! p) as [[?|?]|], m; try done;
    cbn [snd fs with_fs]; by rewrite lookup_insert_ne.
Qed.

(** The names the first loop collects are expansions of the template. *)
Lemma find_last_log_paths (fuel : nat) (env : process_env) (data : FileLogger)
    (n : nat) (id : Z) (logfiles lf : list cstring) (w w' : world) :
  find_last_log fuel env data n id logfiles w = Ok (lf, w') ->
  fs w' = fs w /\
  exists more, lf = logfiles ++ more /\
    Forall (fun p => exists index,
              FileLoggerGetPath fuel env (path data) index = Ok p) more.
Proof.
  revert id logfiles w. induction n as [|n IH]; intros id logfiles w;
    cbn [find_last_log].
  - intros [= <- <-]. split; [done|]. exists []. by rewrite app_nil_r.
  - destruct (FileLoggerGetPath fuel env (path data) (to_gint id)) as [log| |] eqn:E;
      cbn [mbind result_bind bind_result]; [|done|done].
    unfold g_file_test.
    destruct (match fs w !! log with Some (RegularFile _) => true | _ => false end).
    + intros (Hfs & more & -> & Hmore)%IH. split; [done|].
      exists (log :: more). rewrite <- (assoc_L (++)). split; [done|].
      constructor; [by eexists|done].
    + intros [= <- <-]. split; [done|]. exists [log]. split; [done|].
      constructor; [by eexists|done].
Qed.

(** What [FileLoggerOpen] leaves alone: every path that is not an expansion
    of the template, and every field of the logger but [logSize] and
    [append], which it never sets to [TRUE]. *)
Lemma FileLoggerOpen_frame (fuel : nat) (env : process_env) (data data' : FileLogger)
    (w w' : world) (f : option cstring) :
  FileLoggerOpen fuel env data w = Ok (f, data', w') ->
  (forall q, (forall index, FileLoggerGetPath fuel env (path data) index <> Ok q) ->
     fs w' !! q = fs w !! q) /\
  path data' = path data /\ maxSize data' = maxSize data /\
  maxFiles data' = maxFiles data /\ file data' = file data /\
  error data' = error data /\ (append data = false -> append data' = false).
Proof.
  unfold FileLoggerOpen.
  destruct (FileLoggerGetPath fuel env (path data) 0) as [path0| |] eqn:Hp;
    cbn [mbind result_bind bind_result]; [|done|done].
  unfold g_file_test at 1.
  set (w1 := record_call w _).
  destruct (match fs w !! path0 with Some _ => true | None => false end).
  - unfold g_stat. set (w2 := record_call w1 _).
    set (data1 := match (match fs w1 !! path0 with
                         | Some n => if stat_denied w1 path0 then None
                                     else Some (node_size n)
                         | None => None end) with
                  | Some st_size => set_logSize data (to_gint st_size)
                  | None => data end).
    assert (path data1 = path data /\ maxSize data1 = maxSize data /\
            maxFiles data1 = maxFiles data /\ file data1 = file data /\
            error data1 = error data /\ append data1 = append data)
      as (Hpath & Hsize & Hfiles & Hfile & Herr & Happ).
    { unfold data1. by destruct (match fs w1 !! path0 with
                                  | Some n => if stat_denied w1 path0 then None
                                              else Some (node_size n)
                                  | None => None end). }
    destruct (negb (append data1) || size_reached data1).
    + destruct (find_last_log fuel env data1 (Z.to_nat (maxFiles data1)) 0 [] w2)
        as [[lf w3]| |] eqn:Efind; cbn [mbind result_bind bind_result]; [|done|done].
      apply find_last_log_paths in Efind as (Hfs3 & more & Hlf & Hmore).
      rewrite app_nil_l in Hlf. subst lf. rewrite Hpath in Hmore.
      destruct (Nat.eqb (length more) 0); [done|].
      destruct (rename_logs (length more - 1) more w3) as [w4| |] eqn:Eren;
        cbn [mbind result_bind bind_result]; [|done|done].
      destruct (g_fopen w4 path0 _) as [logfile w5] eqn:Eopen.
      intros [= <- <- <-]. split; [|done].
      intros q Hq.
      pose proof (g_fopen_frame w4 path0 q
                    (if append (set_append (set_logSize data1 0) false)
                     then mode_a else mode_w)) as H5.
      rewrite Eopen in H5. cbn [snd] in H5.
      rewrite H5 by (intros ->; by apply (Hq 0)).
      rewrite (rename_logs_frame _ _ _ _ q Eren), Hfs3; [done|].
      intros Hin. apply (proj1 (Forall_forall _ _) Hmore) in Hin as [index Hin].
      by apply (Hq index).
    + cbn [mbind result_bind bind_result].
      destruct (g_fopen w2 path0 _) as [logfile w5] eqn:Eopen.
      intros [= <- <- <-]. split; [|by rewrite Happ].
      intros q Hq.
      pose proof (g_fopen_frame w2 path0 q (if append data1 then mode_a else mode_w))
        as H5.
      rewrite Eopen in H5. cbn [snd] in H5.
      by rewrite H5 by (intros ->; by apply (Hq 0)).
  - cbn [mbind result_bind bind_result].
    destruct (g_fopen w1 path0 _) as [logfile w5] eqn:Eopen.
    intros [= <- <- <-]. split; [|done].
    intros q Hq.
    pose proof (g_fopen_frame w1 path0 q (if append data then mode_a else mode_w))
      as H5.
    rewrite Eopen in H5. cbn [snd] in H5.
    by rewrite H5 by (intros ->; by apply (Hq 0)).
Qed.

(** [FileLoggerOpen] returns whenever the expansion of the template does and
    the logger has a slot for the active file; the stream it returns is the
    one of the active file. *)
Lemma FileLoggerOpen_total (fuel : nat) (env : process_env) (data : FileLogger)
    (w : world) (path0 : cstring) :
  0 < maxFiles data ->
  FileLoggerGetPath fuel env (path data) 0 = Ok path0 ->
  exists f data' w',
    FileLoggerOpen fuel env data w = Ok (f, data', w') /\
    (f = None \/ f = Some path0).
Proof.
  intros Hmax Hp.
  pose proof (FileLoggerGetPath_total _ _ _ _ Hp) as Htotal.
  assert (forall w m, (g_fopen w path0 m).1 = None \/ (g_fopen w path0 m).1 = Some path0)
    as Hopen.
  { intros w0 m. unfold g_fopen. destruct (fopen_denied w0 path0); [by left|].
    destruct (fs w0 !! path0) as [[?|?]|], m; auto. }
  unfold FileLoggerOpen. rewrite Hp. cbn [mbind result_bind bind_result].
  unfold g_file_test at 1. set (w1 := record_call w _).
  destruct (match fs w !! path0 with Some _ => true | None => false end).
  - unfold g_stat. set (w2 := record_call w1 _).
    set (data1 := match _ with
                  | Some st_size => set_logSize data (to_gint st_size)
                  | None => data end).
    assert (path data1 = path data /\ maxFiles data1 = maxFiles data) as [Hpath Hfiles].
    { unfold data1. by destruct (match fs w1 !! path0 with
                                  | Some n => if stat_denied w1 path0 then None
                                              else Some (node_size n)
                                  | None => None end). }
    destruct (negb (append data1) || size_reached data1).
    + destruct (find_last_log_calls fuel env data1 (Z.to_nat (maxFiles data1)) 0 [] w2)
        as (more & w3 & t3 & -> & Hmore & _); [by rewrite Hpath|].
      cbn [mbind result_bind bind_result]. rewrite app_nil_l.
      specialize (Hmore ltac:(lia)).
      destruct more as [|log more]; [done|]. cbn [length Nat.eqb].
      destruct (rename_logs_calls (S (length more) - 1) (log :: more) w3)
        as (w4 & t4 & -> & _); [cbn [length]; lia|].
      cbn [mbind result_bind bind_result].
      specialize (Hopen w4 (if append (set_append (set_logSize data1 0) false)
                            then mode_a else mode_w)).
      destruct (g_fopen w4 path0 _) as [logfile w5]. by eexists _, _, _.
    + cbn [mbind result_bind bind_result].
      specialize (Hopen w2 (if append data1 then mode_a else mode_w)).
      destruct (g_fopen w2 path0 _) as [logfile w5]. by eexists _, _, _.
  - cbn [mbind result_bind bind_result].
    specialize (Hopen w1 (if append data then mode_a else mode_w)).
    destruct (g_fopen w1 path0 _) as [logfile w5]. by eexists _, _, _.
Qed.

(** X6: [FileLoggerOpen] returns (the template expands, [maxFiles] is not
    0), and whatever it renames, removes or creates is an expansion of the
    template: a path that no index expands to holds after the call what it
    held before.  The configuration of the logger is unchanged. *)
Theorem X6_open_touches_log_paths_only (fuel : nat) (env : process_env)
    (data : FileLogger) (w : world) (path0 : cstring) :
  0 < maxFiles data ->
  FileLoggerGetPath fuel env (path data) 0 = Ok path0 ->
  exists f data' w',
    FileLoggerOpen fuel env data w = Ok (f, data', w') /\
    (forall q, (forall index, FileLoggerGetPath fuel env (path data) index <> Ok q) ->
       fs w' !! q = fs w !! q) /\
    path data' = path data /\ maxSize data' = maxSize data /\
    maxFiles data' = maxFiles data.
Proof.
  intros Hmax Hp.
  destruct (FileLoggerOpen_total fuel env data w path0 Hmax Hp)
    as (f & data' & w' & Hopen & _).
  exists f, data', w'. split; [done|].
  by apply FileLoggerOpen_frame in Hopen as (? & ? & ? & ? & _).
Qed.

Lemma X6_open_touches_log_paths_only_witness :
  let env := {| user_name := cstr "root"; pid := 4242; win32 := false |} in
  let data := {| file := None; path := cstr "/var/log/app.log"; logSize := 0;
                 maxSize := 0; maxFiles := 3; append := false; error := false |} in
  let w := {| fs := {[ cstr "/var/log/app.log" := RegularFile (cstr "newer");
                       cstr "/var/log/app.1.log" := RegularFile (cstr "older");
                       cstr "/var/log/other.log" := RegularFile (cstr "other") ]};
              stat_denied := fun _ => false; unlink_denied := fun _ => false;
              rename_denied := fun _ _ => false; fopen_denied := fun _ => false;
              trace := [] |} in
  exists f data' w',
    FileLoggerOpen 0 env data w = Ok (f, data', w') /\
    (forall q, (forall index, FileLoggerGetPath 0 env (path data) index <> Ok q) ->
       fs w' !! q = fs w !! q) /\
    path data' = path data /\ maxSize data' = maxSize data /\
    maxFiles data' = maxFiles data.
Proof.
  intros env data w.
  apply (X6_open_touches_log_paths_only 0 env data w (cstr "/var/log/app.log")).
  - reflexivity.
  - reflexivity.
Defined.

(** ** The rotation chain in general *)

(** The destination of a renaming is free, or holds a regular file whose
    removal is not refused: the source takes its place. *)
Lemma rename_one_shift (w : world) (src dest content : cstring) :
  fs w !! src = Some (RegularFile content) -> src <> dest ->
  rename_denied w src dest = false ->
  fs w !! dest = None \/
    ((exists old, fs w !! dest = Some (RegularFile old))
     /\ unlink_denied w dest = false) ->
  fs (rename_one w src dest) !! dest = Some (RegularFile content) /\
  fs (rename_one w src dest) !! src = None /\
  forall q, q <> src -> q <> dest -> fs (rename_one w src dest) !! q = fs w !! q.
Proof.
  intros Hsrc Hne Hren Hdest.
  split; [|split; [|intros q Hq1 Hq2; by apply rename_one_frame]].
  - destruct Hdest as [Hdest|[[old Hdest] Hunl]].
    + rewrite rename_one_to_free_name with (content := content) by done.
      by rewrite lookup_insert_eq.
    + unfold rename_one, g_file_test. cbn [fs record_call]. rewrite Hdest.
      cbn [negb]. unfold g_unlink. cbn [fs record_call unlink_denied].
      rewrite Hdest, Hunl. unfold g_rename.
      cbn [snd fs record_call with_fs rename_denied].
      rewrite lookup_delete_ne, Hsrc, Hren by done.
      rewrite bool_decide_eq_false_2 by done.
      rewrite lookup_delete_eq. cbn [snd fs with_fs]. by rewrite lookup_insert_eq.
  - destruct Hdest as [Hdest|[[old Hdest] Hunl]].
    + rewrite rename_one_to_free_name with (content := content) by done.
      by rewrite lookup_insert_ne, lookup_delete_eq.
    + unfold rename_one, g_file_test. cbn [fs record_call]. rewrite Hdest.
      cbn [negb]. unfold g_unlink. cbn [fs record_call unlink_denied].
      rewrite Hdest, Hunl. unfold g_rename.
      cbn [snd fs record_call with_fs rename_denied].
      rewrite lookup_delete_ne, Hsrc, Hren by done.
      rewrite bool_decide_eq_false_2 by done.
      rewrite lookup_delete_eq. cbn [snd fs with_fs].
      by rewrite lookup_insert_ne, lookup_delete_eq.
Qed.

Section chain.
Context (fuel : nat) (env : process_env) (data : FileLogger).
Context (p c : nat -> cstring) (m : nat).
Context (Hm : Z.of_nat m < 2 ^ 31).
Context (Hp : forall i, (i <= m)%nat ->
  FileLoggerGetPath fuel env (path data) (Z.of_nat i) = Ok (p i)).

Lemma chain_paths_differ (i j : nat) :
  (i <= m)%nat -> (j <= m)%nat -> i <> j -> p i <> p j.
Proof.
  intros Hi Hj Hij.
  apply (FileLoggerGetPath_differ fuel env (path data) (Z.of_nat i) (Z.of_nat j));
    try lia; by apply Hp.
Qed.

Lemma chain_lookup (i : nat) :
  (i <= m)%nat -> map p (seq 0 (S m)) !! i = Some (p i).
Proof.
  intros Hi. rewrite list_lookup_fmap.
  by rewrite (lookup_seq_lt 0 (S m) i) by lia.
Qed.

(** The first loop collects the names up to index [m]. *)
Lemma find_last_log_chain (n a : nat) (logfiles : list cstring) (w : world) :
  (a <= m)%nat -> (m < a + n)%nat ->
  (forall i, (a <= i < m)%nat -> exists content, fs w !! p i = Some (RegularFile content)) ->
  fs w !! p m = None \/ (a + n = S m)%nat ->
  exists w' t,
    find_last_log fuel env data n (Z.of_nat a) logfiles w
    = Ok (logfiles ++ map p (seq a (S m - a)), w') /\
    fs w' = fs w /\ after_calls w w' t.
Proof.
  revert a logfiles w. induction n as [|n IH]; intros a logfiles w Ha Hn Hreg Hstop;
    [lia|].
  cbn [find_last_log]. rewrite to_gint_small by lia. rewrite Hp by done.
  cbn [mbind result_bind bind_result]. unfold g_file_test.
  set (w1 := record_call w _).
  assert (after_calls w w1 [call_file_test (p a) G_FILE_TEST_IS_REGULAR]) as Hw1
    by apply after_calls_record.
  destruct (decide (a = m)) as [->|Hne].
  - replace (S m - m)%nat with 1%nat by lia. cbn [seq map].
    destruct (fs w !! p m) as [[content|sz]|] eqn:E.
    + destruct Hstop as [?|Hstop]; [done|].
      assert (n = 0%nat) as -> by lia. cbn [find_last_log]. by exists w1, [call_file_test (p m) G_FILE_TEST_IS_REGULAR].
    + by exists w1, [call_file_test (p m) G_FILE_TEST_IS_REGULAR].
    + by exists w1, [call_file_test (p m) G_FILE_TEST_IS_REGULAR].
  - destruct (Hreg a ltac:(lia)) as [content ->].
    replace (Z.of_nat a + 1) with (Z.of_nat (S a)) by lia.
    destruct (IH (S a) (logfiles ++ [p a]) w1) as (w' & t & -> & Hfs & Ht);
      [lia|lia|intros i Hi; apply Hreg; lia|destruct Hstop; [by left|right; lia]|].
    exists w', ([call_file_test (p a) G_FILE_TEST_IS_REGULAR] ++ t).
    rewrite <- (assoc_L (++)).
    replace (S m - a)%nat with (S (S m - S a)) by lia. cbn [seq map].
    split; [done|]. split; [done|]. by eapply after_calls_trans.
Qed.

(** The second loop moves every file one index up, from the last to the
    first. *)
Lemma rename_logs_chain (j : nat) (w : world) :
  (j <= m)%nat ->
  (forall i, (i < j)%nat -> fs w !! p i = Some (RegularFile (c i))) ->
  (fs w !! p j = None \/
   ((exists old, fs w !! p j = Some (RegularFile old))
    /\ unlink_denied w (p j) = false)) ->
  (forall i, (i < j)%nat -> rename_denied w (p i) (p (S i)) = false) ->
  exists w',
    rename_logs j (map p (seq 0 (S m))) w = Ok w' /\
    (forall i, (i < j)%nat -> fs w' !! p (S i) = Some (RegularFile (c i))) /\
    ((0 < j)%nat -> fs w' !! p 0 = None) /\
    (j = 0%nat -> fs w' = fs w) /\
    (forall q, (forall i, (i <= j)%nat -> q <> p i) -> fs w' !! q = fs w !! q) /\
    fopen_denied w' = fopen_denied w.
Proof.
  revert w. induction j as [|j IH]; intros w Hj Hfiles Hdest Hren.
  - exists w. cbn [rename_logs]. split; [done|]. split; [lia|]. split; [lia|done].
  - cbn [rename_logs]. rewrite !chain_lookup by lia.
    destruct (rename_one_shift w (p j) (p (S j)) (c j)) as (Hd & Hs & Hframe);
      [apply Hfiles; lia|apply chain_paths_differ; lia|apply Hren; lia|done|].
    destruct (rename_one_calls w (p j) (p (S j)))
      as (t & (_ & _ & _ & Hren1 & Hop1) & _).
    set (w1 := rename_one w (p j) (p (S j))) in *.
    destruct (IH w1) as (w' & -> & Hup & H0 & Hsame & Hfr & Hop); [lia|..].
    { intros i Hi. rewrite Hframe by (apply chain_paths_differ; lia).
      apply Hfiles. lia. }
    { by left. }
    { intros i Hi. rewrite Hren1. apply Hren. lia. }
    exists w'. split; [done|]. split; [|split; [|split; [lia|split]]].
    + intros i Hi. destruct (decide (i = j)) as [->|Hne]; [|apply Hup; lia].
      rewrite Hfr; [done|]. intros i Hi'. apply chain_paths_differ; lia.
    + intros _. destruct j as [|j]; [|apply H0; lia].
      by rewrite Hsame.
    + intros q Hq. rewrite Hfr by (intros i Hi; apply Hq; lia).
      apply Hframe; apply Hq; lia.
    + by rewrite Hop.
Qed.

End chain.

Lemma FileLoggerOpen_chain (fuel : nat) (env : process_env) (data : FileLogger)
    (w : world) (p c : nat -> cstring) (m : nat) :
  (0 < m)%nat -> Z.of_nat m < maxFiles data -> maxFiles data <= 2 ^ 31 ->
  (forall i, (i <= m)%nat ->
     FileLoggerGetPath fuel env (path data) (Z.of_nat i) = Ok (p i)) ->
  (forall i, (i < m)%nat -> fs w !! p i = Some (RegularFile (c i))) ->
  fs w !! p m = None \/
    (Z.of_nat m + 1 = maxFiles data /\
     (exists old, fs w !! p m = Some (RegularFile old)) /\
     unlink_denied w (p m) = false) ->
  negb (append data)
  || size_reached (if stat_denied w (p 0%nat) then data
                   else set_logSize data (to_gint (Z.of_nat (length (c 0%nat))))) = true ->
  (forall i, (i < m)%nat -> rename_denied w (p i) (p (S i)) = false) ->
  fopen_denied w (p 0%nat) = false ->
  exists data' w',
    FileLoggerOpen fuel env data w = Ok (Some (p 0%nat), data', w') /\
    (forall i, (i < m)%nat -> fs w' !! p (S i) = Some (RegularFile (c i))) /\
    fs w' !! p 0%nat = Some (RegularFile []) /\
    (forall q, (forall i, (i <= m)%nat -> q <> p i) -> fs w' !! q = fs w !! q) /\
    logSize data' = 0 /\ append data' = false.
Proof.
  intros Hm Hmax Hmax31 Hp Hfiles Hlast Hrot Hren Hopen.
  pose proof (Hfiles 0%nat Hm) as Hf0.
  pose proof (Hp 0%nat ltac:(lia)) as Hp0. change (Z.of_nat 0) with 0 in Hp0.
  unfold FileLoggerOpen. rewrite Hp0.
  cbn [mbind result_bind bind_result g_file_test g_stat fs record_call stat_denied].
  rewrite Hf0. cbn [node_size].
  set (data1 := match (if stat_denied w (p 0%nat) then None else _) with
                | Some st_size => set_logSize data (to_gint st_size)
                | None => data end).
  assert (data1 = if stat_denied w (p 0%nat) then data
                  else set_logSize data (to_gint (Z.of_nat (length (c 0%nat)))))
    as Hdata1 by (unfold data1; by destruct (stat_denied w (p 0%nat))).
  assert (append data1 = append data /\ path data1 = path data
          /\ maxFiles data1 = maxFiles data) as (Happ & Hpath & Hmax1)
    by (rewrite Hdata1; by destruct (stat_denied w (p 0%nat))).
  rewrite Happ, Hdata1, Hrot, <- Hdata1, Hmax1.
  set (w1 := record_call (record_call w _) _).
  assert (after_calls w w1 [call_file_test (p 0%nat) G_FILE_TEST_EXISTS;
                            call_stat (p 0%nat)]) as Hw1
    by (unfold after_calls, w1; cbn; by rewrite <- !(assoc_L (++))).
  destruct (find_last_log_chain fuel env data1 p m ltac:(lia)
              ltac:(by rewrite Hpath) (Z.to_nat (maxFiles data)) 0 [] w1)
    as (w2 & t2 & Hfind & Hfs2 & Hw2).
  { lia. }
  { lia. }
  { intros i Hi. exists (c i). apply Hfiles. lia. }
  { destruct Hlast as [?|[? _]]; [by left|right; lia]. }
  change (Z.of_nat 0) with 0 in Hfind. rewrite Hfind.
  cbn [mbind result_bind bind_result]. rewrite app_nil_l, Nat.sub_0_r.
  rewrite length_map, length_seq. cbn [Nat.eqb]. rewrite Nat.sub_succ, Nat.sub_0_r.
  pose proof (after_calls_trans _ _ _ _ _ Hw1 Hw2) as (_ & _ & Hunl2 & Hren2 & Hop2).
  destruct (rename_logs_chain fuel env data p c m ltac:(lia) Hp m w2)
    as (w3 & -> & Hup & H0 & _ & Hframe & Hop3).
  { lia. }
  { intros i Hi. rewrite Hfs2. by apply Hfiles. }
  { rewrite Hfs2, Hunl2.
    destruct Hlast as [?|(_ & ? & ?)]; [by left|by right]. }
  { intros i Hi. rewrite Hren2. by apply Hren. }
  cbn [mbind result_bind bind_result append set_append].
  unfold g_fopen. rewrite Hop3, Hop2, Hopen, (H0 Hm).
  eexists _, _. split; [done|]. cbn [snd fs with_fs record_call].
  split; [|split; [by rewrite lookup_insert_eq|split; [|done]]].
  - intros i Hi. rewrite lookup_insert_ne
      by (apply (chain_paths_differ fuel env data p m); [lia|done|lia|lia|lia]).
    by apply Hup.
  - intros q Hq. rewrite lookup_insert_ne by (apply not_eq_sym, Hq; lia).
    by rewrite Hframe, Hfs2.
Qed.

(** X7: the rotation for any number of files.  With regular files at the
    indices 0 to [m - 1] and the slot [m] either free, or the last one the
    logger has ([m + 1 = maxFiles]) and holding a regular file that can be
    removed: an open that rotates moves the file of every index below [m]
    one index up, so that the oldest file is dropped when all slots are
    taken, creates an empty file at index 0 and changes no other path.
    The calls are taken not to be refused by the operating system. *)
Theorem X7_rotation_chain (fuel : nat) (env : process_env) (data : FileLogger)
    (w : world) (p c : nat -> cstring) (m : nat) :
  (0 < m)%nat -> Z.of_nat m < maxFiles data -> maxFiles data <= 2 ^ 31 ->
  (forall i, (i <= m)%nat ->
     FileLoggerGetPath fuel env (path data) (Z.of_nat i) = Ok (p i)) ->
  (forall i, (i < m)%nat -> fs w !! p i = Some (RegularFile (c i))) ->
  fs w !! p m = None \/
    (Z.of_nat m + 1 = maxFiles data /\
     (exists old, fs w !! p m = Some (RegularFile old)) /\
     unlink_denied w (p m) = false) ->
  negb (append data)
  || size_reached (if stat_denied w (p 0%nat) then data
                   else set_logSize data (to_gint (Z.of_nat (length (c 0%nat))))) = true ->
  (forall i, (i < m)%nat -> rename_denied w (p i) (p (S i)) = false) ->
  fopen_denied w (p 0%nat) = false ->
  exists data' w',
    FileLoggerOpen fuel env data w = Ok (Some (p 0%nat), data', w') /\
    (forall i, (i < m)%nat -> fs w' !! p (S i) = Some (RegularFile (c i))) /\
    fs w' !! p 0%nat = Some (RegularFile []) /\
    (forall q, (forall i, (i <= m)%nat -> q <> p i) -> fs w' !! q = fs w !! q) /\
    logSize data' = 0 /\ append data' = false.
Proof. apply FileLoggerOpen_chain. Qed.

Lemma X7_rotation_chain_witness :
  let env := {| user_name := cstr "root"; pid := 4242; win32 := false |} in
  let data := {| file := None; path := cstr "/var/log/app.log"; logSize := 0;
                 maxSize := 0; maxFiles := 3; append := false; error := false |} in
  let w := {| fs := {[ cstr "/var/log/app.log" := RegularFile (cstr "newest");
                       cstr "/var/log/app.1.log" := RegularFile (cstr "older");
                       cstr "/var/log/app.2.log" := RegularFile (cstr "oldest") ]};
              stat_denied := fun _ => false; unlink_denied := fun _ => false;
              rename_denied := fun _ _ => false; fopen_denied := fun _ => false;
              trace := [] |} in
  exists data' w',
    FileLoggerOpen 0 env data w = Ok (Some (cstr "/var/log/app.log"), data', w') /\
    fs w' !! cstr "/var/log/app.2.log" = Some (RegularFile (cstr "older")) /\
    fs w' !! cstr "/var/log/app.1.log" = Some (RegularFile (cstr "newest")) /\
    fs w' !! cstr "/var/log/app.log" = Some (RegularFile []).
Proof.
  intros env data w.
  destruct (X7_rotation_chain 0 env data w
              (fun i => nth i [cstr "/var/log/app.log"; cstr "/var/log/app.1.log";
                               cstr "/var/log/app.2.log"] [])
              (fun i => nth i [cstr "newest"; cstr "older"] []) 2)
    as (data' & w' & Hopen & Hup & H0 & _).
  - lia.
  - reflexivity.
  - discriminate.
  - intros [|[|[|i]]] Hi; [reflexivity|reflexivity|reflexivity|lia].
  - intros [|[|i]] Hi; [reflexivity|reflexivity|lia].
  - right. split; [reflexivity|]. split; [by eexists|reflexivity].
  - reflexivity.
  - intros i Hi. reflexivity.
  - reflexivity.
  - exists data', w'. split; [exact Hopen|].
    split; [exact (Hup 1%nat ltac:(lia))|].
    split; [exact (Hup 0%nat ltac:(lia))|exact H0].
Defined.

(** ** A directory in the way *)

(** X8: when the path of index 1 is a directory, an open that rotates
    cannot keep the active file: it removes it instead of renaming it, makes
    no [g_rename] call, leaves the directory alone and creates the active
    file empty. *)
Theorem X8_directory_in_backup_slot (fuel : nat) (env : process_env)
    (data : FileLogger) (w : world) (p0 p1 content : cstring) (sz : Z) :
  2 <= maxFiles data ->
  FileLoggerGetPath fuel env (path data) 0 = Ok p0 ->
  FileLoggerGetPath fuel env (path data) 1 = Ok p1 ->
  fs w !! p0 = Some (RegularFile content) ->
  fs w !! p1 = Some (Directory sz) ->
  negb (append data)
  || size_reached (if stat_denied w p0 then data
                   else set_logSize data (to_gint (Z.of_nat (length content)))) = true ->
  unlink_denied w p0 = false ->
  fopen_denied w p0 = false ->
  exists data' w',
    FileLoggerOpen fuel env data w = Ok (Some p0, data', w') /\
    fs w' = <[p0 := RegularFile []]> (fs w) /\
    trace w' = trace w ++ [call_file_test p0 G_FILE_TEST_EXISTS; call_stat p0;
                           call_file_test p0 G_FILE_TEST_IS_REGULAR;
                           call_file_test p1 G_FILE_TEST_IS_REGULAR;
                           call_file_test p1 G_FILE_TEST_IS_DIR;
                           call_unlink p0; call_fopen p0 mode_w].
Proof.
  intros Hmax Hp0 Hp1 Hf0 Hf1 Hrot Hunl Hopen.
  unfold FileLoggerOpen. rewrite Hp0.
  cbn [mbind result_bind bind_result g_file_test g_stat fs record_call stat_denied].
  rewrite Hf0. cbn [node_size].
  set (data1 := match (if stat_denied w p0 then None else _) with
                | Some st_size => set_logSize data (to_gint st_size)
                | None => data end).
  assert (data1 = if stat_denied w p0 then data
                  else set_logSize data (to_gint (Z.of_nat (length content))))
    as Hdata1 by (unfold data1; by destruct (stat_denied w p0)).
  assert (append data1 = append data /\ path data1 = path data
          /\ maxFiles data1 = maxFiles data) as (Happ & Hpath & Hmax1)
    by (rewrite Hdata1; by destruct (stat_denied w p0)).
  rewrite Happ, Hdata1, Hrot, <- Hdata1, Hmax1.
  destruct (Z.to_nat (maxFiles data)) as [|[|n]] eqn:En; [lia|lia|].
  cbn [find_last_log]. rewrite Hpath.
  change (to_gint 0) with 0. rewrite Hp0. cbn [mbind result_bind bind_result].
  unfold g_file_test at 1. cbn [fs record_call]. rewrite Hf0.
  change (to_gint (0 + 1)) with 1. rewrite Hp1. cbn [mbind result_bind bind_result].
  unfold g_file_test at 1. cbn [fs record_call]. rewrite Hf1.
  cbn [mbind result_bind bind_result app length Nat.eqb Nat.sub rename_logs
       lookup list_lookup].
  unfold rename_one, g_file_test. cbn [fs record_call]. rewrite Hf1.
  unfold g_unlink. cbn [fs record_call unlink_denied]. rewrite Hf0, Hunl.
  cbn [snd mbind result_bind bind_result append set_append].
  unfold g_fopen. cbn [fs record_call with_fs fopen_denied].
  rewrite Hopen, lookup_delete_eq.
  eexists _, _. split; [done|]. cbn [fs trace with_fs record_call].
  split; [by rewrite insert_delete_eq | by rewrite <- !(assoc_L (++))].
Qed.

Lemma X8_directory_in_backup_slot_witness :
  let env := {| user_name := cstr "root"; pid := 4242; win32 := false |} in
  let data := {| file := None; path := cstr "/var/log/app.log"; logSize := 0;
                 maxSize := 0; maxFiles := 2; append := false; error := false |} in
  let w := {| fs := {[ cstr "/var/log/app.log" := RegularFile (cstr "earlier");
                       cstr "/var/log/app.1.log" := Directory 4096 ]};
              stat_denied := fun _ => false; unlink_denied := fun _ => false;
              rename_denied := fun _ _ => false; fopen_denied := fun _ => false;
              trace := [] |} in
  exists data' w',
    FileLoggerOpen 0 env data w = Ok (Some (cstr "/var/log/app.log"), data', w') /\
    fs w' = <[cstr "/var/log/app.log" := RegularFile []]> (fs w) /\
    trace w' = [call_file_test (cstr "/var/log/app.log") G_FILE_TEST_EXISTS;
                call_stat (cstr "/var/log/app.log");
                call_file_test (cstr "/var/log/app.log") G_FILE_TEST_IS_REGULAR;
                call_file_test (cstr "/var/log/app.1.log") G_FILE_TEST_IS_REGULAR;
                call_file_test (cstr "/var/log/app.1.log") G_FILE_TEST_IS_DIR;
                call_unlink (cstr "/var/log/app.log");
                call_fopen (cstr "/var/log/app.log") mode_w].
Proof.
  intros env data w.
  apply (X8_directory_in_backup_slot 0 env data w (cstr "/var/log/app.log")
           (cstr "/var/log/app.1.log") (cstr "earlier") 4096).
  - discriminate.
  - reflexivity.
  - reflexivity.
  - reflexivity.
  - reflexivity.
  - reflexivity.
  - reflexivity.
  - reflexivity.
Defined.

(** ** The write that reaches the threshold *)

(** X9: the message that brings [logSize] to [maxSize] is written before
    the file is closed and rotated, so it is the end of the file that moves
    to index 1; the older files move one index up and the logger goes on
    with an empty active file and a counter of 0.  The slot [m] is free or
    the last one, as for the rotation on open. *)
Theorem X9_rotating_write (fuel : nat) (env : process_env) (logger : FileLogger)
    (w : world) (p c : nat -> cstring) (m : nat) (message : cstring) :
  file logger = Some (p 0%nat) -> error logger = false -> 0 < maxSize logger ->
  (0 < m)%nat -> Z.of_nat m < maxFiles logger -> maxFiles logger <= 2 ^ 31 ->
  (forall i, (i <= m)%nat ->
     FileLoggerGetPath fuel env (path logger) (Z.of_nat i) = Ok (p i)) ->
  (forall i, (i < m)%nat -> fs w !! p i = Some (RegularFile (c i))) ->
  fs w !! p m = None \/
    (Z.of_nat m + 1 = maxFiles logger /\
     (exists old, fs w !! p m = Some (RegularFile old)) /\
     unlink_denied w (p m) = false) ->
  0 <= logSize logger ->
  maxSize logger <= logSize logger + message_cost env message < 2 ^ 31 ->
  (forall i, (i < m)%nat -> rename_denied w (p i) (p (S i)) = false) ->
  fopen_denied w (p 0%nat) = false ->
  exists logger' w',
    FileLoggerLog fuel env message true logger w = Ok (logger', w') /\
    file logger' = Some (p 0%nat) /\ logSize logger' = 0 /\
    fs w' !! p 1%nat = Some (RegularFile (c 0%nat ++ message)) /\
    (forall i, (0 < i < m)%nat -> fs w' !! p (S i) = Some (RegularFile (c i))) /\
    fs w' !! p 0%nat = Some (RegularFile []).
Proof.
  intros Hfile Herr Hmax Hm Hfiles Hfiles31 Hp Hfs Hlast H0 [Hge Hint] Hren Hopen.
  assert (forall i j, (i <= m)%nat -> (j <= m)%nat -> i <> j -> p i <> p j) as Hdiff.
  { intros i j Hi Hj. apply (chain_paths_differ fuel env logger p m); [lia|done|done|done]. }
  unfold FileLoggerLog. rewrite Herr, Hfile.
  cbn [mbind result_bind bind_result]. rewrite Hfile.
  apply Z.ltb_lt in Hmax as ->.
  rewrite logSize_after_message by done.
  set (logger1 := set_logSize logger _).
  assert (size_reached logger1 = true) as ->.
  { unfold size_reached, logger1. cbn [maxSize logSize set_logSize].
    pose proof (message_cost_nonneg env message).
    rewrite to_guint64_small by lia. by apply Z.leb_le. }
  set (w1 := fclose _ (p 0%nat)).
  assert (fs w1 = <[p 0%nat := RegularFile (c 0%nat ++ message)]> (fs w)) as Hfs1.
  { unfold w1, fclose, fputs. by rewrite (Hfs 0%nat Hm). }
  assert (stat_denied w1 = stat_denied w /\ unlink_denied w1 = unlink_denied w
          /\ rename_denied w1 = rename_denied w /\ fopen_denied w1 = fopen_denied w)
    as (Hst1 & Hunl1 & Hren1 & Hop1).
  { unfold w1, fclose, fputs. by rewrite (Hfs 0%nat Hm). }
  destruct (FileLoggerOpen_chain fuel env (set_append logger1 false) w1 p
              (fun i => match i with O => c 0%nat ++ message | S _ => c i end) m)
    as (data' & w' & -> & Hup & Hnew & _ & Hsize & _); try done.
  - intros i Hi. rewrite Hfs1. destruct i as [|i].
    + by rewrite lookup_insert_eq.
    + rewrite lookup_insert_ne by (apply Hdiff; lia). by apply Hfs.
  - rewrite Hfs1, Hunl1, lookup_insert_ne by (apply Hdiff; lia). done.
  - intros i Hi. rewrite Hren1. by apply Hren.
  - by rewrite Hop1.
  - cbn [mbind result_bind bind_result]. eexists _, _. split; [done|].
    split; [done|]. split; [done|]. split; [exact (Hup 0%nat Hm)|]. split; [|done].
    intros [|i] Hi; [lia|]. apply (Hup (S i)). lia.
Qed.

Lemma X9_rotating_write_witness :
  let env := {| user_name := cstr "root"; pid := 4242; win32 := false |} in
  let h := cstr "/var/log/app.log" in
  let logger := {| file := Some h; path := h; logSize := 5; maxSize := 10;
                   maxFiles := 2; append := true; error := false |} in
  let w := {| fs := {[ h := RegularFile (cstr "abcde") ]};
              stat_denied := fun _ => false; unlink_denied := fun _ => false;
              rename_denied := fun _ _ => false; fopen_denied := fun _ => false;
              trace := [] |} in
  exists logger' w',
    FileLoggerLog 0 env (cstr "12345") true logger w = Ok (logger', w') /\
    file logger' = Some h /\ logSize logger' = 0 /\
    fs w' !! cstr "/var/log/app.1.log" = Some (RegularFile (cstr "abcde12345")) /\
    fs w' !! h = Some (RegularFile []).
Proof.
  intros env h logger w.
  destruct (X9_rotating_write 0 env logger w
              (fun i => nth i [h; cstr "/var/log/app.1.log"] [])
              (fun i => nth i [cstr "abcde"] []) 1 (cstr "12345"))
    as (logger' & w' & Hlog & Hfile & Hsize & H1 & _ & H0).
  - reflexivity.
  - reflexivity.
  - reflexivity.
  - lia.
  - reflexivity.
  - discriminate.
  - intros [|[|i]] Hi; [reflexivity|reflexivity|lia].
  - intros [|i] Hi; [reflexivity|lia].
  - left. reflexivity.
  - discriminate.
  - split; [discriminate|reflexivity].
  - intros i Hi. reflexivity.
  - reflexivity.
  - exists logger', w'. split; [exact Hlog|]. split; [exact Hfile|].
    split; [exact Hsize|]. split; [exact H1|exact H0].
Defined.

(** ** Logging without a size limit *)

Lemma FileLoggerLog_no_limit (fuel : nat) (env : process_env) (message : cstring)
    (ok : bool) (logger : FileLogger) (w : world) (h : cstring) :
  file logger = Some h -> error logger = false -> maxSize logger = 0 ->
  FileLoggerLog fuel env message ok logger w
  = Ok (logger, if ok then fflush (fputs w message h ok) h else fputs w message h ok).
Proof.
  intros Hfile Herr Hmax. unfold FileLoggerLog. rewrite Herr, Hfile.
  cbn [mbind result_bind bind_result]. rewrite Hfile, Hmax.
  by destruct ok.
Qed.

(** X10: with [maxSize = 0] and the file open, writing never rotates,
    whatever the number and the sizes of the messages: the logger and its
    counter stay as they are, the only calls are one [fputs] and one
    [fflush] for each message, and the file grows by the messages in their
    order. *)
Theorem X10_no_limit_never_rotates (fuel : nat) (env : process_env)
    (msgs : list cstring) (logger : FileLogger) (w : world) (h content : cstring) :
  file logger = Some h -> error logger = false -> maxSize logger = 0 ->
  fs w !! h = Some (RegularFile content) ->
  exists w',
    log_all fuel env (map (fun m => (m, true)) msgs) logger w = Ok (logger, w') /\
    trace w' = trace w ++ flat_map (fun m => [call_fputs h m; call_fflush h]) msgs /\
    fs w' !! h = Some (RegularFile (content ++ concat msgs)) /\
    forall q, q <> h -> fs w' !! q = fs w !! q.
Proof.
  intros Hfile Herr Hmax. revert w content.
  induction msgs as [|m msgs IH]; intros w content Hfs.
  - exists w. cbn. by rewrite !app_nil_r.
  - cbn [map log_all fst snd].
    rewrite (FileLoggerLog_no_limit fuel env m true logger w h) by done.
    cbn [mbind result_bind bind_result].
    set (w1 := fflush _ h).
    assert (fs w1 = <[h := RegularFile (content ++ m)]> (fs w)
            /\ trace w1 = trace w ++ [call_fputs h m; call_fflush h]) as [Hfs1 Ht1].
    { unfold w1, fflush, fputs. rewrite Hfs. cbn. by rewrite <- (assoc_L (++)). }
    destruct (IH w1 (content ++ m)) as (w' & -> & Ht & Hh & Hq).
    { by rewrite Hfs1, lookup_insert_eq. }
    exists w'. split; [done|]. split; [|split].
    + rewrite Ht, Ht1. cbn [flat_map]. by rewrite <- !(assoc_L (++)).
    + rewrite Hh. cbn [concat]. by rewrite (assoc_L (++)).
    + intros q Hne. by rewrite Hq, Hfs1, lookup_insert_ne by done.
Qed.

Lemma X10_no_limit_never_rotates_witness :
  let env := {| user_name := cstr "root"; pid := 4242; win32 := true |} in
  let h := cstr "/var/log/app.log" in
  let logger := {| file := Some h; path := h; logSize := 0; maxSize := 0;
                   maxFiles := 2; append := true; error := false |} in
  let w := {| fs := {[ h := RegularFile (cstr "a") ]};
              stat_denied := fun _ => false; unlink_denied := fun _ => false;
              rename_denied := fun _ _ => false; fopen_denied := fun _ => false;
              trace := [] |} in
  exists w',
    log_all 0 env [(cstr "b", true); (cstr "cd", true)] logger w = Ok (logger, w') /\
    trace w' = [call_fputs h (cstr "b"); call_fflush h;
                call_fputs h (cstr "cd"); call_fflush h] /\
    fs w' !! h = Some (RegularFile (cstr "abcd")) /\
    forall q, q <> h -> fs w' !! q = fs w !! q.
Proof.
  intros env h logger w.
  apply (X10_no_limit_never_rotates 0 env [cstr "b"; cstr "cd"] logger w h (cstr "a")).
  - reflexivity.
  - reflexivity.
  - reflexivity.
  - reflexivity.
Defined.

(** ** What a sequence of calls keeps *)

Ltac logger_fields :=
  intros [= <- <-];
  cbn [path maxSize maxFiles append error file set_file set_error set_append
       set_logSize] in *;
  repeat split; intros; try (intuition congruence).

(** What one call of [FileLoggerLog] keeps: the configuration; [append]
    once it is [FALSE]; that the stream, if there is one, is the one of the
    active file; and that a logger with its error flag set has no stream. *)
Lemma FileLoggerLog_keeps (fuel : nat) (env : process_env) (message : cstring)
    (ok : bool) (logger logger' : FileLogger) (w w' : world) (path0 : cstring) :
  FileLoggerGetPath fuel env (path logger) 0 = Ok path0 ->
  FileLoggerLog fuel env message ok logger w = Ok (logger', w') ->
  path logger' = path logger /\ maxSize logger' = maxSize logger /\
  maxFiles logger' = maxFiles logger /\
  (append logger = false -> append logger' = false) /\
  (error logger = true -> error logger' = true) /\
  ((file logger = None \/ file logger = Some path0) ->
   (file logger' = None \/ file logger' = Some path0)) /\
  ((error logger = true -> file logger = None) ->
   (error logger' = true -> file logger' = None)).
Proof.
  intros Hp. unfold FileLoggerLog.
  destruct (error logger) eqn:Herr.
  { logger_fields. }
  assert (forall l f l' w0 w1,
            path l = path logger ->
            FileLoggerOpen fuel env l w0 = Ok (f, l', w1) ->
            (f = None \/ f = Some path0) /\
            path l' = path l /\ maxSize l' = maxSize l /\ maxFiles l' = maxFiles l /\
            file l' = file l /\ error l' = error l /\
            (append l = false -> append l' = false)) as Hopen.
  { intros l f l' w0 w1 Hl Hrun. split.
    - unfold FileLoggerOpen in Hrun. rewrite Hl, Hp in Hrun.
      cbn [mbind result_bind bind_result] in Hrun.
      destruct (g_file_test w0 path0 G_FILE_TEST_EXISTS) as [ex w2].
      destruct (if ex then _ else _) as [[l2 w3]| |];
        cbn [mbind result_bind bind_result] in Hrun; [|done|done].
      destruct (g_fopen w3 path0 _) as [logfile w4] eqn:E.
      injection Hrun as <- _ _.
      apply (f_equal fst) in E. cbn [fst] in E. rewrite <- E.
      unfold g_fopen. destruct (fopen_denied w3 path0); [by left|].
      destruct (fs w3 !! path0) as [[?|?]|], (if append l2 then mode_a else mode_w);
        auto.
    - by apply FileLoggerOpen_frame in Hrun as (_ & ?). }
  destruct (file logger) as [h|] eqn:Hfile; cbn [mbind result_bind bind_result].
  - rewrite Hfile. destruct ok; [|logger_fields].
    destruct (0 <? maxSize logger); [|logger_fields].
    set (l1 := if win32 env then _ else _).
    assert (path l1 = path logger /\ maxSize l1 = maxSize logger /\
            maxFiles l1 = maxFiles logger /\ append l1 = append logger /\
            error l1 = false /\ file l1 = Some h) as (H1 & H2 & H3 & H4 & H5 & H6)
      by (unfold l1; by destruct (win32 env)).
    clearbody l1.
    destruct (size_reached l1); [|logger_fields].
    destruct (FileLoggerOpen fuel env (set_append l1 false) _) as [[[f l2] w2]| |] eqn:E;
      cbn [mbind result_bind bind_result]; [|done|done].
    apply Hopen in E as (Hf & E1 & E2 & E3 & E4 & E5 & E6); [|done].
    logger_fields.
  - destruct (FileLoggerOpen fuel env logger w) as [[[f l2] w2]| |] eqn:E;
      cbn [mbind result_bind bind_result]; [|done|done].
    apply Hopen in E as (Hf & E1 & E2 & E3 & E4 & E5 & E6); [|done].
    destruct f as [h|]; cbn [mbind result_bind bind_result file set_file set_error];
      [|logger_fields].
    destruct ok; [|logger_fields].
    destruct (0 <? maxSize (set_file l2 (Some h))); [|logger_fields].
    set (l1 := if win32 env then _ else _).
    assert (path l1 = path l2 /\ maxSize l1 = maxSize l2 /\
            maxFiles l1 = maxFiles l2 /\ append l1 = append l2 /\
            error l1 = false /\ file l1 = Some h) as (H1 & H2 & H3 & H4 & H5 & H6)
      by (unfold l1; destruct (win32 env); cbn; by rewrite E5, Herr).
    clearbody l1.
    destruct (size_reached l1); [|logger_fields].
    destruct (FileLoggerOpen fuel env (set_append l1 false) _)
      as [[[f3 l3] w3]| |] eqn:E';
      cbn [mbind result_bind bind_result]; [|done|done].
    apply Hopen in E' as (Hf3 & F1 & F2 & F3 & F4 & F5 & F6);
      [|cbn [path set_append]; congruence].
    logger_fields.
Qed.

(** [FileLoggerLog] returns whenever the template expands and the logger has
    a slot for the active file. *)
Lemma FileLoggerLog_total (fuel : nat) (env : process_env) (message : cstring)
    (ok : bool) (logger : FileLogger) (w : world) (path0 : cstring) :
  0 < maxFiles logger ->
  FileLoggerGetPath fuel env (path logger) 0 = Ok path0 ->
  exists logger' w', FileLoggerLog fuel env message ok logger w = Ok (logger', w').
Proof.
  intros Hmax Hp. unfold FileLoggerLog.
  destruct (error logger) eqn:Herr; [by eexists _, _|].
  assert (forall l w0, path l = path logger -> maxFiles l = maxFiles logger ->
            exists f l' w1, FileLoggerOpen fuel env l w0 = Ok (f, l', w1) /\
              path l' = path logger /\ maxFiles l' = maxFiles logger) as Hopen.
  { intros l w0 Hl Hm.
    destruct (FileLoggerOpen_total fuel env l w0 path0) as (f & l' & w1 & Hrun & _);
      [lia|congruence|].
    exists f, l', w1. split; [done|].
    apply FileLoggerOpen_frame in Hrun as (_ & ? & _ & ? & _). split; congruence. }
  assert (forall l w0 h, file l = Some h -> path l = path logger ->
            maxFiles l = maxFiles logger ->
            exists logger' w',
              (let w1 := fputs w0 message h ok in
               if ok then
                 if 0 <? maxSize l then
                   let l1 := set_logSize l
                     (to_gint (logSize l + to_gint (Z.of_nat (length message)))) in
                   let l2 := if win32 env
                             then set_logSize l1 (to_gint (logSize l1 + 1)) else l1 in
                   if size_reached l2 then
                     if size_reached l2 then
                       '(f, l3, w3) ← FileLoggerOpen fuel env (set_append l2 false)
                                        (fclose w1 h);
                       Ok (set_file l3 f, w3)
                     else Ok (l2, w1)
                   else Ok (l2, fflush w1 h)
                 else Ok (l, fflush w1 h)
               else Ok (l, w1)) = Ok (logger', w')) as Hwrite.
  { intros l w0 h Hfile Hl Hm. cbv zeta.
    destruct ok; [|by eexists _, _].
    destruct (0 <? maxSize l); [|by eexists _, _].
    set (l2 := if win32 env then _ else _).
    assert (path l2 = path logger /\ maxFiles l2 = maxFiles logger) as [H1 H2]
      by (unfold l2; by destruct (win32 env)).
    destruct (size_reached l2); [|by eexists _, _].
    destruct (Hopen (set_append l2 false) (fclose (fputs w0 message h true) h))
      as (f & l3 & w3 & -> & _); [done|done|].
    by eexists _, _. }
  destruct (file logger) as [h|] eqn:Hfile; cbn [mbind result_bind bind_result].
  - rewrite Hfile. by apply Hwrite.
  - destruct (Hopen logger w) as (f & l' & w1 & -> & Hl & Hm); [done|done|].
    cbn [mbind result_bind bind_result].
    destruct f as [h|]; cbn [mbind result_bind bind_result file set_file set_error];
      [|by eexists _, _].
    by apply (Hwrite (set_file l' (Some h)) w1 h).
Qed.

Lemma log_all_keeps (fuel : nat) (env : process_env) (msgs : list (cstring * bool))
    (logger : FileLogger) (w : world) (path0 : cstring) :
  0 < maxFiles logger ->
  FileLoggerGetPath fuel env (path logger) 0 = Ok path0 ->
  exists logger' w',
    log_all fuel env msgs logger w = Ok (logger', w') /\
    path logger' = path logger /\ maxSize logger' = maxSize logger /\
    maxFiles logger' = maxFiles logger /\
    (append logger = false -> append logger' = false) /\
    (error logger = true -> error logger' = true) /\
    ((file logger = None \/ file logger = Some path0) ->
     (file logger' = None \/ file logger' = Some path0)) /\
    ((error logger = true -> file logger = None) ->
     (error logger' = true -> file logger' = None)).
Proof.
  revert logger w. induction msgs as [|[message ok] msgs IH]; intros logger w Hmax Hp.
  - exists logger, w. by repeat split.
  - cbn [log_all].
    destruct (FileLoggerLog_total fuel env message ok logger w path0 Hmax Hp)
      as (l1 & w1 & Hlog).
    rewrite Hlog. cbn [mbind result_bind bind_result].
    apply (FileLoggerLog_keeps _ _ _ _ _ _ _ _ _ Hp) in Hlog
      as (H1 & H2 & H3 & H4 & H5 & H6 & H7).
    destruct (IH l1 w1) as (l2 & w2 & -> & I1 & I2 & I3 & I4 & I5 & I6 & I7);
      [congruence|congruence|].
    exists l2, w2. split; [done|]. repeat split; try congruence; auto.
Qed.

(** X11: from a logger with [maxFiles > 0] whose template expands, any
    sequence of [FileLoggerLog] calls returns, whatever the outcomes of the
    writes are; it leaves [path], [maxSize] and [maxFiles] as they were,
    never sets [append] again once it is [FALSE] and never clears
    [error]. *)
Theorem X11_log_keeps_configuration (fuel : nat) (env : process_env)
    (msgs : list (cstring * bool)) (logger : FileLogger) (w : world)
    (path0 : cstring) :
  0 < maxFiles logger ->
  FileLoggerGetPath fuel env (path logger) 0 = Ok path0 ->
  exists logger' w',
    log_all fuel env msgs logger w = Ok (logger', w') /\
    path logger' = path logger /\ maxSize logger' = maxSize logger /\
    maxFiles logger' = maxFiles logger /\
    (append logger = false -> append logger' = false) /\
    (error logger = true -> error logger' = true).
Proof.
  intros Hmax Hp.
  destruct (log_all_keeps fuel env msgs logger w path0 Hmax Hp)
    as (l & w' & ? & ? & ? & ? & ? & ? & _).
  by exists l, w'.
Qed.

Lemma X11_log_keeps_configuration_witness :
  let env := {| user_name := cstr "root"; pid := 4242; win32 := false |} in
  let logger := {| file := None; path := cstr "/var/log/app.log"; logSize := 0;
                   maxSize := 4; maxFiles := 2; append := true; error := false |} in
  let w := {| fs := ∅; stat_denied := fun _ => false; unlink_denied := fun _ => false;
              rename_denied := fun _ _ => false; fopen_denied := fun _ => false;
              trace := [] |} in
  let msgs := [(cstr "ab", true); (cstr "cd", false); (cstr "efg", true)] in
  exists logger' w',
    log_all 0 env msgs logger w = Ok (logger', w') /\
    path logger' = path logger /\ maxSize logger' = maxSize logger /\
    maxFiles logger' = maxFiles logger /\
    (append logger = false -> append logger' = false) /\
    (error logger = true -> error logger' = true).
Proof.
  intros env logger w msgs.
  apply (X11_log_keeps_configuration 0 env msgs logger w (cstr "/var/log/app.log")).
  - reflexivity.
  - reflexivity.
Defined.

(** X12: a logger made by [GlibUtils_CreateFileLogger] and used for any
    sequence of [FileLoggerLog] calls never has its error flag set and a
    stream open at once, and a stream it has is the one of the active file:
    [FileLoggerDestroy] closes that stream, and closes nothing when the
    error flag is set. *)
Theorem X12_destroy_after_logging (fuel : nat) (env : process_env)
    (path_ : cstring) (append_ : bool) (maxSize_ maxFiles_ : Z)
    (msgs : list (cstring * bool)) (w : world) (path0 : cstring) :
  0 <= maxFiles_ < 4294967295 ->
  FileLoggerGetPath fuel env path_ 0 = Ok path0 ->
  exists logger logger' w',
    GlibUtils_CreateFileLogger path_ append_ maxSize_ maxFiles_ = Some logger /\
    log_all fuel env msgs logger w = Ok (logger', w') /\
    (error logger' = true -> FileLoggerDestroy logger' w' = w') /\
    (file logger' = None \/ file logger' = Some path0) /\
    (file logger' <> None ->
     trace (FileLoggerDestroy logger' w') = trace w' ++ [call_fclose path0]).
Proof.
  intros Hfiles Hp. eexists. 
  set (logger := {| file := None; path := path_; logSize := 0;
                    maxSize := to_guint (to_guint (maxSize_ * 1024) * 1024);
                    maxFiles := to_guint (maxFiles_ + 1);
                    append := append_; error := false |}).
  destruct (log_all_keeps fuel env msgs logger w path0)
    as (l & w' & Hrun & _ & _ & _ & _ & _ & Hfile & Herr).
  { cbn [maxFiles logger]. unfold to_guint. rewrite Z.mod_small; lia. }
  { done. }
  exists l, w'. split; [reflexivity|]. split; [exact Hrun|].
  specialize (Hfile (or_introl eq_refl)). specialize (Herr (fun _ => eq_refl)).
  unfold FileLoggerDestroy. split; [|split; [done|]].
  - intros He. by rewrite (Herr He).
  - destruct Hfile as [->| ->]; done.
Qed.

Lemma X12_destroy_after_logging_witness :
  let env := {| user_name := cstr "root"; pid := 4242; win32 := false |} in
  let w := {| fs := ∅; stat_denied := fun _ => false; unlink_denied := fun _ => false;
              rename_denied := fun _ _ => false; fopen_denied := fun _ => true;
              trace := [] |} in
  let msgs := [(cstr "ab", true); (cstr "cd", true)] in
  exists logger logger' w',
    GlibUtils_CreateFileLogger (cstr "/nonexistent/app.log") true 1 1 = Some logger /\
    log_all 0 env msgs logger w = Ok (logger', w') /\
    (error logger' = true -> FileLoggerDestroy logger' w' = w') /\
    (file logger' = None \/ file logger' = Some (cstr "/nonexistent/app.log")) /\
    (file logger' <> None ->
     trace (FileLoggerDestroy logger' w')
     = trace w' ++ [call_fclose (cstr "/nonexistent/app.log")]).
Proof.
  intros env w msgs.
  apply (X12_destroy_after_logging 0 env (cstr "/nonexistent/app.log") true 1 1
           msgs w (cstr "/nonexistent/app.log")).
  - lia.
  - reflexivity.
Defined.

(** ** The first message *)

(** X13: a new logger has no stream; its first message, when the active
    file does not exist yet and can be created, makes one existence test,
    opens the path in the mode given by [append], writes the message and
    flushes it: the file holds the message and the counter its size (0 when
    there is no limit). *)
Theorem X13_first_message_creates_file (fuel : nat) (env : process_env)
    (path_ : cstring) (append_ : bool) (maxSize_ maxFiles_ : Z) (w : world)
    (path0 message : cstring) :
  0 <= maxSize_ < 4096 ->
  FileLoggerGetPath fuel env path_ 0 = Ok path0 ->
  fs w !! path0 = None ->
  fopen_denied w path0 = false ->
  maxSize_ = 0 \/
    (message_cost env message < maxSize_ * 1048576
     /\ message_cost env message < 2 ^ 31) ->
  exists logger logger' w',
    GlibUtils_CreateFileLogger path_ append_ maxSize_ maxFiles_ = Some logger /\
    file logger = None /\
    FileLoggerLog fuel env message true logger w = Ok (logger', w') /\
    file logger' = Some path0 /\ error logger' = false /\
    logSize logger' = (if maxSize_ =? 0 then 0 else message_cost env message) /\
    fs w' = <[path0 := RegularFile message]> (fs w) /\
    trace w' = trace w ++ [call_file_test path0 G_FILE_TEST_EXISTS;
                           call_fopen path0 (if append_ then mode_a else mode_w);
                           call_fputs path0 message; call_fflush path0].
Proof.
  intros Hsize Hp Hfs Hopen Hcost.
  set (logger := {| file := None; path := path_; logSize := 0;
                    maxSize := to_guint (to_guint (maxSize_ * 1024) * 1024);
                    maxFiles := to_guint (maxFiles_ + 1);
                    append := append_; error := false |}).
  assert (maxSize logger = maxSize_ * 1048576) as Hmax.
  { cbn [maxSize logger]. unfold to_guint.
    rewrite (Z.mod_small (maxSize_ * 1024)) by lia. rewrite Z.mod_small; lia. }
  assert (FileLoggerOpen fuel env logger w
          = Ok (Some path0, logger,
                with_fs
                  (record_call
                     (record_call w (call_file_test path0 G_FILE_TEST_EXISTS))
                     (call_fopen path0 (if append_ then mode_a else mode_w)))
                  (<[path0 := RegularFile []]> (fs w)))) as Hrun.
  { unfold FileLoggerOpen. cbn [path logger]. rewrite Hp.
    cbn [mbind result_bind bind_result g_file_test fs record_call]. rewrite Hfs.
    cbn [mbind result_bind bind_result append]. unfold g_fopen.
    cbn [fopen_denied fs record_call]. rewrite Hopen, Hfs.
    by destruct append_. }
  assert (forall P : FileLogger -> world -> Prop,
            (exists logger' w',
               FileLoggerLog fuel env message true logger w = Ok (logger', w')
               /\ P logger' w') ->
            exists l logger' w',
              GlibUtils_CreateFileLogger path_ append_ maxSize_ maxFiles_ = Some l /\
              file l = None /\
              FileLoggerLog fuel env message true l w = Ok (logger', w')
              /\ P logger' w') as Hex.
  { intros P (logger' & w' & ? & ?). by exists logger, logger', w'. }
  apply (Hex (fun logger' w' =>
    file logger' = Some path0 /\ error logger' = false /\
    logSize logger' = (if maxSize_ =? 0 then 0 else message_cost env message) /\
    fs w' = <[path0 := RegularFile message]> (fs w) /\
    trace w' = trace w ++ [call_file_test path0 G_FILE_TEST_EXISTS;
                           call_fopen path0 (if append_ then mode_a else mode_w);
                           call_fputs path0 message; call_fflush path0])).
  clear Hex.
  unfold FileLoggerLog. cbn [error file logger]. fold logger. rewrite Hrun.
  cbn [mbind result_bind bind_result file set_file].
  unfold fputs at 1 2 3 4. cbn [fs with_fs record_call]. rewrite lookup_insert_eq.
  rewrite insert_insert_eq, app_nil_l.
  cbn [maxSize set_file]. rewrite Hmax.
  pose proof (message_cost_nonneg env message) as Hnn.
  destruct Hcost as [->|[Hlt Hint]].
  - cbn [Z.mul Z.ltb Z.compare Z.eqb]. eexists _, _. split; [reflexivity|].
    cbn [file error logSize fs trace fflush record_call with_fs logger].
    unfold fflush. cbn [fs trace record_call with_fs].
    repeat split; try done. by rewrite <- !(assoc_L (++)).
  - destruct (Z.ltb_spec 0 (maxSize_ * 1048576)) as [_|]; [|lia].
    destruct (Z.eqb_spec maxSize_ 0) as [->|_]; [lia|].
    pose proof (logSize_after_message env (set_file logger (Some path0)) message)
      as Hafter.
    cbn [logSize set_file logger] in Hafter. cbv zeta in Hafter.
    cbn [logSize set_file logger set_logSize].
    cbn [logSize set_file logger set_logSize] in Hafter.
    rewrite Hafter by lia.
    assert (size_reached (set_logSize (set_file logger (Some path0))
                            (0 + message_cost env message)) = false) as ->.
    { unfold size_reached. cbn [maxSize logSize set_logSize set_file].
      fold (maxSize logger). rewrite Hmax, to_guint64_small by lia.
      apply Z.leb_gt. lia. }
    eexists _, _. split; [reflexivity|].
    unfold fflush. cbn [file error logSize fs trace record_call with_fs].
    repeat split; try done. by rewrite <- !(assoc_L (++)).
Qed.

Lemma X13_first_message_creates_file_witness :
  let env := {| user_name := cstr "root"; pid := 4242; win32 := true |} in
  let w := {| fs := ∅; stat_denied := fun _ => false; unlink_denied := fun _ => false;
              rename_denied := fun _ _ => false; fopen_denied := fun _ => false;
              trace := [] |} in
  let path0 := cstr "/var/log/vmware-root.log" in
  exists logger logger' w',
    GlibUtils_CreateFileLogger (cstr "/var/log/vmware-${USER}.log") true 1 3
    = Some logger /\
    file logger = None /\
    FileLoggerLog 1 env (cstr "started") true logger w = Ok (logger', w') /\
    file logger' = Some path0 /\ error logger' = false /\
    logSize logger' = 8 /\
    fs w' = <[path0 := RegularFile (cstr "started")]> (fs w) /\
    trace w' = [call_file_test path0 G_FILE_TEST_EXISTS; call_fopen path0 mode_a;
                call_fputs path0 (cstr "started"); call_fflush path0].
Proof.
  intros env w path0.
  apply (X13_first_message_creates_file 1 env (cstr "/var/log/vmware-${USER}.log")
           true 1 3 w path0 (cstr "started")).
  - lia.
  - reflexivity.
  - reflexivity.
  - reflexivity.
  - right. split; reflexivity.
Defined.

(** ** A failed open *)

(** X14: when the first call finds no stream and [FileLoggerOpen] returns
    NULL, the error flag is set and the whole sequence of messages is
    dropped: after what that one open did, no call is made, so the open is
    tried exactly once, and none of the writes is. *)
Theorem X14_failed_open_drops_sequence (fuel : nat) (env : process_env)
    (message : cstring) (ok : bool) (msgs : list (cstring * bool))
    (logger logger1 : FileLogger) (w w1 : world) :
  error logger = false -> file logger = None ->
  FileLoggerOpen fuel env logger w = Ok (None, logger1, w1) ->
  log_all fuel env ((message, ok) :: msgs) logger w
  = Ok (set_error (set_file logger1 None) true, w1).
Proof.
  intros Herr Hfile Hopen. cbn [log_all].
  rewrite (FileLoggerLog_open_failure fuel env message ok logger logger1 w w1) by done.
  cbn [mbind result_bind bind_result].
  generalize (set_file logger1 None). intros l.
  induction msgs as [|[m o] msgs IH]; [done|].
  cbn [log_all]. unfold FileLoggerLog at 1. cbn [error set_error].
  cbn [mbind result_bind bind_result]. exact IH.
Qed.

Lemma X14_failed_open_drops_sequence_witness :
  let env := {| user_name := cstr "root"; pid := 4242; win32 := false |} in
  let dir := cstr "/var/log/app.log" in
  let logger := {| file := None; path := dir; logSize := 0; maxSize := 0;
                   maxFiles := 2; append := true; error := false |} in
  let w := {| fs := {[ dir := Directory 4096 ]};
              stat_denied := fun _ => false; unlink_denied := fun _ => false;
              rename_denied := fun _ _ => false; fopen_denied := fun _ => false;
              trace := [] |} in
  exists logger' w',
    log_all 0 env [(cstr "a", true); (cstr "b", true); (cstr "c", true)] logger w
    = Ok (logger', w') /\
    error logger' = true /\ file logger' = None /\ fs w' = fs w /\
    trace w' = [call_file_test dir G_FILE_TEST_EXISTS; call_stat dir;
                call_file_test dir G_FILE_TEST_IS_REGULAR;
                call_fopen dir mode_w].
Proof.
  intros env dir logger w. eexists _, _. split.
  - apply (X14_failed_open_drops_sequence 0 env (cstr "a") true
             [(cstr "b", true); (cstr "c", true)] logger).
    + reflexivity.
    + reflexivity.
    + reflexivity.
  - split; [reflexivity|]. split; [reflexivity|]. split; reflexivity.
Defined.

Lemma X15_one_thread_is_FileLoggerLog_witness :
  let env := {| user_name := cstr "root"; pid := 4242; win32 := false |} in
  let h := cstr "/var/log/app.log" in
  let logger := {| file := None; path := h; logSize := 0; maxSize := 0;
                   maxFiles := 2; append := true; error := false |} in
  let w := {| fs := ∅; stat_denied := fun _ => false; unlink_denied := fun _ => false;
              rename_denied := fun _ _ => false; fopen_denied := fun _ => false;
              trace := [] |} in
  exists s,
    run 0 env (replicate 22 0%nat) (start [(cstr "a", true)] logger w)
    = Ok ([{| th_pc := returned; th_message := cstr "a"; th_fputs_ok := true |}], s) /\
    sh_logger s = set_file logger (Some h) /\
    fs (sh_world s) = {[ h := RegularFile (cstr "a") ]} /\
    sh_readers s = 0%nat /\ sh_writer s = false.
Proof.
  intros env h logger w.
  destruct (X15_one_thread_is_FileLoggerLog 0 env (cstr "a") true logger
              (set_file logger (Some h)) w
              (fflush (fputs (g_fopen (g_file_test w h G_FILE_TEST_EXISTS).2 h mode_a).2
                         (cstr "a") h true) h))
    as (s & Hrun & Hl & Hw & Hr & Hwr).
  - reflexivity.
  - exists s. split; [exact Hrun|]. split; [exact Hl|].
    split; [by rewrite Hw|]. split; [exact Hr|exact Hwr].
Defined.

Lemma X16_writer_excludes_witness :
  holds_writer L257 = false /\ holds_reader L257 = false.
Proof.
  eapply (X16_writer_excludes 0
            {| user_name := cstr "root"; pid := 4242; win32 := false |}
            [0; 0; 0; 0; 0; 1]%nat
            [(cstr "a", true); (cstr "b", true)]
            {| file := None; path := cstr "/var/log/app.log"; logSize := 0;
               maxSize := 1; maxFiles := 2; append := true; error := false |}
            {| fs := ∅; stat_denied := fun _ => false; unlink_denied := fun _ => false;
               rename_denied := fun _ _ => false; fopen_denied := fun _ => false;
               trace := [] |}
            _ _ 0%nat 1%nat
            {| th_pc := L270; th_message := cstr "a"; th_fputs_ok := true |}
            {| th_pc := L257; th_message := cstr "b"; th_fputs_ok := true |}).
  - vm_compute. reflexivity.
  - reflexivity.
  - reflexivity.
  - reflexivity.
  - discriminate.
Defined.

(** ** Progress of the threads *)

Lemma count_pc_pos (f : pc -> bool) (ts : list thread) :
  (0 < count_pc f ts)%nat -> exists i t, ts !! i = Some t /\ f (th_pc t) = true.
Proof.
  unfold count_pc. intros H.
  destruct (filter (fun t => f (th_pc t) = true) ts) as [|t l] eqn:E;
    [cbn in H; lia|].
  assert (t ∈ filter (fun t => f (th_pc t) = true) ts) as Hin by (rewrite E; by left).
  apply list_elem_of_filter in Hin as [Hf Hin].
  apply list_elem_of_lookup_1 in Hin as [i Hi]. by exists i, t.
Qed.

Lemma count_pc_none (f : pc -> bool) (ts : list thread) :
  (forall t, t ∈ ts -> f (th_pc t) = false) -> count_pc f ts = 0%nat.
Proof.
  intros H. unfold count_pc.
  destruct (filter (fun t => f (th_pc t) = true) ts) as [|t l] eqn:E; [done|].
  assert (t ∈ filter (fun t => f (th_pc t) = true) ts) as Hin by (rewrite E; by left).
  apply list_elem_of_filter in Hin as [Hf Hin]. by rewrite (H t Hin) in Hf.
Qed.

(** A thread that holds the lock is never made to wait. *)
Lemma holder_steps (fuel : nat) (env : process_env) (t : thread) (s : shared) :
  holds_writer (th_pc t) = true \/ holds_reader (th_pc t) = true ->
  thread_step fuel env t s <> None.
Proof.
  unfold thread_step, reader_unlock, writer_unlock.
  destruct (th_pc t); cbn; intros [H|H]; try discriminate H;
    try done; by destruct (file (sh_logger s)).
Qed.

(** X17: the lock upgrade by release and re-acquisition cannot deadlock: in
    every state that calls started together reach, as long as a call has
    not returned there is a thread that has not returned and is not made to
    wait. *)
Theorem X17_no_deadlock (fuel : nat) (env : process_env) (schedule : list nat)
    (msgs : list (cstring * bool)) (logger : FileLogger) (w : world)
    (ts : list thread) (s : shared) :
  run fuel env schedule (start msgs logger w) = Ok (ts, s) ->
  (exists t, t ∈ ts /\ th_pc t <> returned) ->
  exists i t, ts !! i = Some t /\ th_pc t <> returned /\
              thread_step fuel env t s <> None.
Proof.
  intros Hrun (t0 & Hin & Hpc).
  pose proof (run_lock_inv _ _ _ _ _ (start_lock_inv msgs logger w) Hrun)
    as (Hr & Hw & Hex). cbn [fst snd] in *.
  destruct (Nat.eq_dec (count_pc holds_writer ts) 0%nat) as [Hw0|Hw1].
  - destruct (Nat.eq_dec (count_pc holds_reader ts) 0%nat) as [Hr0|Hr1].
    + apply list_elem_of_lookup_1 in Hin as [i Hi].
      exists i, t0. split; [done|]. split; [done|].
      pose proof (count_pc_zero _ _ _ _ Hw0 Hi) as Hnw.
      pose proof (count_pc_zero _ _ _ _ Hr0 Hi) as Hnr.
      assert (sh_writer s = false) as Hwr by (destruct (sh_writer s); [lia|done]).
      rewrite Hr0 in Hr.
      unfold thread_step, reader_lock, writer_lock. rewrite Hwr, Hr.
      destruct (th_pc t0); try done; try discriminate Hnw; discriminate Hnr.
    + destruct (count_pc_pos holds_reader ts ltac:(lia)) as (i & t & Hi & Ht).
      exists i, t. split; [done|].
      split; [intros E; by rewrite E in Ht|]. apply holder_steps. by right.
  - destruct (count_pc_pos holds_writer ts ltac:(lia)) as (i & t & Hi & Ht).
    exists i, t. split; [done|].
    split; [intros E; by rewrite E in Ht|]. apply holder_steps. by left.
Qed.

Lemma X17_no_deadlock_witness :
  let env := {| user_name := cstr "root"; pid := 4242; win32 := false |} in
  let logger := {| file := None; path := cstr "/var/log/app.log"; logSize := 0;
                   maxSize := 1; maxFiles := 2; append := true; error := false |} in
  let w := {| fs := ∅; stat_denied := fun _ => false; unlink_denied := fun _ => false;
              rename_denied := fun _ _ => false; fopen_denied := fun _ => false;
              trace := [] |} in
  exists ts s,
    run 0 env [0; 0; 0; 0; 1; 1; 1; 1; 0; 1]%nat
      (start [(cstr "a", true); (cstr "b", true)] logger w) = Ok (ts, s) /\
    map th_pc ts = [L270; L269] /\
    exists i t, ts !! i = Some t /\ th_pc t <> returned /\
                thread_step 0 env t s <> None.
Proof.
  intros env logger w. eexists _, _.
  split; [vm_compute; reflexivity|]. split; [reflexivity|].
  eapply (X17_no_deadlock 0 env [0; 0; 0; 0; 1; 1; 1; 1; 0; 1]%nat
            [(cstr "a", true); (cstr "b", true)] logger w).
  - vm_compute. reflexivity.
  - eexists. split; [apply list_elem_of_here|]. discriminate.
Defined.

(** X18: every lock taken is released: when all the calls started together
    have returned, no reader and no writer holds the lock. *)
Theorem X18_lock_released (fuel : nat) (env : process_env) (schedule : list nat)
    (msgs : list (cstring * bool)) (logger : FileLogger) (w : world)
    (ts : list thread) (s : shared) :
  run fuel env schedule (start msgs logger w) = Ok (ts, s) ->
  (forall t, t ∈ ts -> th_pc t = returned) ->
  sh_readers s = 0%nat /\ sh_writer s = false.
Proof.
  intros Hrun Hall.
  pose proof (run_lock_inv _ _ _ _ _ (start_lock_inv msgs logger w) Hrun)
    as (Hr & Hw & _). cbn [fst snd] in *.
  rewrite count_pc_none in Hr, Hw by (intros t Ht; by rewrite (Hall t Ht)).
  split; [done|]. by destruct (sh_writer s).
Qed.

Lemma X18_lock_released_witness :
  let env := {| user_name := cstr "root"; pid := 4242; win32 := false |} in
  let logger := {| file := None; path := cstr "/var/log/app.log"; logSize := 0;
                   maxSize := 0; maxFiles := 2; append := false; error := false |} in
  let w := {| fs := ∅; stat_denied := fun _ => false; unlink_denied := fun _ => false;
              rename_denied := fun _ _ => false; fopen_denied := fun _ => false;
              trace := [] |} in
  let schedule := [0; 0; 0; 0; 1; 1; 1; 1; 0; 0; 0; 0; 1; 1; 1; 1;
                   0; 0; 0; 0; 0; 0; 1; 1; 1; 1; 1; 1]%nat in
  exists ts s,
    run 0 env schedule (start [(cstr "a", true); (cstr "b", true)] logger w)
    = Ok (ts, s) /\
    map th_pc ts = [returned; returned] /\
    sh_readers s = 0%nat /\ sh_writer s = false.
Proof.
  intros env logger w schedule. eexists _, _.
  split; [vm_compute; reflexivity|]. split; [reflexivity|].
  eapply (X18_lock_released 0 env schedule
            [(cstr "a", true); (cstr "b", true)] logger w).
  - vm_compute. reflexivity.
  - intros t Ht. repeat (apply elem_of_cons in Ht as [->|Ht]; [reflexivity|]).
    by apply elem_of_nil in Ht.
Defined.

(** ** Writes that fail *)

Lemma fputs_trace (w : world) (message h : cstring) (ok : bool) :
  trace (fputs w message h ok) = trace w ++ [call_fputs h message].
Proof.
  unfold fputs. destruct ok; [|done]. by destruct (fs w !! h) as [[?|?]|].
Qed.

(** X19: a write whose [fputs] fails is not counted and not flushed, and
    does not set the error flag: over any sequence of writes that stays
    below the threshold, [logSize] grows by the sizes of the messages that
    were written only, every message gets its [fputs] call and only the
    written ones a [fflush]. *)
Theorem X19_failed_writes_not_counted (fuel : nat) (env : process_env)
    (msgs : list (cstring * bool)) (logger : FileLogger) (w : world) (h : cstring) :
  file logger = Some h -> error logger = false -> 0 < maxSize logger ->
  0 <= logSize logger ->
  logSize logger + total_cost env (written_messages msgs) < maxSize logger ->
  logSize logger + total_cost env (written_messages msgs) < 2 ^ 31 ->
  exists w',
    log_all fuel env msgs logger w
    = Ok (set_logSize logger
            (logSize logger + total_cost env (written_messages msgs)), w') /\
    trace w' = trace w ++
      flat_map (fun m : cstring * bool =>
                  call_fputs h m.1 :: (if m.2 then [call_fflush h] else []))
        msgs.
Proof.
  revert logger w.
  induction msgs as [|[m ok] msgs IH]; intros logger w Hfile Herr Hmax H0 Hlt Hint.
  - exists w. cbn. rewrite Z.add_0_r, app_nil_r. split; [by destruct logger|done].
  - cbn [log_all]. destruct ok.
    + unfold written_messages in Hlt, Hint |- *. rewrite filter_cons_True in * by done.
      cbn [map fst total_cost foldr] in *.
      pose proof (message_cost_nonneg env m).
      pose proof (total_cost_nonneg env (map fst (filter (fun m => m.2 = true) msgs)))
        as Hnn. unfold total_cost in Hnn.
      rewrite (FileLoggerLog_below fuel env m logger w h) by (done || lia).
      cbn [mbind result_bind bind_result].
      destruct (IH (set_logSize logger (logSize logger + message_cost env m))
                  (fflush (fputs w m h true) h)) as (w' & -> & Ht);
        try done; cbn [logSize maxSize set_logSize]; unfold written_messages, total_cost;
        try lia.
      exists w'. split.
      * f_equal. f_equal. unfold set_logSize. cbn. f_equal. lia.
      * rewrite Ht. unfold fflush. cbn [trace record_call flat_map fst snd].
        rewrite fputs_trace. by rewrite <- !(assoc_L (++)).
    + unfold written_messages in Hlt, Hint |- *.
      rewrite filter_cons_False in * by done.
      assert (FileLoggerLog fuel env m false logger w = Ok (logger, fputs w m h false))
        as ->.
      { unfold FileLoggerLog. rewrite Herr, Hfile.
        cbn [mbind result_bind bind_result]. by rewrite Hfile. }
      cbn [mbind result_bind bind_result].
      destruct (IH logger (fputs w m h false)) as (w' & -> & Ht); try done.
      exists w'. split; [done|].
      rewrite Ht, fputs_trace. cbn [flat_map fst snd]. by rewrite <- !(assoc_L (++)).
Qed.

Lemma X19_failed_writes_not_counted_witness :
  let env := {| user_name := cstr "root"; pid := 4242; win32 := false |} in
  let h := cstr "/var/log/app.log" in
  let logger := {| file := Some h; path := h; logSize := 1; maxSize := 10;
                   maxFiles := 2; append := true; error := false |} in
  let w := {| fs := {[ h := RegularFile (cstr "x") ]};
              stat_denied := fun _ => false; unlink_denied := fun _ => false;
              rename_denied := fun _ _ => false; fopen_denied := fun _ => false;
              trace := [] |} in
  exists w',
    log_all 0 env [(cstr "ab", true); (cstr "cdefghijk", false); (cstr "lmn", true)]
      logger w
    = Ok (set_logSize logger 6, w') /\
    trace w' = [call_fputs h (cstr "ab"); call_fflush h;
                call_fputs h (cstr "cdefghijk");
                call_fputs h (cstr "lmn"); call_fflush h].
Proof.
  intros env h logger w.
  apply (X19_failed_writes_not_counted 0 env
           [(cstr "ab", true); (cstr "cdefghijk", false); (cstr "lmn", true)]
           logger w h).
  - reflexivity.
  - reflexivity.
  - reflexivity.
  - discriminate.
  - reflexivity.
  - reflexivity.
Defined.

(** ** The counter is a 32-bit signed integer *)

Lemma to_gint_add_l (a b : Z) : to_gint (to_gint a + b) = to_gint (a + b).
Proof.
  unfold to_gint. f_equal.
  replace ((a + 2 ^ 31) mod 2 ^ 32 - 2 ^ 31 + b + 2 ^ 31)
    with ((a + 2 ^ 31) mod 2 ^ 32 + b) by lia.
  rewrite Zplus_mod_idemp_l. f_equal. lia.
Qed.

Lemma to_gint_add_r (a b : Z) : to_gint (a + to_gint b) = to_gint (a + b).
Proof. by rewrite (Z.add_comm a), to_gint_add_l, (Z.add_comm b). Qed.

(** The new value of [logSize], whether the additions wrap or not. *)
Lemma logSize_after_message_wraps (env : process_env) (logger : FileLogger)
    (message : cstring) :
  (let logger1 :=
     set_logSize logger
       (to_gint (logSize logger + to_gint (Z.of_nat (length message)))) in
   if win32 env then set_logSize logger1 (to_gint (logSize logger1 + 1))
   else logger1)
  = set_logSize logger (to_gint (logSize logger + message_cost env message)).
Proof.
  unfold message_cost. cbv zeta. destruct (win32 env).
  - unfold set_logSize. cbn [logSize file path maxSize maxFiles append error].
    f_equal. rewrite to_gint_add_l.
    replace (logSize logger + to_gint (Z.of_nat (length message)) + 1)
      with (logSize logger + 1 + to_gint (Z.of_nat (length message))) by lia.
    rewrite to_gint_add_r. f_equal. lia.
  - rewrite to_gint_add_r. do 2 f_equal. lia.
Qed.

(** X20: [logSize] is a [gint] compared with the unsigned [maxSize], so the
    threshold that takes effect is the smaller of [maxSize] and 2^31: a
    successful write that brings the counter to it (and below 2^32) closes
    and rotates the file, a write that stays below it is flushed.  A counter
    that passes 2^31 - 1 becomes negative, and converted to [guint64] it is
    above every [maxSize]. *)
Theorem X20_threshold_at_most_2GiB (fuel : nat) (env : process_env)
    (message : cstring) (logger : FileLogger) (w : world) (h : cstring) :
  file logger = Some h -> error logger = false ->
  0 < maxSize logger <= 2 ^ 63 ->
  0 <= logSize logger ->
  logSize logger + message_cost env message < 2 ^ 32 ->
  let total := logSize logger + message_cost env message in
  FileLoggerLog fuel env message true logger w =
  if Z.min (maxSize logger) (2 ^ 31) <=? total
  then '(f, l, w') ← FileLoggerOpen fuel env
                       (set_append (set_logSize logger (to_gint total)) false)
                       (fclose (fputs w message h true) h);
       Ok (set_file l f, w')
  else Ok (set_logSize logger total, fflush (fputs w message h true) h).
Proof.
  intros Hfile Herr Hmax H0 H32 total.
  pose proof (message_cost_nonneg env message) as Hnn.
  unfold FileLoggerLog. rewrite Herr, Hfile.
  cbn [mbind result_bind bind_result]. rewrite Hfile.
  destruct (Z.ltb_spec 0 (maxSize logger)) as [_|]; [|lia].
  rewrite logSize_after_message_wraps. fold total.
  unfold size_reached. cbn [maxSize logSize set_logSize].
  destruct (Z.leb_spec (Z.min (maxSize logger) (2 ^ 31)) total) as [Hge|Hlt].
  - assert (maxSize logger <= to_guint64 (to_gint total)) as Hreached.
    { destruct (Z.lt_ge_cases total (2 ^ 31)) as [Hsmall|Hbig].
      - rewrite to_gint_small, to_guint64_small by lia. lia.
      - assert (to_gint total = total - 2 ^ 32) as ->.
        { unfold to_gint.
          replace (total + 2 ^ 31) with (total - 2 ^ 31 + 1 * 2 ^ 32) by lia.
          rewrite Z_mod_plus_full, Z.mod_small by lia. lia. }
        unfold to_guint64.
        replace (total - 2 ^ 32) with (total - 2 ^ 32 + 2 ^ 64 + (-1) * 2 ^ 64) by lia.
        rewrite Z_mod_plus_full, Z.mod_small by lia. lia. }
    apply Z.leb_le in Hreached. by rewrite Hreached.
  - rewrite to_gint_small by lia. rewrite to_guint64_small by lia.
    destruct (Z.leb_spec (maxSize logger) total); [lia|done].
Qed.

Lemma X20_threshold_at_most_2GiB_witness :
  let env := {| user_name := cstr "root"; pid := 4242; win32 := false |} in
  let h := cstr "/var/log/app.log" in
  let logger := {| file := Some h; path := h; logSize := 2147483646;
                   maxSize := 4293918720; maxFiles := 2; append := true;
                   error := false |} in
  let w := {| fs := ∅; stat_denied := fun _ => false; unlink_denied := fun _ => false;
              rename_denied := fun _ _ => false; fopen_denied := fun _ => false;
              trace := [] |} in
  FileLoggerLog 0 env (cstr "ab") true logger w =
  '(f, l, w') ← FileLoggerOpen 0 env
                  (set_append (set_logSize logger (-2147483648)) false)
                  (fclose (fputs w (cstr "ab") h true) h);
  Ok (set_file l f, w').
Proof.
  intros env h logger w.
  apply (X20_threshold_at_most_2GiB 0 env (cstr "ab") logger w h).
  - reflexivity.
  - reflexivity.
  - split; [reflexivity|discriminate].
  - discriminate.
  - reflexivity.
Defined.

(** ** The error flag and the calls of FileLoggerOpen *)

Lemma count_pc_elem (f : pc -> bool) (ts : list thread) (i : nat) (t : thread) :
  ts !! i = Some t -> f (th_pc t) = true -> (0 < count_pc f ts)%nat.
Proof.
  intros Hi Hf. destruct (Nat.eq_dec (count_pc f ts) 0%nat) as [H0|]; [|lia].
  by rewrite (count_pc_zero f ts i t H0 Hi) in Hf.
Qed.

Lemma open_called_open (s : shared) (l : FileLogger) (w : world) (f : option cstring) :
  open_called (with_open s l w f).
Proof. left. cbn. by destruct (sh_opens s). Qed.

Lemma open_called_rotation (s : shared) (l : FileLogger) (w : world)
    (f : option cstring) :
  open_called (with_rotation s l w f).
Proof. right. cbn. by destruct (sh_rotations s). Qed.

Lemma open_failed_open (s : shared) (l : FileLogger) (w : world) (f : option cstring) :
  open_failed s \/ f = None -> open_failed (with_open s l w f).
Proof.
  unfold open_failed. cbn. intros [[H|H]| ->].
  - left. apply elem_of_app. by left.
  - by right.
  - left. apply elem_of_app. right. by left.
Qed.

Lemma open_failed_rotation (s : shared) (l : FileLogger) (w : world)
    (f : option cstring) :
  open_failed s \/ f = None -> open_failed (with_rotation s l w f).
Proof.
  unfold open_failed. cbn. intros [[H|H]| ->].
  - by left.
  - right. apply elem_of_app. by left.
  - right. apply elem_of_app. right. by left.
Qed.

Lemma step_error_inv (fuel : nat) (env : process_env) (i : nat)
    (ts ts' : list thread) (s s' : shared) :
  error_inv ts s -> step fuel env i (ts, s) = Ok (ts', s') -> error_inv ts' s'.
Proof.
  intros (Ha & Hb & Hc & He & Hd). unfold step. cbn [fst snd].
  destruct (ts !! i) as [t|] eqn:Hi; [|by intros [= <- <-]].
  destruct (thread_step fuel env t s) as [[[p s1]| |]|] eqn:Hstep;
    [|done|done|by intros [= <- <-]].
  cbn [mbind result_bind bind_result]. intros [= <- <-].
  pose proof (count_pc_insert past_open ts i t p Hi) as Hcp.
  pose proof (count_pc_insert sets_error ts i t p Hi) as Hce.
  pose proof (count_pc_elem past_open ts i t Hi) as Hip.
  pose proof (count_pc_elem sets_error ts i t Hi) as Hie.
  unfold thread_step, reader_lock, reader_unlock, writer_lock, writer_unlock in Hstep.
  destruct (th_pc t) eqn:Hpc; cbn [past_open sets_error] in Hcp, Hce, Hip, Hie.
  all: try (
    repeat match type of Hstep with
      | context [match file ?l with _ => _ end] => destruct (file l) eqn:?
      | context [if ?b then _ else _] => destruct b eqn:?
      end;
    try discriminate Hstep;
    injection Hstep as <- <-;
    cbn [past_open sets_error] in Hcp, Hce;
    unfold error_inv;
    cbn [sh_logger sh_opens sh_rotations with_lock with_logger with_world
         file error set_logSize set_error];
    repeat split; intros;
    first [ by apply Ha | by apply Hb | by (apply Hc; lia) | by (apply He; lia)
          | by apply Hd | by (apply Ha; congruence)
          | by (apply Hb; [done|apply Hc; lia])
          | congruence ]).
  - (* line 271: the open *)
    destruct (FileLoggerOpen fuel env (sh_logger s) (sh_world s))
      as [[[f l] w1]| |] eqn:E; cbn [mbind result_bind bind_result] in Hstep;
      [|discriminate Hstep|discriminate Hstep].
    injection Hstep as <- <-.
    apply FileLoggerOpen_frame in E as (_ & _ & _ & _ & _ & Herr & _).
    cbn [past_open sets_error] in Hcp, Hce. unfold error_inv.
    cbn [sh_logger with_open file error set_file].
    repeat split; intros; try apply open_called_open; apply open_failed_open.
    + by right.
    + left. apply He. lia.
    + left. apply Hd. congruence.
  - (* line 294: the rotation *)
    destruct (file (sh_logger s)) as [h|] eqn:Hfile; [|done].
    destruct (FileLoggerOpen fuel env (set_append (sh_logger s) false) _)
      as [[[f l] w1]| |] eqn:E; cbn [mbind result_bind bind_result] in Hstep;
      [|discriminate Hstep|discriminate Hstep].
    injection Hstep as <- <-.
    apply FileLoggerOpen_frame in E as (_ & _ & _ & _ & _ & Herr & _).
    cbn [past_open sets_error] in Hcp, Hce. unfold error_inv.
    cbn [sh_logger with_rotation file error set_file].
    repeat split; intros; try apply open_called_rotation; apply open_failed_rotation.
    + by right.
    + left. apply He. lia.
    + left. apply Hd. cbn [error set_append] in Herr. congruence.
Qed.

Lemma run_error_inv (fuel : nat) (env : process_env) (schedule : list nat)
    (c c' : list thread * shared) :
  error_inv c.1 c.2 -> run fuel env schedule c = Ok c' -> error_inv c'.1 c'.2.
Proof.
  revert c. induction schedule as [|i rest IH]; intros [ts s]; cbn [run].
  - by intros H [= <-].
  - intros H. destruct (step fuel env i (ts, s)) as [[ts1 s1]| |] eqn:Hstep;
      cbn [mbind result_bind bind_result]; try done.
    intros Hrun. apply (IH (ts1, s1)); [|done].
    by eapply step_error_inv.
Qed.

Lemma start_error_inv (msgs : list (cstring * bool)) (logger : FileLogger)
    (w : world) :
  file logger = None -> error logger = false ->
  error_inv (start msgs logger w).1 (start msgs logger w).2.
Proof.
  intros Hfile Herr. unfold error_inv, start. cbn [fst snd sh_logger].
  rewrite !count_pc_none.
  - rewrite Hfile, Herr. unfold open_called. cbn [sh_opens sh_rotations].
    split; [done|]. split; [by intros _ [?|?]|]. split; [lia|]. split; [lia|done].
  - intros t (m & -> & _)%list_elem_of_fmap. done.
  - intros t (m & -> & _)%list_elem_of_fmap. done.
Qed.

(** X21: among calls started together on a logger without stream and
    without error, under any schedule, the error flag is set only after a
    call of [FileLoggerOpen], at line 271 or at line 296, has returned
    NULL: when every call of it returned a stream, the flag is clear. *)
Theorem X21_error_only_after_failed_open (fuel : nat) (env : process_env)
    (msgs : list (cstring * bool)) (logger : FileLogger) (w : world)
    (schedule : list nat) (ts : list thread) (s : shared) :
  file logger = None -> error logger = false ->
  run fuel env schedule (start msgs logger w) = Ok (ts, s) ->
  error (sh_logger s) = true ->
  None ∈ sh_opens s \/ None ∈ sh_rotations s.
Proof.
  intros Hfile Herr Hrun.
  pose proof (run_error_inv _ _ _ _ _ (start_error_inv msgs logger w Hfile Herr) Hrun)
    as (_ & _ & _ & _ & H).
  exact H.
Qed.

Lemma X21_error_only_after_failed_open_witness :
  let env := {| user_name := cstr "root"; pid := 4242; win32 := false |} in
  let logger := {| file := None; path := cstr "/nonexistent/app.log"; logSize := 0;
                   maxSize := 0; maxFiles := 2; append := false;
                   error := false |} in
  let w := {| fs := ∅; stat_denied := fun _ => false;
              unlink_denied := fun _ => false;
              rename_denied := fun _ _ => false;
              fopen_denied := fun _ => true; trace := [] |} in
  let schedule := [0; 0; 0; 0; 1; 1; 1; 1; 0; 0; 0; 0; 1; 1; 1; 1;
                   0; 0; 0; 0; 1; 1; 1; 1]%nat in
  exists ts s,
    run 0 env schedule (start [(cstr "a", true); (cstr "b", true)] logger w)
    = Ok (ts, s) /\
    error (sh_logger s) = true /\
    (None ∈ sh_opens s \/ None ∈ sh_rotations s).
Proof.
  intros env logger w schedule. eexists _, _.
  split; [vm_compute; reflexivity|]. split; [reflexivity|].
  eapply (X21_error_only_after_failed_open 0 env
            [(cstr "a", true); (cstr "b", true)] logger w schedule).
  - reflexivity.
  - reflexivity.
  - vm_compute. reflexivity.
  - reflexivity.
Defined.

(** ** The number of log files *)

(** The names the first loop collects are the expansions for the indices
    it runs through. *)
Lemma find_last_log_indices (fuel : nat) (env : process_env) (data : FileLogger)
    (n : nat) (id : Z) (logfiles lf : list cstring) (w w' : world) :
  find_last_log fuel env data n id logfiles w = Ok (lf, w') ->
  exists more, lf = logfiles ++ more /\
    Forall (fun p => exists k, id <= k < id + Z.of_nat n /\
              FileLoggerGetPath fuel env (path data) (to_gint k) = Ok p) more.
Proof.
  revert id logfiles w. induction n as [|n IH]; intros id logfiles w;
    cbn [find_last_log].
  - intros [= <- <-]. exists []. by rewrite app_nil_r.
  - destruct (FileLoggerGetPath fuel env (path data) (to_gint id)) as [log| |] eqn:E;
      cbn [mbind result_bind bind_result]; [|done|done].
    unfold g_file_test.
    destruct (match fs w !! log with Some (RegularFile _) => true | _ => false end).
    + intros (more & -> & Hmore)%IH.
      exists (log :: more). rewrite <- (assoc_L (++)). split; [done|].
      constructor; [exists id; split; [lia|done]|].
      eapply Forall_impl; [exact Hmore|]. intros p (k & Hk & Hp). exists k.
      split; [lia|done].
    + intros [= <- <-]. exists [log]. split; [done|].
      constructor; [|done]. exists id. split; [lia|done].
Qed.

(** X22: [FileLoggerOpen] never makes the chain longer than [maxFiles]: it
    returns, and the path of every index from [maxFiles] on (below 2^31)
    holds afterwards what it held before, so no file appears there. *)
Theorem X22_no_file_beyond_maxFiles (fuel : nat) (env : process_env)
    (data : FileLogger) (w : world) (path0 : cstring) :
  0 < maxFiles data <= 2 ^ 31 ->
  FileLoggerGetPath fuel env (path data) 0 = Ok path0 ->
  exists f data' w',
    FileLoggerOpen fuel env data w = Ok (f, data', w') /\
    forall j q, maxFiles data <= j < 2 ^ 31 ->
      FileLoggerGetPath fuel env (path data) j = Ok q ->
      fs w' !! q = fs w !! q.
Proof.
  intros Hmax Hp.
  destruct (FileLoggerOpen_total fuel env data w path0 ltac:(lia) Hp)
    as (f & data' & w' & Hopen & _).
  exists f, data', w'. split; [done|]. intros j q Hj Hq.
  assert (forall k p, 0 <= k < maxFiles data ->
            FileLoggerGetPath fuel env (path data) (to_gint k) = Ok p -> q <> p)
    as Hdiff.
  { intros k p Hk Hpk. rewrite to_gint_small in Hpk by lia.
    apply (FileLoggerGetPath_differ fuel env (path data) j k); try done; lia. }
  revert Hopen. unfold FileLoggerOpen. rewrite Hp.
  cbn [mbind result_bind bind_result].
  unfold g_file_test at 1. set (w1 := record_call w _).
  assert (q <> path0) as Hq0 by (apply (Hdiff 0); [lia|done]).
  destruct (match fs w !! path0 with Some _ => true | None => false end).
  - unfold g_stat. set (w2 := record_call w1 _).
    set (data1 := match _ with
                  | Some st_size => set_logSize data (to_gint st_size)
                  | None => data end).
    assert (path data1 = path data /\ maxFiles data1 = maxFiles data) as [Hpath Hfiles].
    { unfold data1. by destruct (match fs w1 !! path0 with
                                  | Some n => if stat_denied w1 path0 then None
                                              else Some (node_size n)
                                  | None => None end). }
    destruct (negb (append data1) || size_reached data1).
    + destruct (find_last_log fuel env data1 (Z.to_nat (maxFiles data1)) 0 [] w2)
        as [[lf w3]| |] eqn:Efind; cbn [mbind result_bind bind_result]; [|done|done].
      pose proof (find_last_log_paths _ _ _ _ _ _ _ _ _ Efind) as [Hfs3 _].
      apply find_last_log_indices in Efind as (more & Hlf & Hmore).
      rewrite app_nil_l in Hlf. subst lf. rewrite Hpath, Hfiles in Hmore.
      destruct (Nat.eqb (length more) 0); [done|].
      destruct (rename_logs (length more - 1) more w3) as [w4| |] eqn:Eren;
        cbn [mbind result_bind bind_result]; [|done|done].
      destruct (g_fopen w4 path0 _) as [logfile w5] eqn:Eopen.
      intros [= <- <- <-].
      pose proof (g_fopen_frame w4 path0 q
                    (if append (set_append (set_logSize data1 0) false)
                     then mode_a else mode_w) Hq0) as H5.
      rewrite Eopen in H5. cbn [snd] in H5. rewrite H5.
      rewrite (rename_logs_frame _ _ _ _ q Eren), Hfs3; [done|].
      intros Hin. apply (proj1 (Forall_forall _ _) Hmore) in Hin as (k & Hk & Hpk).
      apply (Hdiff k q); [lia|done|done].
    + cbn [mbind result_bind bind_result].
      destruct (g_fopen w2 path0 _) as [logfile w5] eqn:Eopen.
      intros [= <- <- <-].
      pose proof (g_fopen_frame w2 path0 q (if append data1 then mode_a else mode_w) Hq0)
        as H5.
      rewrite Eopen in H5. cbn [snd] in H5. by rewrite H5.
  - cbn [mbind result_bind bind_result].
    destruct (g_fopen w1 path0 _) as [logfile w5] eqn:Eopen.
    intros [= <- <- <-].
    pose proof (g_fopen_frame w1 path0 q (if append data then mode_a else mode_w) Hq0)
      as H5.
    rewrite Eopen in H5. cbn [snd] in H5. by rewrite H5.
Qed.

Lemma X22_no_file_beyond_maxFiles_witness :
  let env := {| user_name := cstr "root"; pid := 4242; win32 := false |} in
  let data := {| file := None; path := cstr "/var/log/app.log"; logSize := 0;
                 maxSize := 0; maxFiles := 2; append := false; error := false |} in
  let w := {| fs := {[ cstr "/var/log/app.log" := RegularFile (cstr "newer");
                       cstr "/var/log/app.1.log" := RegularFile (cstr "older") ]};
              stat_denied := fun _ => false; unlink_denied := fun _ => false;
              rename_denied := fun _ _ => false; fopen_denied := fun _ => false;
              trace := [] |} in
  exists f data' w',
    FileLoggerOpen 0 env data w = Ok (f, data', w') /\
    forall j q, maxFiles data <= j < 2 ^ 31 ->
      FileLoggerGetPath 0 env (path data) j = Ok q ->
      fs w' !! q = fs w !! q.
Proof.
  intros env data w.
  apply (X22_no_file_beyond_maxFiles 0 env data w (cstr "/var/log/app.log")).
  - split; [reflexivity|discriminate].
  - reflexivity.
Defined.

(** ** No message is skipped *)










(** ** A user name that contains the variable *)

Lemma strstr_finds (a b name : cstring) :
  is_prefix name b = true ->
  exists d, strstr (a ++ b) name = Some d /\ (d <= length a)%nat.
Proof.
  intros Hb. induction a as [|c a (d & IH & Hd)].
  - exists 0%nat. destruct b; cbn [app strstr]; by rewrite Hb.
  - cbn [app strstr]. destruct (is_prefix name (c :: a ++ b)).
    + exists 0%nat. split; [done|lia].
    + exists (S d). rewrite IH. split; [done|cbn [length]; lia].
Qed.

Lemma strstr_from (s name : cstring) (last q : nat) :
  (last <= q)%nat -> is_prefix name (drop q s) = true ->
  exists d, strstr (drop last s) name = Some d /\ (last + d <= q)%nat /\
            is_prefix name (drop (last + d) s) = true.
Proof.
  intros Hq Hp.
  destruct (strstr_finds (take (q - last) (drop last s)) (drop q s) name Hp)
    as (d & Hd & Hlen).
  replace (drop q s) with (drop (q - last) (drop last s)) in Hd
    by (rewrite drop_drop; f_equal; lia).
  rewrite take_drop in Hd. exists d. split; [done|].
  rewrite length_take in Hlen. split; [lia|].
  apply strstr_Some in Hd as (a & b & Hab & <- & Hb & _).
  by rewrite <- drop_drop, Hab, drop_app_length.
Qed.

(** Once the scan is behind the first replacement, every iteration finds
    the variable in the value the iteration before has put in. *)
Lemma subst_var_loops (fuel i : nat) (name u1 u2 logpath : cstring) (last q : nat)
    (h : bool) :
  name <> [] ->
  (length (name ++ u2) <= last)%nat -> (last <= q)%nat ->
  is_prefix name (drop q logpath) = true ->
  subst_var fuel i name (u1 ++ name ++ u2) logpath last h = OutOfFuel.
Proof.
  intros Hname. revert logpath last q h.
  induction fuel as [|fuel IH]; intros logpath last q h Hlast Hq Hp;
    destruct (strstr_from logpath name last q Hq Hp) as (d & Hd & Hle & Hfound);
    cbn [subst_var]; rewrite Hd; [done|].
  assert (last + d <= length logpath)%nat as Hlen.
  { destruct (Nat.le_gt_cases (last + d) (length logpath)) as [|Hgt]; [done|].
    rewrite drop_ge in Hfound by lia.
    by destruct name. }
  apply (IH _ _ (last + d + length u1)%nat).
  - rewrite !length_app in *. lia.
  - rewrite !length_app in *. lia.
  - rewrite drop_app_ge by (rewrite length_take; lia).
    rewrite length_take, Nat.min_l by lia.
    replace (last + d + length u1 - (last + d))%nat with (length u1) by lia.
    rewrite <- (assoc_L (++)), drop_app_length, <- (assoc_L (++)).
    apply is_prefix_app.
Qed.

(** X24: the offset of line 97 is counted from [last], not from the start
    of the string, so from the second replacement on the scan goes back to
    a position in front of the text just put in.  With a user name that
    contains [${USER}] and a template that names the variable twice, every
    iteration finds the variable again: the loop never ends, whatever the
    number of iterations allowed. *)
Theorem X24_user_name_with_variable_loops (fuel : nat) (env : process_env)
    (template u1 u2 : cstring) (index : Z) (d : nat) :
  user_name env = u1 ++ VAR_USER ++ u2 ->
  strstr template VAR_USER = Some d ->
  strstr (drop (d + length VAR_USER) template) VAR_USER <> None ->
  FileLoggerGetPath fuel env template index = OutOfFuel.
Proof.
  intros Huser Hfirst Hsecond.
  unfold FileLoggerGetPath. cbn [expand_vars]. rewrite Huser.
  destruct fuel as [|fuel]; cbn [subst_var]; rewrite drop_0, Hfirst; [done|].
  destruct (strstr (drop (d + length VAR_USER) template) VAR_USER) as [d2|] eqn:E2;
    [clear Hsecond|done].
  apply strstr_Some in Hfirst as (a & b & -> & <- & Hb%is_prefix_true & _).
  apply strstr_Some in E2 as (a2 & b2 & Hab2 & <- & Hb2 & _).
  rewrite drop_app_ge, Hb in Hab2 by lia.
  replace (length a + length VAR_USER - length a)%nat with (length VAR_USER) in Hab2
    by lia.
  replace (0 + length a)%nat with (length a) by lia.
  rewrite drop_app_length in Hab2.
  rewrite (subst_var_loops fuel 0 VAR_USER u1 u2 _ _
             (length a + length (u1 ++ VAR_USER ++ u2) + length a2)); [done|done|..].
  - rewrite !length_app. lia.
  - rewrite !length_app. lia.
  - rewrite take_app_length.
    rewrite drop_app_ge by lia.
    rewrite drop_app_ge by lia.
    replace (length a + length VAR_USER - length a)%nat with (length VAR_USER) by lia.
    replace (length a + length (u1 ++ VAR_USER ++ u2) + length a2 - length a
             - length (u1 ++ VAR_USER ++ u2))%nat with (length a2) by lia.
    rewrite drop_app_ge by lia.
    replace (length a + length VAR_USER - length a)%nat with (length VAR_USER) by lia.
    rewrite Hab2, drop_app_length. exact Hb2.
Qed.

Lemma X24_user_name_with_variable_loops_witness :
  FileLoggerGetPath 1000
    {| user_name := cstr "${USER}"; pid := 4242; win32 := false |}
    (cstr "/var/log/${USER}/vmware-${USER}.log") 0
  = OutOfFuel.
Proof.
  apply (X24_user_name_with_variable_loops 1000
           {| user_name := cstr "${USER}"; pid := 4242; win32 := false |}
           (cstr "/var/log/${USER}/vmware-${USER}.log") [] [] 0 9).
  - reflexivity.
  - reflexivity.
  - discriminate.
Defined.

(** ** The number of backups that is configured *)



(** ** Rotations by several threads *)

Lemma count_pc_sub (f g : pc -> bool) (ts : list thread) :
  (forall p, f p = true -> g p = true) -> (count_pc f ts <= count_pc g ts)%nat.
Proof.
  intros Hfg. unfold count_pc. induction ts as [|t ts IH]; [done|].
  rewrite !filter_cons. destruct (f (th_pc t)) eqn:Ef.
  - rewrite (Hfg _ Ef), !decide_True by done. cbn [length]. lia.
  - rewrite (decide_False (P := false = true)) by done.
    case_decide; cbn [length]; lia.
Qed.

Lemma quiet_end_app (q : bool) (a b : list syscall) :
  quiet_end q (a ++ b) = quiet_end (quiet_end q a) b.
Proof. apply foldl_app. Qed.

Lemma spaced_app (q : bool) (a b : list syscall) :
  spaced q (a ++ b) = spaced q a && spaced (quiet_end q a) b.
Proof.
  revert q. induction a as [|c a IH]; intros q; [done|].
  cbn [app spaced quiet_end foldl]. rewrite IH. unfold quiet_end.
  by rewrite andb_assoc.
Qed.

Lemma closes_app (a b : list syscall) :
  closes (a ++ b) = (closes a + closes b)%nat.
Proof.
  induction a as [|c a IH]; [done|]. destruct c; cbn [app closes]; rewrite IH; lia.
Qed.

Lemma open_calls_quiet (q : bool) (calls : list syscall) :
  Forall (fun c => is_open_call c = true) calls ->
  spaced q calls = true /\ closes calls = 0%nat /\ quiet_end true calls = true.
Proof.
  intros H. revert q. induction H as [|c calls Hc _ IH]; intros q; [done|].
  cbn [quiet_end foldl spaced closes]. fold (quiet_end (quiet_step true c) calls).
  destruct c; try discriminate Hc; cbn [quiet_step andb];
    destruct (IH true) as (? & ? & ?); by repeat split.
Qed.

(** A stream is closed only after a write. *)
Lemma spaced_fclose (q : bool) (l1 l3 : list syscall) (h : cstring) :
  spaced q (l1 ++ call_fclose h :: l3) = true -> quiet_end q l1 = false.
Proof.
  rewrite spaced_app. intros [_ H]%andb_prop. cbn [spaced] in H.
  apply andb_prop in H as [H _]. by apply negb_true_iff in H.
Qed.

(** After a write, only more writes and flushes keep [q] false. *)
Lemma quiet_end_false (calls : list syscall) :
  quiet_end true calls = false ->
  exists l0 h m l2, calls = l0 ++ call_fputs h m :: l2
                    /\ Forall (fun c => is_write_call c = true) l2.
Proof.
  induction calls as [|c calls IH] using rev_ind; [done|].
  rewrite quiet_end_app. cbn [quiet_end foldl]. fold (quiet_end true calls).
  destruct c; cbn [quiet_step]; try done.
  - intros _. exists calls. eexists _, _, []. by split.
  - intros (l0 & h' & m' & l2 & -> & Hall)%IH.
    exists l0, h', m', (l2 ++ [call_fflush h]). split.
    + by rewrite <- app_assoc.
    + apply Forall_app. split; [done|]. by apply Forall_singleton.
Qed.

Lemma successes_app (l : list (option cstring)) (f : option cstring) :
  successes (l ++ [f])
  = (successes l + match f with Some _ => 1 | None => 0 end)%nat.
Proof. induction l as [|[?|] l IH]; cbn; [by destruct f|lia..]. Qed.

Lemma failures_app (l : list (option cstring)) (f : option cstring) :
  failures (l ++ [f])
  = (failures l + match f with Some _ => 0 | None => 1 end)%nat.
Proof. induction l as [|[?|] l IH]; cbn; [by destruct f|lia..]. Qed.

Lemma shift_call_open_call (calls : list syscall) :
  Forall (fun c => is_shift_call c = true) calls ->
  Forall (fun c => is_open_call c = true) calls.
Proof. intros H. eapply Forall_impl; [exact H|]. by intros []. Qed.

Lemma find_last_log_open_calls (fuel : nat) (env : process_env) (data : FileLogger)
    (n : nat) (id : Z) (logfiles lf : list cstring) (w w' : world) :
  find_last_log fuel env data n id logfiles w = Ok (lf, w') ->
  exists t, after_calls w w' t /\ Forall (fun c => is_open_call c = true) t.
Proof.
  revert id logfiles w. induction n as [|n IH]; intros id logfiles w;
    cbn [find_last_log].
  - intros [= <- <-]. exists []. split; [apply after_calls_refl|done].
  - destruct (FileLoggerGetPath fuel env (path data) (to_gint id)) as [log| |];
      cbn [mbind result_bind bind_result]; [|done|done].
    unfold g_file_test.
    destruct (match fs w !! log with Some (RegularFile _) => true | _ => false end).
    + intros (t & Ht & Hall)%IH. eexists. split.
      * eapply after_calls_trans; [apply after_calls_record|exact Ht].
      * by constructor.
    + intros [= <- <-]. eexists. split; [apply after_calls_record|].
      by repeat constructor.
Qed.

Lemma rename_logs_open_calls (id : nat) (logfiles : list cstring) (w w' : world) :
  rename_logs id logfiles w = Ok w' ->
  exists t, after_calls w w' t /\ Forall (fun c => is_open_call c = true) t.
Proof.
  revert w. induction id as [|id IH]; intros w; cbn [rename_logs].
  - intros [= <-]. exists []. split; [apply after_calls_refl|done].
  - destruct (logfiles !! S id) as [dest|]; [|done].
    destruct (logfiles !! id) as [src|]; [|done].
    intros (t & Ht & Hall)%IH.
    destruct (rename_one_calls w src dest) as (t1 & H1 & Hall1%shift_call_open_call).
    eexists. split; [by eapply after_calls_trans|by apply Forall_app].
Qed.

(** [FileLoggerOpen] writes to no stream and closes none. *)
Lemma FileLoggerOpen_open_calls (fuel : nat) (env : process_env)
    (data data' : FileLogger) (w w' : world) (f : option cstring) :
  FileLoggerOpen fuel env data w = Ok (f, data', w') ->
  exists t, trace w' = trace w ++ t /\ Forall (fun c => is_open_call c = true) t.
Proof.
  assert (forall w0 w1 t, after_calls w0 w1 t /\ Forall (fun c => is_open_call c = true) t ->
            exists t, trace w1 = trace w0 ++ t
                      /\ Forall (fun c => is_open_call c = true) t) as Hout.
  { intros w0 w1 t [[Ht _] Hall]. by exists t. }
  unfold FileLoggerOpen.
  destruct (FileLoggerGetPath fuel env (path data) 0) as [path0| |];
    cbn [mbind result_bind bind_result]; [|done|done].
  pose proof (g_file_test_calls w path0 G_FILE_TEST_EXISTS) as [H1 _].
  destruct (g_file_test w path0 G_FILE_TEST_EXISTS) as [ex w1]. cbn [snd] in H1.
  assert (forall (d : FileLogger) w2 t2,
            after_calls w w2 t2 -> Forall (fun c => is_open_call c = true) t2 ->
            (let '(logfile, w3) := g_fopen w2 path0 (if append d then mode_a else mode_w)
             in Ok (logfile, d, w3)) = Ok (f, data', w') ->
            exists t, trace w' = trace w ++ t
                      /\ Forall (fun c => is_open_call c = true) t) as Hopen.
  { intros d w2 t2 H2 Hall2.
    pose proof (g_fopen_calls w2 path0 (if append d then mode_a else mode_w)) as H3.
    destruct (g_fopen w2 path0 _) as [logfile w3]. cbn [snd] in H3.
    intros [= <- <- <-]. apply (Hout w w3 (t2 ++ [call_fopen path0
                                  (if append d then mode_a else mode_w)])).
    split; [by eapply after_calls_trans|].
    apply Forall_app. split; [done|by repeat constructor]. }
  destruct ex.
  2: { apply (Hopen data w1 [call_file_test path0 G_FILE_TEST_EXISTS]); [done|].
       by repeat constructor. }
  unfold g_stat. set (w2 := record_call w1 _).
  assert (after_calls w1 w2 [call_stat path0]) as H2 by apply after_calls_record.
  pose proof (after_calls_trans _ _ _ _ _ H1 H2) as H12.
  assert (Forall (fun c => is_open_call c = true)
            ([call_file_test path0 G_FILE_TEST_EXISTS] ++ [call_stat path0])) as Hall12
    by (by repeat constructor).
  set (data1 := match _ with
                | Some st_size => set_logSize data (to_gint st_size)
                | None => data end).
  destruct (negb (append data1) || size_reached data1);
    cbn [mbind result_bind bind_result]; [|by eapply Hopen].
  destruct (find_last_log fuel env data1 _ 0 [] w2) as [[lf w3]| |] eqn:Efind;
    cbn [mbind result_bind bind_result]; [|done|done].
  apply find_last_log_open_calls in Efind as (t3 & H3 & Hall3).
  destruct (Nat.eqb (length lf) 0); [done|].
  destruct (rename_logs (length lf - 1) lf w3) as [w4| |] eqn:Eren;
    cbn [mbind result_bind bind_result]; [|done|done].
  apply rename_logs_open_calls in Eren as (t4 & H4 & Hall4).
  eapply Hopen.
  - eapply after_calls_trans; [exact H12|].
    eapply after_calls_trans; [exact H3|exact H4].
  - apply Forall_app. split; [done|]. by apply Forall_app.
Qed.

(** A stream that [FileLoggerOpen] returns is the one of the active file,
    which then exists. *)
Lemma FileLoggerOpen_stream (fuel : nat) (env : process_env) (data data' : FileLogger)
    (w w' : world) (h : cstring) :
  FileLoggerOpen fuel env data w = Ok (Some h, data', w') ->
  FileLoggerGetPath fuel env (path data) 0 = Ok h /\ fs w' !! h <> None.
Proof.
  unfold FileLoggerOpen.
  destruct (FileLoggerGetPath fuel env (path data) 0) as [path0| |];
    cbn [mbind result_bind bind_result]; [|done|done].
  destruct (g_file_test w path0 G_FILE_TEST_EXISTS) as [ex w1].
  destruct (if ex then _ else _) as [[d2 w2]| |];
    cbn [mbind result_bind bind_result]; [|done|done].
  unfold g_fopen. destruct (fopen_denied w2 path0); [done|].
  destruct (fs w2 !! path0) as [[c|sz]|] eqn:E, (if append d2 then mode_a else mode_w);
    intros [= <- <- <-]; (split; [done|]); cbn [fs with_fs record_call];
    by rewrite ?lookup_insert_eq, ?E.
Qed.

(** With [append] at [FALSE], [FileLoggerOpen] leaves [logSize] at 0 when
    the active file exists or the counter was 0 already. *)
Lemma FileLoggerOpen_resets (fuel : nat) (env : process_env) (data data' : FileLogger)
    (w w' : world) (f : option cstring) (path0 : cstring) :
  FileLoggerOpen fuel env data w = Ok (f, data', w') ->
  FileLoggerGetPath fuel env (path data) 0 = Ok path0 ->
  append data = false ->
  fs w !! path0 <> None \/ logSize data = 0 ->
  logSize data' = 0.
Proof.
  intros Hrun Hp Happ Hcase. revert Hrun. unfold FileLoggerOpen. rewrite Hp.
  cbn [mbind result_bind bind_result g_file_test g_stat fs record_call stat_denied].
  destruct (fs w !! path0) as [n|] eqn:E.
  - set (data1 := match _ with
                  | Some st_size => set_logSize data (to_gint st_size)
                  | None => data end).
    assert (append data1 = false) as ->
      by (unfold data1; by destruct (if stat_denied w path0 then None else _)).
    cbn [negb orb].
    destruct (find_last_log fuel env data1 _ 0 [] _) as [[lf w3]| |];
      cbn [mbind result_bind bind_result]; [|done|done].
    destruct (if Nat.eqb (length lf) 0 then _ else _) as [w4| |];
      cbn [mbind result_bind bind_result]; [|done|done].
    destruct (g_fopen w4 path0 _) as [logfile w5]. by intros [= <- <- <-].
  - cbn [mbind result_bind bind_result].
    destruct (g_fopen _ path0 _) as [logfile w5]. intros [= <- <- <-].
    by destruct Hcase.
Qed.

Lemma fputs_keeps (w : world) (message h q : cstring) (ok : bool) :
  fs w !! q <> None -> fs (fputs w message h ok) !! q <> None.
Proof.
  unfold fputs. destruct ok; [|done].
  destruct (fs w !! h) as [[c|sz]|] eqn:E; try done.
  cbn [fs with_fs]. destruct (decide (q = h)) as [->|Hne].
  - by rewrite lookup_insert_eq.
  - by rewrite lookup_insert_ne.
Qed.

Lemma step_stream_inv (fuel : nat) (env : process_env) (i : nat)
    (ts ts' : list thread) (s s' : shared) :
  open_inv ts s -> stream_inv fuel env ts s ->
  step fuel env i (ts, s) = Ok (ts', s') -> stream_inv fuel env ts' s'.
Proof.
  intros (_ & Hopen271 & _) (B1 & B2 & B3). unfold step. cbn [fst snd].
  destruct (ts !! i) as [t|] eqn:Hi; [|by intros [= <- <-]].
  destruct (thread_step fuel env t s) as [[[p s1]| |]|] eqn:Hstep;
    [|done|done|by intros [= <- <-]].
  cbn [mbind result_bind bind_result]. intros [= <- <-].
  pose proof (count_pc_insert counted ts i t p Hi) as Hc.
  unfold thread_step, reader_lock, reader_unlock, writer_lock, writer_unlock in Hstep.
  destruct (th_pc t) eqn:Hpc; cbn [counted] in Hc.
  all: try (
    repeat match type of Hstep with
      | context [match file ?l with _ => _ end] => destruct (file l) eqn:?
      | context [if ?b then _ else _] => destruct b eqn:?
      end;
    try discriminate Hstep;
    injection Hstep as <- <-;
    cbn [counted] in Hc;
    unfold stream_inv, fflush;
    cbn [sh_logger sh_world sh_opens sh_rotations with_lock with_logger with_world
         file path maxSize set_logSize set_error fs record_call];
    try match goal with H : file _ = _ |- _ => rewrite H end;
    (split;
     [ intros; first [ by (apply B1; lia) | by apply Z.ltb_lt ]
     | split;
       [ first [ exact B2
               | intros h' Hh'; destruct (B2 h' Hh') as [? ?]; split; [done|];
                 by apply fputs_keeps ]
       | exact B3 ] ])).
  - (* line 271 *)
    destruct (FileLoggerOpen fuel env (sh_logger s) (sh_world s))
      as [[[f l] w1]| |] eqn:E; cbn [mbind result_bind bind_result] in Hstep;
      [|discriminate Hstep|discriminate Hstep].
    injection Hstep as <- <-.
    pose proof (Hopen271 i t Hi Hpc) as Hnone.
    pose proof (FileLoggerOpen_frame _ _ _ _ _ _ _ E) as (_ & Hpath & Hsize & _).
    cbn [counted] in Hc. unfold stream_inv.
    cbn [sh_logger sh_world sh_opens sh_rotations with_open file path maxSize set_file].
    split; [|split].
    + intros. rewrite Hsize. apply B1. lia.
    + intros h [= ->]. rewrite Hpath. by apply (FileLoggerOpen_stream _ _ _ _ _ _ _ E).
    + rewrite successes_app. rewrite Hnone in B3. destruct f; lia.
  - (* line 294 *)
    destruct (file (sh_logger s)) as [h|] eqn:Hfile; [|discriminate Hstep].
    destruct (FileLoggerOpen fuel env (set_append (sh_logger s) false) _)
      as [[[f l] w1]| |] eqn:E; cbn [mbind result_bind bind_result] in Hstep;
      [|discriminate Hstep|discriminate Hstep].
    injection Hstep as <- <-.
    pose proof (FileLoggerOpen_frame _ _ _ _ _ _ _ E) as (_ & Hpath & Hsize & _).
    cbn [path maxSize set_append] in Hpath, Hsize.
    cbn [counted] in Hc. unfold stream_inv.
    cbn [sh_logger sh_world sh_opens sh_rotations with_rotation file path maxSize
         set_file].
    split; [|split].
    + intros. rewrite Hsize. apply B1. lia.
    + intros h' [= ->]. rewrite Hpath.
      by apply (FileLoggerOpen_stream _ _ _ _ _ _ _ E).
    + rewrite failures_app. destruct f; lia.
Qed.

Lemma at_rotation_holds_writer (p : pc) : at_rotation p = true -> holds_writer p = true.
Proof. by destruct p. Qed.

Lemma writing_holds_reader (p : pc) : writing p = true -> holds_reader p = true.
Proof. by destruct p. Qed.

(** While a thread holds the reader lock, no thread is at the rotation. *)
Lemma reader_excludes_rotation (ts : list thread) (s : shared) (i : nat) (t : thread) :
  lock_inv ts s -> ts !! i = Some t -> holds_reader (th_pc t) = true ->
  count_pc at_rotation ts = 0%nat.
Proof.
  intros (L1 & L2 & L3) Hi Hr.
  pose proof (count_pc_elem holds_reader ts i t Hi Hr) as Hpos.
  pose proof (count_pc_sub at_rotation holds_writer ts at_rotation_holds_writer) as Hsub.
  destruct (sh_writer s); [specialize (L3 eq_refl)|]; simpl in L2; lia.
Qed.

(** While a thread holds the writer lock, no other thread is at the rotation
    and no thread is between its write and its flush. *)
Lemma writer_excludes_rotation (ts : list thread) (s : shared) (i : nat) (t : thread) :
  lock_inv ts s -> ts !! i = Some t -> holds_writer (th_pc t) = true ->
  (count_pc at_rotation ts <= if at_rotation (th_pc t) then 1 else 0)%nat /\
  count_pc writing ts = 0%nat.
Proof.
  intros (L1 & L2 & L3) Hi Hw.
  pose proof (count_pc_elem holds_writer ts i t Hi Hw) as Hpos.
  pose proof (count_pc_sub at_rotation holds_writer ts at_rotation_holds_writer) as Hsub.
  pose proof (count_pc_sub writing holds_reader ts writing_holds_reader) as Hsub'.
  assert (sh_writer s = true) as Hwr by (destruct (sh_writer s); [done|simpl in L2; lia]).
  specialize (L3 Hwr). rewrite Hwr in L2. simpl in L2.
  split; [|lia].
  destruct (at_rotation (th_pc t)) eqn:E; [lia|].
  destruct (Nat.eq_dec (count_pc at_rotation ts) 0%nat) as [->|Hne]; [done|].
  destruct (count_pc_pos at_rotation ts) as (j & t' & Hj & Hat); [lia|].
  assert (i = j) as <-.
  { apply (count_pc_one holds_writer ts i j t t'); try done; [lia|].
    by apply at_rotation_holds_writer. }
  congruence.
Qed.

Lemma step_rotation_inv (fuel : nat) (env : process_env) (i : nat)
    (ts ts' : list thread) (s s' : shared) :
  lock_inv ts s -> rotation_inv ts s ->
  step fuel env i (ts, s) = Ok (ts', s') -> rotation_inv ts' s'.
Proof.
  intros Hlock Hrot. unfold step. cbn [fst snd].
  destruct (ts !! i) as [t|] eqn:Hi; [|by intros [= <- <-]].
  destruct (thread_step fuel env t s) as [[[p s1]| |]|] eqn:Hstep;
    [|done|done|by intros [= <- <-]].
  cbn [mbind result_bind bind_result]. intros [= <- <-].
  pose proof (count_pc_insert at_rotation ts i t p Hi) as Hc.
  pose proof (reader_excludes_rotation ts s i t Hlock Hi) as Hrd.
  pose proof (writer_excludes_rotation ts s i t Hlock Hi) as Hwr.
  unfold rotation_inv in *.
  unfold thread_step, reader_lock, reader_unlock, writer_lock, writer_unlock in Hstep.
  destruct (th_pc t) eqn:Hpc; cbn [at_rotation holds_reader holds_writer] in Hc, Hrd, Hwr.
  all: try (
    repeat match type of Hstep with
      | context [match file ?l with _ => _ end] => destruct (file l) eqn:?
      | context [if ?b then _ else _] => destruct b eqn:?
      end;
    try discriminate Hstep;
    injection Hstep as <- <-;
    cbn [at_rotation] in Hc;
    unfold size_reached in *;
    cbn [sh_logger with_lock with_logger with_world maxSize logSize set_error];
    intros Hpos;
    first [ by (apply Hrot; lia) | done
          | exfalso; specialize (Hrd eq_refl); lia
          | exfalso; destruct (Hwr eq_refl); lia ]).
  - (* line 271 *)
    destruct (FileLoggerOpen fuel env (sh_logger s) (sh_world s))
      as [[[f l] w1]| |] eqn:E; cbn [mbind result_bind bind_result] in Hstep;
      [|discriminate Hstep|discriminate Hstep].
    injection Hstep as <- <-. cbn [at_rotation] in Hc.
    destruct (Hwr eq_refl) as [Hle _]. intros Hpos. lia.
  - (* line 294 *)
    destruct (file (sh_logger s)) as [h|] eqn:Hfile; [|discriminate Hstep].
    destruct (FileLoggerOpen fuel env (set_append (sh_logger s) false) _)
      as [[[f l] w1]| |] eqn:E; cbn [mbind result_bind bind_result] in Hstep;
      [|discriminate Hstep|discriminate Hstep].
    injection Hstep as <- <-. cbn [at_rotation] in Hc.
    destruct (Hwr eq_refl) as [Hle _]. intros Hpos. lia.
Qed.

Lemma FileLoggerOpen_path (fuel : nat) (env : process_env) (data data' : FileLogger)
    (w w' : world) (f : option cstring) :
  FileLoggerOpen fuel env data w = Ok (f, data', w') ->
  exists path0, FileLoggerGetPath fuel env (path data) 0 = Ok path0.
Proof.
  unfold FileLoggerOpen.
  destruct (FileLoggerGetPath fuel env (path data) 0) as [path0| |]; [|done|done].
  intros _. by exists path0.
Qed.

(** The invariant after a step that added the calls [more] to the trace. *)
Lemma spaced_inv_extend (n : nat) (ts ts' : list thread) (s s' : shared)
    (more : list syscall) :
  trace (sh_world s') = trace (sh_world s) ++ more ->
  spaced_inv n ts s ->
  spaced (quiet_end true (drop n (trace (sh_world s)))) more = true ->
  (closes more + length (sh_rotations s))%nat = length (sh_rotations s') ->
  (file (sh_logger s') = None ->
   quiet_end (quiet_end true (drop n (trace (sh_world s)))) more = true) ->
  (quiet_end (quiet_end true (drop n (trace (sh_world s)))) more = true ->
   count_pc writing ts' = 0%nat /\
   ((0 < count_pc counted ts')%nat ->
    logSize (sh_logger s') = 0 /\ append (sh_logger s') = false)) ->
  spaced_inv n ts' s'.
Proof.
  intros Htrace (Hn & Hsp & Hcl & _) Hmore Hcloses Hfile Hquiet. unfold spaced_inv.
  rewrite Htrace, length_app, drop_app_le by done.
  rewrite spaced_app, quiet_end_app, closes_app, Hsp, Hmore.
  split; [lia|]. split; [done|]. split; [lia|]. by split.
Qed.

Lemma step_spaced_inv (fuel : nat) (env : process_env) (n i : nat)
    (ts ts' : list thread) (s s' : shared) :
  open_inv ts s -> lock_inv ts s -> stream_inv fuel env ts s -> rotation_inv ts s ->
  spaced_inv n ts s ->
  step fuel env i (ts, s) = Ok (ts', s') -> spaced_inv n ts' s'.
Proof.
  intros (_ & Hopen271 & _) Hlock (B1 & B2 & _) Hrot Hinv. unfold step. cbn [fst snd].
  destruct (ts !! i) as [t|] eqn:Hi; [|by intros [= <- <-]].
  destruct (thread_step fuel env t s) as [[[p s1]| |]|] eqn:Hstep;
    [|done|done|by intros [= <- <-]].
  cbn [mbind result_bind bind_result]. intros [= <- <-].
  pose proof (count_pc_insert writing ts i t p Hi) as Hc.
  pose proof (count_pc_insert counted ts i t p Hi) as Hcc.
  pose proof (count_pc_elem writing ts i t Hi) as Hin.
  pose proof (writer_excludes_rotation ts s i t Hlock Hi) as Hwr.
  unfold thread_step, reader_lock, reader_unlock, writer_lock, writer_unlock in Hstep.
  destruct (th_pc t) eqn:Hpc;
    cbn [writing counted holds_writer at_rotation] in Hc, Hcc, Hin, Hwr.
  all: try (
    repeat match type of Hstep with
      | context [match file ?l with _ => _ end] => destruct (file l) eqn:?
      | context [if ?b then _ else _] => destruct b eqn:?
      end;
    try discriminate Hstep;
    injection Hstep as <- <-;
    cbn [writing counted] in Hc, Hcc;
    pose proof Hinv as (_ & _ & _ & H3 & H4);
    (eapply (spaced_inv_extend n ts _ s);
     [ cbn [sh_world with_lock with_logger with_world];
       first [ symmetry; apply app_nil_r | apply fputs_trace | reflexivity ]
     | exact Hinv
     | reflexivity
     | reflexivity
     | cbn [sh_logger with_lock with_logger with_world file set_logSize set_error];
       first [ exact H3 | intros ?; congruence ]
     | intros Hq;
       first [ discriminate Hq
             | destruct (H4 Hq) as (Hw & Hz);
               first [ exfalso; specialize (Hin eq_refl); lia
                     | split; [lia|]; intros Hpos;
                       cbn [sh_logger with_lock with_logger with_world
                            logSize append set_error];
                       apply Hz; lia ] ] ])).
  - (* line 271 *)
    destruct (FileLoggerOpen fuel env (sh_logger s) (sh_world s))
      as [[[f l] w1]| |] eqn:E; cbn [mbind result_bind bind_result] in Hstep;
      [|discriminate Hstep|discriminate Hstep].
    injection Hstep as <- <-. cbn [writing counted] in Hc, Hcc.
    pose proof Hinv as (_ & _ & _ & H3 & H4).
    destruct (FileLoggerOpen_open_calls _ _ _ _ _ _ _ E) as (calls & Htrace & Hcalls).
    destruct (FileLoggerOpen_path _ _ _ _ _ _ _ E) as (path0 & Hpath0).
    pose proof (FileLoggerOpen_frame _ _ _ _ _ _ _ E) as (_ & _ & _ & _ & _ & _ & Happ).
    destruct (open_calls_quiet true calls Hcalls) as (Hsp & Hcl & Hq).
    pose proof (H3 (Hopen271 i t Hi Hpc)) as Hquiet.
    destruct (H4 Hquiet) as (Hw & Hz).
    eapply (spaced_inv_extend n ts _ s _ calls); [exact Htrace|exact Hinv|..];
      rewrite ?Hquiet, ?Hcl; try done.
    intros _. split; [lia|]. intros Hpos.
    destruct Hz as [Hz Ha]; [lia|].
    cbn [sh_logger with_open logSize append set_file].
    split; [|by apply Happ].
    apply (FileLoggerOpen_resets _ _ _ _ _ _ _ _ E Hpath0 Ha). by right.
  - (* line 294 *)
    destruct (file (sh_logger s)) as [h|] eqn:Hfile; [|discriminate Hstep].
    destruct (FileLoggerOpen fuel env (set_append (sh_logger s) false) _)
      as [[[f l] w1]| |] eqn:E; cbn [mbind result_bind bind_result] in Hstep;
      [|discriminate Hstep|discriminate Hstep].
    injection Hstep as <- <-. cbn [writing counted] in Hc, Hcc.
    pose proof Hinv as (_ & _ & _ & H3 & H4).
    destruct (FileLoggerOpen_open_calls _ _ _ _ _ _ _ E) as (calls & Htrace & Hcalls).
    pose proof (FileLoggerOpen_frame _ _ _ _ _ _ _ E) as (_ & _ & _ & _ & _ & _ & Happ).
    destruct (open_calls_quiet true calls Hcalls) as (Hsp & Hcl & Hq).
    destruct (B2 h eq_refl) as [Hpath0 Hexists].
    destruct (Hwr eq_refl) as [_ Hnone].
    assert (quiet_end true (drop n (trace (sh_world s))) = false) as Hloud.
    { destruct (quiet_end true (drop n (trace (sh_world s)))) eqn:Hquiet; [|done].
      assert (0 < count_pc counted ts)%nat as Hpos
        by (by apply (count_pc_elem counted ts i t Hi); rewrite Hpc).
      destruct (H4 eq_refl) as (_ & Hz). destruct (Hz Hpos) as [Hzero _].
      pose proof (B1 Hpos) as Hmax.
      assert (size_reached (sh_logger s) = true) as Hsize
        by (apply Hrot; by apply (count_pc_elem at_rotation ts i t Hi); rewrite Hpc).
      unfold size_reached in Hsize. rewrite Hzero in Hsize.
      apply Z.leb_le in Hsize. change (to_guint64 0) with 0 in Hsize. lia. }
    eapply (spaced_inv_extend n ts _ s _ (call_fclose h :: calls));
      [|exact Hinv|..]; rewrite ?Hloud.
    + cbn [sh_world with_rotation]. rewrite Htrace. unfold fclose.
      cbn [trace record_call]. by rewrite <- app_assoc.
    + by cbn [spaced quiet_step negb andb].
    + cbn [closes sh_rotations with_rotation]. rewrite Hcl, length_app.
      cbn [length]. lia.
    + done.
    + intros _. split; [lia|]. intros _.
      cbn [sh_logger with_rotation logSize append set_file].
      split; [|by apply Happ].
      apply (FileLoggerOpen_resets _ _ _ _ _ _ _ _ E Hpath0 eq_refl). by left.
Qed.

Lemma step_once_inv (fuel : nat) (env : process_env) (i : nat)
    (ts ts' : list thread) (s s' : shared) :
  open_inv ts s -> once_inv s ->
  step fuel env i (ts, s) = Ok (ts', s') -> once_inv s'.
Proof.
  intros (_ & Hopen271 & _) Hinv. unfold step. cbn [fst snd].
  destruct (ts !! i) as [t|] eqn:Hi; [|by intros [= <- <-]].
  destruct (thread_step fuel env t s) as [[[p s1]| |]|] eqn:Hstep;
    [|done|done|by intros [= <- <-]].
  cbn [mbind result_bind bind_result]. intros [= <- <-].
  unfold thread_step, reader_lock, reader_unlock, writer_lock, writer_unlock in Hstep.
  destruct (th_pc t) eqn:Hpc.
  all: try (
    repeat match type of Hstep with
      | context [if ?b then _ else _] => destruct b eqn:?
      end;
    try (destruct (file (sh_logger s)) eqn:Hfile);
    try discriminate Hstep;
    injection Hstep as <- <-;
    unfold once_inv in *;
    cbn [sh_logger sh_opens sh_rotations with_lock with_logger with_world
         file set_logSize set_error];
    rewrite ?Hfile in *; exact Hinv).
  - (* line 271 *)
    destruct (FileLoggerOpen fuel env (sh_logger s) (sh_world s))
      as [[[f l] w1]| |] eqn:E; cbn [mbind result_bind bind_result] in Hstep;
      [|discriminate Hstep|discriminate Hstep].
    injection Hstep as <- <-. unfold once_inv in *.
    cbn [sh_logger sh_opens sh_rotations with_open file set_file].
    rewrite (Hopen271 i t Hi Hpc) in Hinv. intros Hrot. specialize (Hinv Hrot).
    destruct f as [h|].
    + by exists (sh_opens s), h.
    + apply Forall_app. split; [done|]. by apply Forall_singleton.
  - (* line 294 *)
    destruct (file (sh_logger s)) as [h|] eqn:Hfile; [|discriminate Hstep].
    destruct (FileLoggerOpen fuel env (set_append (sh_logger s) false) _)
      as [[[f l] w1]| |] eqn:E; cbn [mbind result_bind bind_result] in Hstep;
      [|discriminate Hstep|discriminate Hstep].
    injection Hstep as <- <-. unfold once_inv in *.
    cbn [sh_logger sh_opens sh_rotations with_rotation file set_file].
    rewrite failures_app. intros Hrot. destruct f as [h'|]; [|lia].
    rewrite Hfile in Hinv. apply Hinv. lia.
Qed.

Lemma run_rotation_inv (fuel : nat) (env : process_env) (n : nat)
    (schedule : list nat) (ts ts' : list thread) (s s' : shared) :
  open_inv ts s /\ lock_inv ts s /\ stream_inv fuel env ts s /\ rotation_inv ts s /\
  spaced_inv n ts s /\ once_inv s ->
  run fuel env schedule (ts, s) = Ok (ts', s') ->
  open_inv ts' s' /\ lock_inv ts' s' /\ stream_inv fuel env ts' s' /\
  rotation_inv ts' s' /\ spaced_inv n ts' s' /\ once_inv s'.
Proof.
  revert ts s. induction schedule as [|i rest IH]; intros ts s Hinv; cbn [run].
  - by intros [= <- <-].
  - destruct (step fuel env i (ts, s)) as [[ts1 s1]| |] eqn:E;
      cbn [mbind result_bind bind_result]; try done.
    apply IH. destruct Hinv as (Ho & Hl & Hs & Hr & Hsp & Hon).
    split; [by eapply step_open_inv|].
    split; [by eapply step_lock_inv|].
    split; [by eapply step_stream_inv|].
    split; [by eapply step_rotation_inv|].
    split; [by eapply step_spaced_inv|].
    by eapply step_once_inv.
Qed.

Lemma start_rotation_inv (fuel : nat) (env : process_env)
    (msgs : list (cstring * bool)) (logger : FileLogger) (w : world) :
  file logger = None ->
  stream_inv fuel env (start msgs logger w).1 (start msgs logger w).2 /\
  rotation_inv (start msgs logger w).1 (start msgs logger w).2 /\
  spaced_inv (length (trace w)) (start msgs logger w).1 (start msgs logger w).2 /\
  once_inv (start msgs logger w).2.
Proof.
  intros Hfile.
  assert (forall f, f L257 = false -> count_pc f (start msgs logger w).1 = 0%nat)
    as Hnone.
  { intros f Hf. apply count_pc_none. intros t Ht. cbn [start fst] in Ht.
    apply list_elem_of_fmap in Ht as (m & -> & _). exact Hf. }
  unfold stream_inv, rotation_inv, spaced_inv, once_inv.
  rewrite !Hnone by done. cbn [start snd sh_logger sh_world sh_opens sh_rotations].
  rewrite Hfile, drop_all. cbn [successes failures closes spaced quiet_end foldl length].
  repeat split; try done; try lia.
Qed.

(** C9 (amended): whatever the schedule of the threads that call
    [FileLoggerLog] on an unopened logger without error, both guarded
    conditions are re-checked under the writer lock: a thread is about to
    call [FileLoggerOpen] at line 271 only while the file is still NULL, and
    about to rotate at lines 294 to 296 only while the file is open and the
    size is still at the threshold.  So as long as no rotation has failed to
    open the new file, every call of [FileLoggerOpen] at line 271 but the
    last has returned NULL (a call that returned the file is not repeated; a
    failed one is), and the calls at line 271 return a file at most once more
    than rotations have failed.  No backup shift is repeated: each [fclose]
    belongs to one rotation, and between the last [fputs] before it and the
    [fclose] itself there are only [fputs] and [fflush] calls, no call of
    [FileLoggerOpen] and no other rotation.  And a thread returns only after
    [FileLoggerOpen] has been called. *)
Theorem C9_open_and_rotate_once (fuel : nat) (env : process_env)
    (msgs : list (cstring * bool)) (logger : FileLogger) (w : world)
    (schedule : list nat) (ts : list thread) (s : shared) :
  file logger = None -> error logger = false ->
  run fuel env schedule (start msgs logger w) = Ok (ts, s) ->
  (forall t, t ∈ ts -> th_pc t = L271 -> file (sh_logger s) = None) /\
  (forall t, t ∈ ts -> th_pc t = L294 ->
     size_reached (sh_logger s) = true /\ file (sh_logger s) <> None) /\
  (failures (sh_rotations s) = 0%nat ->
   forall failed last, sh_opens s = failed ++ [last] ->
     Forall (fun f => f = None) failed) /\
  (successes (sh_opens s) <= failures (sh_rotations s) + 1)%nat /\
  closes (drop (length (trace w)) (trace (sh_world s))) = length (sh_rotations s) /\
  (forall l1 h l3,
     drop (length (trace w)) (trace (sh_world s)) = l1 ++ call_fclose h :: l3 ->
     exists l0 h' m l2,
       l1 = l0 ++ call_fputs h' m :: l2 /\
       Forall (fun c => is_write_call c = true) l2) /\
  ((exists t, t ∈ ts /\ th_pc t = returned) -> sh_opens s <> []).
Proof.
  intros Hfile Herr Hrun.
  pose proof (start_open_inv msgs logger w Hfile Herr) as Hopen.
  pose proof (start_lock_inv msgs logger w) as Hlock.
  pose proof (start_rotation_inv fuel env msgs logger w Hfile) as (Hst & Hro & Hsp & Hon).
  destruct (start msgs logger w) as [ts0 s0] eqn:E. cbn [fst snd] in *.
  destruct (run_rotation_inv fuel env (length (trace w)) schedule ts0 ts s0 s)
    as (Hopen' & _ & (B1 & _ & B3) & Hrot & (_ & Hspaced & Hcloses & H3 & H4) & Honce);
    [done|done|].
  destruct Hopen' as (_ & H271 & _ & Hfirst).
  split; [|split; [|split; [|split; [|split; [|split]]]]].
  - intros t [j Hj]%list_elem_of_lookup_1 Hpc. by apply (H271 j t).
  - intros t [j Hj]%list_elem_of_lookup_1 Hpc.
    assert (size_reached (sh_logger s) = true) as Hsize
      by (apply Hrot; by apply (count_pc_elem at_rotation ts j t Hj); rewrite Hpc).
    split; [done|]. intros Hnone.
    assert (0 < count_pc counted ts)%nat as Hpos
      by (by apply (count_pc_elem counted ts j t Hj); rewrite Hpc).
    destruct (H4 (H3 Hnone)) as (_ & Hz). destruct (Hz Hpos) as [Hzero _].
    pose proof (B1 Hpos) as Hmax.
    unfold size_reached in Hsize. rewrite Hzero in Hsize.
    apply Z.leb_le in Hsize. change (to_guint64 0) with 0 in Hsize. lia.
  - intros Hrots failed last Hopens. specialize (Honce Hrots).
    destruct (file (sh_logger s)) as [h|].
    + destruct Honce as (failed' & h' & Heq & Hall). rewrite Heq in Hopens.
      by apply app_inj_tail in Hopens as [-> _].
    + rewrite Hopens in Honce. by apply Forall_app in Honce as [? _].
  - destruct (file (sh_logger s)); lia.
  - done.
  - intros l1 h l3 Hcalls. rewrite Hcalls in Hspaced.
    by apply quiet_end_false, (spaced_fclose true l1 l3 h).
  - intros (t & [j Hj]%list_elem_of_lookup_1 & Hpc) Hnil.
    destruct (Hfirst Hnil) as (_ & _ & _ & Hall).
    specialize (Hall j t Hj). by rewrite Hpc in Hall.
Qed.

Lemma C9_open_and_rotate_once_witness :
  let env := {| user_name := cstr "root"; pid := 4242; win32 := false |} in
  let logger := {| file := None; path := cstr "/var/log/app.log"; logSize := 0;
                   maxSize := 1; maxFiles := 2; append := false;
                   error := false |} in
  let w := {| fs := ∅; stat_denied := fun _ => false;
              unlink_denied := fun _ => false;
              rename_denied := fun _ _ => false;
              fopen_denied := fun _ => false; trace := [] |} in
  let schedule := [0; 0; 0; 0; 0; 0; 0; 0; 0; 0; 1; 1; 1; 0; 0; 0; 0; 0;
                   1; 1; 1; 1; 1; 0; 0; 0; 0; 0; 0; 1; 1; 1; 1; 1]%nat in
  exists ts s,
    run 0 env schedule (start [(cstr "a", true); (cstr "b", true)] logger w)
    = Ok (ts, s) /\
    map th_pc ts = [returned; returned] /\
    sh_opens s = [Some (cstr "/var/log/app.log")] /\
    sh_rotations s = [Some (cstr "/var/log/app.log")] /\
    fs (sh_world s) !! cstr "/var/log/app.1.log" = Some (RegularFile (cstr "ab")) /\
    (forall t, t ∈ ts -> th_pc t = L271 -> file (sh_logger s) = None) /\
    (forall t, t ∈ ts -> th_pc t = L294 ->
       size_reached (sh_logger s) = true /\ file (sh_logger s) <> None) /\
    (failures (sh_rotations s) = 0%nat ->
     forall failed last, sh_opens s = failed ++ [last] ->
       Forall (fun f => f = None) failed) /\
    (successes (sh_opens s) <= failures (sh_rotations s) + 1)%nat /\
    closes (drop (length (trace w)) (trace (sh_world s))) = length (sh_rotations s) /\
    (forall l1 h l3,
       drop (length (trace w)) (trace (sh_world s)) = l1 ++ call_fclose h :: l3 ->
       exists l0 h' m l2,
         l1 = l0 ++ call_fputs h' m :: l2 /\
         Forall (fun c => is_write_call c = true) l2) /\
    ((exists t, t ∈ ts /\ th_pc t = returned) -> sh_opens s <> []).
Proof.
  intros env logger w schedule.
  destruct (run 0 env schedule (start [(cstr "a", true); (cstr "b", true)] logger w))
    as [[ts s]| |] eqn:Hrun; [|vm_compute in Hrun; discriminate..].
  exists ts, s. split; [reflexivity|].
  pose proof (C9_open_and_rotate_once 0 env [(cstr "a", true); (cstr "b", true)]
                logger w schedule ts s eq_refl eq_refl Hrun) as H.
  vm_compute in Hrun. injection Hrun as <- <-.
  split; [reflexivity|]. split; [reflexivity|]. split; [reflexivity|].
  split; [reflexivity|]. exact H.
Defined.
